(** * License lifecycle and validation engine

    A shallow embedding of the two implementations of the license state
    machine of the repository:

    - [Contract]: smart_contracts/LicenseManager.sol (contract
      [LicenseManager]);
    - [Backend]: backend/src/models/License.js (the Mongoose model and its
      methods) together with the REST handlers of
      backend/src/routes/licenseRoutes.js that drive it (the GraphQL
      resolvers call the same model methods);
    - [ContractInv]: what every storage of [LicenseManager] reached from
      deployment satisfies;
    - [PaymentProcessor]: smart_contracts/LicenseManager.sol (contract
      [PaymentProcessor]);
    - [Routes]: the update route of licenseRoutes.js and the GraphQL query
      validateLicense of backend/src/services/blockchain/blockchainService.js.

    Solidity [uint256] and [address] values are binary naturals ([N]);
    the checked arithmetic of Solidity 0.8 is written out ([checked_add]).
    Storage mappings are finite maps read with the zero value as default.
    JavaScript numbers and [Date] values (milliseconds since the epoch) are
    integers ([Z]); a computed date outside the range of [Date] is an
    Invalid Date, which [save()] rejects ([Backend.renew]).  Requests are
    handled one after another, and a callee of the contracts does not call
    back into them. *)

From stdpp Require Import gmap strings list.

(** ** LicenseManager.sol *)
Module Contract.

Local Open Scope N_scope.

(** *** Transaction outcome: a value, or a revert that rolls the state back *)

Inductive Failure :=
| Revert (reason : string)   (* a failed [require] *)
| Panic_overflow             (* checked arithmetic, Panic(0x11) *)
| RegistryRevert.            (* the call into ModelRegistry reverted *)

Definition result (A : Type) : Type := Failure + A.

Definition ret {A} (a : A) : result A := inr a.

Definition bind {A B} (m : result A) (k : A -> result B) : result B :=
  match m with
  | inl e => inl e
  | inr a => k a
  end.

Notation "'do' x <- m ; k" := (bind m (fun x => k))
  (at level 10, x name, m at level 100, k at level 200).
Notation "'do_' m ; k" := (bind m (fun _ => k))
  (at level 10, m at level 100, k at level 200).

Definition require (cond : bool) (reason : string) : result unit :=
  if cond then inr tt else inl (Revert reason).

Definition uint256_limit : N := 2 ^ 256.

Definition checked_add (a b : N) : result N :=
  if a + b <? uint256_limit then inr (a + b) else inl Panic_overflow.

(** *** Data *)

Inductive LicenseType := OpenSource | Research | Commercial | Enterprise.

Inductive AccessLevel := ReadOnly | InferenceOnly | FineTuning | FullAccess.

(** [uint(level)]: position in the enum declaration. *)
Definition uint (a : AccessLevel) : N :=
  match a with
  | ReadOnly => 0
  | InferenceOnly => 1
  | FineTuning => 2
  | FullAccess => 3
  end.

Record License := mkLicense {
  modelId : N;
  licensee : N;
  licenseType : LicenseType;
  accessLevel : AccessLevel;
  issuedAt : N;
  expiresAt : N;
  isActive : bool;
  usageLimit : N;
  usageCount : N
}.

(** The value a storage slot holds before anything is written to it. *)
Definition zeroLicense : License :=
  mkLicense 0 0 OpenSource ReadOnly 0 0 false 0 0.

Definition set_isActive (b : bool) (l : License) : License :=
  mkLicense (modelId l) (licensee l) (licenseType l) (accessLevel l)
            (issuedAt l) (expiresAt l) b (usageLimit l) (usageCount l).

Definition set_expiresAt (t : N) (l : License) : License :=
  mkLicense (modelId l) (licensee l) (licenseType l) (accessLevel l)
            (issuedAt l) t (isActive l) (usageLimit l) (usageCount l).

Definition set_usageCount (c : N) (l : License) : License :=
  mkLicense (modelId l) (licensee l) (licenseType l) (accessLevel l)
            (issuedAt l) (expiresAt l) (isActive l) (usageLimit l) c.

Inductive Event :=
| LicenseIssued (licenseId modelId licensee : N)
| LicenseRevoked (licenseId : N)
| LicenseUsed (licenseId usageCount : N)
| LicenseExpired (licenseId : N)
| LicenseRenewed (licenseId newExpiryDate : N).

(** Contract storage. *)
Record State := mkState {
  licenses : gmap N License;
  licenseCounter : N;
  modelLicenses : gmap N (list N);
  userLicenses : gmap N (list N)
}.

(** What a transaction sees of the world outside the contract's own
    storage: the sender, the block time, the ModelRegistry (an ERC-721
    whose [ownerOf] reverts for a token that does not exist, [None] here)
    and the LICENSE_ADMIN role of OpenZeppelin's AccessControl. *)
Record Env := mkEnv {
  msg_sender : N;
  block_timestamp : N;
  ownerOf : N -> option N;
  hasRole_LICENSE_ADMIN : N -> bool
}.

Definition initState : State := mkState ∅ 0 ∅ ∅.

(** [licenses[licenseId]] *)
Definition lic (s : State) (licenseId : N) : License :=
  default zeroLicense (licenses s !! licenseId).

Definition store (licenseId : N) (l : License) (s : State) : State :=
  mkState (<[licenseId := l]> (licenses s)) (licenseCounter s)
          (modelLicenses s) (userLicenses s).

Definition ids_of (m : gmap N (list N)) (k : N) : list N :=
  default [] (m !! k).

Definition registry_ownerOf (env : Env) (model : N) : result N :=
  match ownerOf env model with
  | Some o => inr o
  | None => inl RegistryRevert
  end.

(** *** Functions of the contract *)

Definition issueLicense (env : Env) (model to : N) (lt : LicenseType)
    (al : AccessLevel) (duration limit : N) (s : State)
  : result (N * State * list Event) :=
  (* modifier onlyModelOwner(modelId) *)
  do owner <- registry_ownerOf env model;
  do_ require ((owner =? msg_sender env)
               || hasRole_LICENSE_ADMIN env (msg_sender env))
              "Caller is not the model owner or admin";
  do_ require (negb (to =? 0)) "Invalid licensee address";
  do_ require (0 <? duration) "License duration must be greater than 0";
  do counter <- checked_add (licenseCounter s) 1;
  let licenseId := counter in
  do expiry <- checked_add (block_timestamp env) duration;
  let l := mkLicense model to lt al (block_timestamp env) expiry true limit 0 in
  ret (licenseId,
       mkState (<[licenseId := l]> (licenses s)) counter
               (<[model := ids_of (modelLicenses s) model ++ [licenseId]]>
                  (modelLicenses s))
               (<[to := ids_of (userLicenses s) to ++ [licenseId]]>
                  (userLicenses s)),
       [LicenseIssued licenseId model to]).

Definition revokeLicense (env : Env) (licenseId : N) (s : State)
  : result (State * list Event) :=
  let license := lic s licenseId in
  do_ require (isActive license) "License already inactive";
  do owner <- registry_ownerOf env (modelId license);
  do_ require ((owner =? msg_sender env)
               || hasRole_LICENSE_ADMIN env (msg_sender env))
              "Not authorized to revoke this license";
  ret (store licenseId (set_isActive false license) s,
       [LicenseRevoked licenseId]).

Definition recordUsage (env : Env) (licenseId usageAmount : N) (s : State)
  : result (State * list Event) :=
  do_ require (hasRole_LICENSE_ADMIN env (msg_sender env))
              "Only admin can record usage";
  let license := lic s licenseId in
  do_ require (isActive license) "License not active";
  do_ require (block_timestamp env <? expiresAt license) "License expired";
  do count <- checked_add (usageCount license) usageAmount;
  let license := set_usageCount count license in
  if (0 <? usageLimit license) && (usageLimit license <=? usageCount license)
  then ret (store licenseId (set_isActive false license) s,
            [LicenseUsed licenseId count; LicenseExpired licenseId])
  else ret (store licenseId license s, [LicenseUsed licenseId count]).

Definition validateLicense (env : Env) (licenseId user : N)
    (requiredAccess : AccessLevel) (s : State) : bool :=
  let license := lic s licenseId in
  isActive license
  && (licensee license =? user)
  && (block_timestamp env <? expiresAt license)
  && ((usageLimit license =? 0) || (usageCount license <? usageLimit license))
  && (uint requiredAccess <=? uint (accessLevel license)).

Definition renewLicense (env : Env) (licenseId additionalDuration : N)
    (s : State) : result (State * list Event) :=
  let license := lic s licenseId in
  do owner <- registry_ownerOf env (modelId license);
  do_ require ((owner =? msg_sender env)
               || (licensee license =? msg_sender env)
               || hasRole_LICENSE_ADMIN env (msg_sender env))
              "Not authorized to renew this license";
  do_ require (0 <? additionalDuration)
              "Additional duration must be greater than 0";
  do expiry <- (if expiresAt license <=? block_timestamp env
                then checked_add (block_timestamp env) additionalDuration
                else checked_add (expiresAt license) additionalDuration);
  let license := set_expiresAt expiry license in
  let license :=
    if negb (isActive license) && (usageCount license <? usageLimit license)
    then set_isActive true license
    else license in
  ret (store licenseId license s, [LicenseRenewed licenseId expiry]).

Definition getLicensesForModel (model : N) (s : State) : list N :=
  ids_of (modelLicenses s) model.

Definition getLicensesForUser (user : N) (s : State) : list N :=
  ids_of (userLicenses s) user.

(** The loop returns at the first id that passes, so it is an [existsb]. *)
Definition hasValidLicense (env : Env) (model user : N)
    (requiredAccess : AccessLevel) (s : State) : bool :=
  existsb (fun licenseId =>
             (modelId (lic s licenseId) =? model)
             && validateLicense env licenseId user requiredAccess s)
          (ids_of (userLicenses s) user).

(** *** Transactions

    A transaction runs one function in an environment; a revert leaves
    the storage as it was. *)

Inductive Call :=
| IssueLicense (model to : N) (lt : LicenseType) (al : AccessLevel)
               (duration limit : N)
| RevokeLicense (licenseId : N)
| RecordUsage (licenseId usageAmount : N)
| RenewLicense (licenseId additionalDuration : N)
| ValidateLicense (licenseId user : N) (requiredAccess : AccessLevel)
| GetLicensesForModel (model : N)
| GetLicensesForUser (user : N)
| HasValidLicense (model user : N) (requiredAccess : AccessLevel).

Inductive Receipt :=
| Reverted (why : Failure)
| Mined (events : list Event)
| MinedId (licenseId : N) (events : list Event)
| Answer (b : bool)
| Ids (l : list N).

Definition exec (env : Env) (c : Call) (s : State) : State * Receipt :=
  match c with
  | IssueLicense model to lt al duration limit =>
      match issueLicense env model to lt al duration limit s with
      | inl e => (s, Reverted e)
      | inr (licenseId, s', evs) => (s', MinedId licenseId evs)
      end
  | RevokeLicense licenseId =>
      match revokeLicense env licenseId s with
      | inl e => (s, Reverted e)
      | inr (s', evs) => (s', Mined evs)
      end
  | RecordUsage licenseId usageAmount =>
      match recordUsage env licenseId usageAmount s with
      | inl e => (s, Reverted e)
      | inr (s', evs) => (s', Mined evs)
      end
  | RenewLicense licenseId additionalDuration =>
      match renewLicense env licenseId additionalDuration s with
      | inl e => (s, Reverted e)
      | inr (s', evs) => (s', Mined evs)
      end
  | ValidateLicense licenseId user requiredAccess =>
      (s, Answer (validateLicense env licenseId user requiredAccess s))
  | GetLicensesForModel model => (s, Ids (getLicensesForModel model s))
  | GetLicensesForUser user => (s, Ids (getLicensesForUser user s))
  | HasValidLicense model user requiredAccess =>
      (s, Answer (hasValidLicense env model user requiredAccess s))
  end.

(** The storage after a sequence of transactions, oldest first. *)
Fixpoint run (txs : list (Env * Call)) (s : State) : State :=
  match txs with
  | [] => s
  | (env, c) :: rest => run rest (fst (exec env c s))
  end.

(** A license id has been handed out by [issueLicense]. *)
Definition issued (s : State) (licenseId : N) : Prop :=
  0 < licenseId <= licenseCounter s.

(** The names the design gives to the failures of the contract. *)
Definition Unauthorized_issue : Failure :=
  Revert "Caller is not the model owner or admin".
Definition AlreadyInactive : Failure := Revert "License already inactive".
Definition NotActive : Failure := Revert "License not active".
Definition Expired : Failure := Revert "License expired".

(** *** Notions used to state the properties *)

(** A slot that grants nothing: what storage holds where no license was
    issued. *)
Definition blank (l : License) : Prop :=
  isActive l = false /\ usageLimit l = 0 /\ usageCount l = 0.

Definition unissued_blank (s : State) : Prop :=
  forall i, ~ issued s i -> blank (lic s i).

(** The caller passes the authorization check of [renewLicense]. *)
Definition may_renew (env : Env) (l : License) : Prop :=
  exists o, ownerOf env (modelId l) = Some o
            /\ (o = msg_sender env
                \/ licensee l = msg_sender env
                \/ hasRole_LICENSE_ADMIN env (msg_sender env) = true).

(** [recordUsage(licenseId, 1)] once per environment, in order; the first
    revert ends the sequence. *)
Fixpoint record_each (envs : list Env) (licenseId : N) (s : State)
  : result State :=
  match envs with
  | [] => ret s
  | env :: rest =>
      do r <- recordUsage env licenseId 1 s;
      record_each rest licenseId (fst r)
  end.

End Contract.

(** ** backend: models/License.js and routes/licenseRoutes.js *)
Module Backend.

Local Open Scope Z_scope.

(** *** The License document

    [ObjectId]s are numbers; [Date]s are milliseconds since the epoch;
    [Mixed] values are kept as their JSON text.  The paths of type Number
    ([usageLimit], [usageCount], [price]) hold whole numbers here: the
    schema also admits fractions, and a count of 2^53 or more, where
    [+= 1] is no longer exact; statements that depend on either say so. *)

Definition ObjectId := N.

Record UsageEntry := mkUsage {
  timestamp : Z;
  operation : string;
  details : string
}.

Record License := mkLicense {
  licenseId : string;
  model : ObjectId;
  licensee : ObjectId;
  issuer : ObjectId;
  licenseType : string;
  accessLevel : string;
  issuedAt : Z;
  expiresAt : Z;
  isActive : bool;
  usageLimit : Z;
  usageCount : Z;
  price : Z;
  currency : string;
  paymentTransactionHash : option string;
  termsAndConditions : option string;
  customTerms : list (string * string);
  revocationReason : option string;
  usageHistory : list UsageEntry;
  createdAt : Z;          (* schema option [timestamps: true] *)
  updatedAt : Z
}.

(** A copy of [l] with new values for the paths the methods assign. *)
Definition assign (l : License) (expiry : Z) (active : bool) (count : Z)
    (reason : option string) (history : list UsageEntry) (updated : Z)
  : License :=
  mkLicense (licenseId l) (model l) (licensee l) (issuer l) (licenseType l)
            (accessLevel l) (issuedAt l) expiry active (usageLimit l) count
            (price l) (currency l) (paymentTransactionHash l)
            (termsAndConditions l) (customTerms l) reason history
            (createdAt l) updated.

Definition set_isActive (b : bool) (l : License) : License :=
  assign l (expiresAt l) b (usageCount l) (revocationReason l)
         (usageHistory l) (updatedAt l).

Definition set_expiresAt (t : Z) (l : License) : License :=
  assign l t (isActive l) (usageCount l) (revocationReason l)
         (usageHistory l) (updatedAt l).

Definition set_usageCount (c : Z) (l : License) : License :=
  assign l (expiresAt l) (isActive l) c (revocationReason l)
         (usageHistory l) (updatedAt l).

Definition set_revocationReason (r : option string) (l : License) : License :=
  assign l (expiresAt l) (isActive l) (usageCount l) r
         (usageHistory l) (updatedAt l).

Definition set_usageHistory (h : list UsageEntry) (l : License) : License :=
  assign l (expiresAt l) (isActive l) (usageCount l) (revocationReason l)
         h (updatedAt l).

Definition set_updatedAt (t : Z) (l : License) : License :=
  assign l (expiresAt l) (isActive l) (usageCount l) (revocationReason l)
         (usageHistory l) t.

(** *** LicenseSchema.methods, on the document in memory *)

Definition isValid (now : Z) (this : License) : bool :=
  if negb (isActive this) then false
  else if expiresAt this <? now then false             (* now > expiresAt *)
  else if (0 <? usageLimit this) && (usageLimit this <=? usageCount this)
       then false
  else true.

Definition recordUsage (now : Z) (op dt : string) (this : License)
  : License :=
  let this := set_usageHistory (usageHistory this ++ [mkUsage now op dt]) this in
  let this := set_usageCount (usageCount this + 1) this in
  if (0 <? usageLimit this) && (usageLimit this <=? usageCount this)
  then set_isActive false this
  else this.

(** [new Date(ms)] is a date only for [ms] within 8.64e15 of the epoch;
    beyond, it is an Invalid Date.  For whole numbers the sum below is
    within that range in [Z] exactly when it is in double arithmetic. *)
Definition max_time : Z := 8640000000000000.

Definition valid_time (ms : Z) : bool :=
  (- max_time <=? ms) && (ms <=? max_time).

(** [renew] with its [this.save()]: [None] is the rejected promise, for
    an Invalid Date, which Mongoose does not accept for [expiresAt]. *)
Definition renew (now : Z) (duration : Z) (this : License)
  : option License :=
  let expiry :=
    if expiresAt this <? now                              (* now > expiresAt *)
    then now + duration * 1000
    else expiresAt this + duration * 1000 in
  if negb (valid_time expiry) then None
  else
    let this := set_expiresAt expiry this in
    Some (if negb (isActive this) && (usageCount this <? usageLimit this)
          then set_isActive true this
          else this).

Definition revoke (reason : string) (this : License) : License :=
  set_revocationReason (Some reason) (set_isActive false this).

(** *** The collections and the requests *)

Record ModelDoc := mkModel { owner : ObjectId }.

Record Db := mkDb {
  licenses : gmap N License;     (* by [_id] *)
  models : gmap N ModelDoc;
  users : gset N
}.

(** [req.user] as the authentication middleware leaves it. *)
Record User := mkUser { id : ObjectId; role : string }.

Inductive Reply :=
| ValidationErrors                               (* 400 { errors } *)
| Message (status : N) (message : string)       (* { message } *)
| LicenseJson (status : N) (license : License)  (* { success, license } *)
| Invalid (message : string)          (* 200 { isValid: false, message } *)
| Valid (license : License).          (* 200 { isValid: true, license } *)

(** [this.save()] of a loaded document. *)
Definition save (now : Z) (key : N) (doc : License) (db : Db) : Db :=
  mkDb (<[key := set_updatedAt now doc]> (licenses db)) (models db) (users db).

Definition licenseId_taken (lid : string) (db : Db) : bool :=
  existsb (fun kl => String.eqb (licenseId (snd kl)) lid)
          (map_to_list (licenses db)).

(** [License.findOne({ licenseId })] *)
Definition findOne_licenseId (lid : string) (db : Db) : option License :=
  snd <$> List.find (fun kl => String.eqb (licenseId (snd kl)) lid)
                    (map_to_list (licenses db)).

Definition is_admin (u : User) : bool := String.eqb (role u) "admin".

Definition licenseTypes : list string :=
  ["OpenSource"; "Research"; "Commercial"; "Enterprise"]%string.

Definition accessLevels : list string :=
  ["ReadOnly"; "InferenceOnly"; "FineTuning"; "FullAccess"]%string.

Definition currencies : list string :=
  ["ETH"; "USDC"; "DAI"; "USD"; "EUR"]%string.

Definition isIn (x : string) (l : list string) : bool :=
  existsb (String.eqb x) l.

(** [Array.prototype.indexOf]: the first position of [x], or -1. *)
Fixpoint indexOf_from (i : Z) (x : string) (l : list string) : Z :=
  match l with
  | [] => -1
  | y :: rest => if String.eqb y x then i else indexOf_from (i + 1) x rest
  end.

Definition indexOf (x : string) (l : list string) : Z := indexOf_from 0 x l.

(** Body of POST /api/licenses; an absent or empty field is [None]. *)
Record IssueBody := mkIssueBody {
  b_modelId : option ObjectId;
  b_licenseeId : option ObjectId;
  b_licenseType : string;
  b_accessLevel : string;
  b_expiresAt : option Z;         (* [None]: not an ISO 8601 date *)
  b_usageLimit : option Z;
  b_price : option Z;
  b_currency : option string;
  b_termsAndConditions : option string;
  b_customTerms : list (string * string)
}.

(** [x || 0] on a number that may be absent. *)
Definition or_zero (x : option Z) : Z :=
  match x with
  | Some v => v
  | None => 0
  end.

(** *** Route handlers

    [now] is the clock of the request, [fresh] the [_id] Mongoose gives to
    a new document and [lid] the generated [licenseId]. *)

(** POST /api/licenses *)
Definition post_license (now : Z) (fresh : N) (lid : string)
    (user : option User) (body : IssueBody) (db : Db) : Db * Reply :=
  match user with
  | None => (db, Message 401 "Authentication required")
  | Some u =>
    match b_modelId body, b_licenseeId body, b_expiresAt body with
    | Some modelId, Some licenseeId, Some expiry =>
      if negb (isIn (b_licenseType body) licenseTypes
               && isIn (b_accessLevel body) accessLevels)
      then (db, ValidationErrors)
      else
        match models db !! modelId with
        | None => (db, Message 404 "Model not found")
        | Some m =>
          if negb (owner m =? id u)%N && negb (is_admin u)
          then (db, Message 403 "Not authorized to issue license for this model")
          else if negb (bool_decide (licenseeId ∈ users db))
          then (db, Message 404 "Licensee not found")
          else
            let license :=
              mkLicense lid modelId licenseeId (id u) (b_licenseType body)
                        (b_accessLevel body) now expiry true
                        (or_zero (b_usageLimit body)) 0
                        (or_zero (b_price body))
                        (default "ETH"%string (b_currency body))
                        None (b_termsAndConditions body) (b_customTerms body)
                        None [] now now in
            (* [license.save()]: the enum of [currency], then the unique
               indexes of MongoDB on _id and licenseId; a rejection is
               caught and answered 500 *)
            if negb (isIn (currency license) currencies)
            then (db, Message 500 "Server error")
            else
              match licenses db !! fresh with
              | Some _ => (db, Message 500 "Server error")
              | None =>
                if licenseId_taken lid db
                then (db, Message 500 "Server error")
                else (mkDb (<[fresh := license]> (licenses db))
                           (models db) (users db),
                      LicenseJson 201 license)
              end
        end
    | _, _, _ => (db, ValidationErrors)
    end
  end.

(** PUT /api/licenses/:id/revoke *)
Definition put_revoke (now : Z) (user : option User) (key : N)
    (reason : string) (db : Db) : Db * Reply :=
  match user with
  | None => (db, Message 401 "Authentication required")
  | Some u =>
    if String.eqb reason "" then (db, ValidationErrors)
    else
      match licenses db !! key with
      | None => (db, Message 404 "License not found")
      | Some license =>
        match models db !! model license with
        | None => (db, Message 404 "Model not found")
        | Some m =>
          if negb (is_admin u) && negb (issuer license =? id u)%N
             && negb (owner m =? id u)%N
          then (db, Message 403 "Not authorized to revoke this license")
          else
            let license := revoke reason license in
            (save now key license db,
             LicenseJson 200 (set_updatedAt now license))
        end
      end
  end.

(** PUT /api/licenses/:id/renew *)
Definition put_renew (now : Z) (user : option User) (key : N)
    (duration : Z) (db : Db) : Db * Reply :=
  match user with
  | None => (db, Message 401 "Authentication required")
  | Some u =>
    if negb (1 <=? duration) then (db, ValidationErrors)
    else
      match licenses db !! key with
      | None => (db, Message 404 "License not found")
      | Some license =>
        match models db !! model license with
        | None => (db, Message 404 "Model not found")
        | Some m =>
          if negb (is_admin u) && negb (licensee license =? id u)%N
             && negb (issuer license =? id u)%N && negb (owner m =? id u)%N
          then (db, Message 403 "Not authorized to renew this license")
          else
            match renew now duration license with
            | None => (db, Message 500 "Server error")
            | Some license =>
                (save now key license db,
                 LicenseJson 200 (set_updatedAt now license))
            end
        end
      end
  end.

(** PUT /api/licenses/:id/usage *)
Definition put_usage (now : Z) (user : option User) (key : N)
    (op dt : string) (db : Db) : Db * Reply :=
  match user with
  | None => (db, Message 401 "Authentication required")
  | Some u =>
    if String.eqb op "" then (db, ValidationErrors)
    else
      match licenses db !! key with
      | None => (db, Message 404 "License not found")
      | Some license =>
        if negb (is_admin u) && negb (licensee license =? id u)%N
        then (db, Message 403 "Not authorized to record usage for this license")
        else if negb (isValid now license)
        then (db, Message 400 "License is not valid")
        else
          let license := recordUsage now op dt license in
          (save now key license db,
           LicenseJson 200 (set_updatedAt now license))
      end
  end.

(** GET /api/licenses/validate/:licenseId?accessLevel=... *)
Definition get_validate (now : Z) (user : option User) (lid : string)
    (required : string) (db : Db) : Db * Reply :=
  match user with
  | None => (db, Message 401 "Authentication required")
  | Some u =>
    if negb (isIn required accessLevels) then (db, ValidationErrors)
    else
      match findOne_licenseId lid db with
      | None => (db, Invalid "License not found")
      | Some license =>
        if negb (isValid now license)
        then (db, Invalid "License is not valid")
        else if negb (licensee license =? id u)%N
        then (db, Invalid "User is not the licensee")
        else if indexOf (accessLevel license) accessLevels
                <? indexOf required accessLevels
        then (db, Invalid "Insufficient access level")
        else (db, Valid license)
      end
  end.

(** *** Requests in sequence *)

Inductive Request :=
| PostLicense (fresh : N) (lid : string) (body : IssueBody)
| PutRevoke (key : N) (reason : string)
| PutRenew (key : N) (duration : Z)
| PutUsage (key : N) (op dt : string)
| GetValidate (lid : string) (required : string).

Definition handle (now : Z) (user : option User) (r : Request) (db : Db)
  : Db * Reply :=
  match r with
  | PostLicense fresh lid body => post_license now fresh lid user body db
  | PutRevoke key reason => put_revoke now user key reason db
  | PutRenew key duration => put_renew now user key duration db
  | PutUsage key op dt => put_usage now user key op dt db
  | GetValidate lid required => get_validate now user lid required db
  end.

Fixpoint serve (reqs : list (Z * option User * Request)) (db : Db) : Db :=
  match reqs with
  | [] => db
  | (now, user, r) :: rest => serve rest (fst (handle now user r db))
  end.

(** [usageCount] of the document stored under [key]; a document that is
    not there yet has recorded no usage. *)
Definition usage (db : Db) (key : N) : Z :=
  from_option usageCount 0 (licenses db !! key).

(** *** Notions used to state the properties *)

(** The caller passes the authorization check of the usage route. *)
Definition may_record (u : User) (l : License) : Prop :=
  role u = "admin"%string \/ licensee l = id u.

(** ... of the renew route and of the revoke route. *)
Definition may_renew (u : User) (l : License) (m : ModelDoc) : Prop :=
  role u = "admin"%string \/ licensee l = id u \/ issuer l = id u
  \/ owner m = id u.

Definition may_revoke (u : User) (l : License) (m : ModelDoc) : Prop :=
  role u = "admin"%string \/ issuer l = id u \/ owner m = id u.

(** The validators of POST /api/licenses accept the body. *)
Definition valid_issue_body (body : IssueBody) : bool :=
  bool_decide (is_Some (b_modelId body))
  && bool_decide (is_Some (b_licenseeId body))
  && bool_decide (is_Some (b_expiresAt body))
  && isIn (b_licenseType body) licenseTypes
  && isIn (b_accessLevel body) accessLevels.

Definition succeeded (r : Reply) : bool :=
  match r with
  | LicenseJson _ _ => true
  | _ => false
  end.

(** PUT /:id/usage once per (clock, caller), in order; the first reply
    that is not a success ends the sequence. *)
Fixpoint usage_each (calls : list (Z * User)) (key : N) (op dt : string)
    (db : Db) : option Db :=
  match calls with
  | [] => Some db
  | (now, u) :: rest =>
      let r := put_usage now (Some u) key op dt db in
      if succeeded (snd r) then usage_each rest key op dt (fst r) else None
  end.

End Backend.

(** ** Concrete data for the examples *)
Module Samples.

(** Account 7 owns every model, account 9 is the license admin, account 5
    is a licensee and account 8 is a stranger. *)
Definition env (sender time : N) : Contract.Env :=
  Contract.mkEnv sender time (fun _ => Some 7%N) (fun a => (a =? 9)%N).

(** One license on model 1 for account 5: issued at time 100 for 3600
    seconds with a limit of five uses. *)
Definition s1 : Contract.State :=
  fst (Contract.exec (env 7 100)
         (Contract.IssueLicense 1 5 Contract.Commercial Contract.InferenceOnly
                                3600 5)
         Contract.initState).

Definition alice : Backend.User := Backend.mkUser 5%N "user".
Definition bob : Backend.User := Backend.mkUser 7%N "user".
Definition mallory : Backend.User := Backend.mkUser 8%N "user".
Definition root : Backend.User := Backend.mkUser 9%N "admin".

(** The same license as a document: it expires at clock 1000. *)
Definition license1 : Backend.License :=
  Backend.mkLicense "LIC-1" 1%N 5%N 7%N "Commercial" "InferenceOnly"
                    0%Z 1000%Z true 5%Z 0%Z 0%Z "ETH" None None [] None []
                    0%Z 0%Z.

Definition db1 : Backend.Db :=
  Backend.mkDb {[ 11%N := license1 ]} {[ 1%N := Backend.mkModel 7%N ]}
               {[ 5%N; 7%N; 8%N; 9%N ]}.

Definition body1 : Backend.IssueBody :=
  Backend.mkIssueBody (Some 1%N) (Some 5%N) "Commercial" "InferenceOnly"
                      (Some 1000%Z) (Some 5%Z) None None None [].

End Samples.

(** ** LicenseManager.sol: what every reachable storage satisfies *)
Module ContractInv.
Import Contract.
Local Open Scope N_scope.

(** The two indexes list exactly the issued licenses, each once. *)
Definition indexes_agree (s : State) : Prop :=
  (forall u i, i ∈ getLicensesForUser u s
               <-> issued s i /\ licensee (lic s i) = u)
  /\ (forall m i, i ∈ getLicensesForModel m s
                  <-> issued s i /\ modelId (lic s i) = m)
  /\ (forall u, NoDup (getLicensesForUser u s))
  /\ (forall m, NoDup (getLicensesForModel m s)).

(** Usage to spare: no limit, or a count below it. *)
Definition quota (l : License) : Prop :=
  usageLimit l = 0 \/ usageCount l < usageLimit l.

(** An active license has usage to spare. *)
Definition quota_ok (s : State) : Prop :=
  forall i, isActive (lic s i) = true -> quota (lic s i).

(** An issued license expires after it was issued. *)
Definition well_timed (s : State) : Prop :=
  forall i, issued s i -> issuedAt (lic s i) < expiresAt (lic s i).

(** The fields no function assigns after issuance. *)
Definition terms (l : License) : N * N * LicenseType * AccessLevel * N * N :=
  (modelId l, licensee l, licenseType l, accessLevel l, issuedAt l,
   usageLimit l).

(** The caller holds the right the function asks for. *)
Definition authorized (env : Env) (c : Call) (s : State) : Prop :=
  let admin := hasRole_LICENSE_ADMIN env (msg_sender env) = true in
  match c with
  | IssueLicense model _ _ _ _ _ =>
      exists o, ownerOf env model = Some o /\ (o = msg_sender env \/ admin)
  | RevokeLicense licenseId =>
      exists o, ownerOf env (modelId (lic s licenseId)) = Some o
                /\ (o = msg_sender env \/ admin)
  | RecordUsage _ _ => admin
  | RenewLicense licenseId _ => may_renew env (lic s licenseId)
  | _ => False
  end.

Definition sound (s : State) : Prop :=
  unissued_blank s /\ indexes_agree s /\ quota_ok s /\ well_timed s.

End ContractInv.

(** ** LicenseManager.sol, second contract: PaymentProcessor *)
Module PaymentProcessor.

Local Open Scope N_scope.

Inductive Failure :=
| Revert (reason : string)   (* a failed [require] *)
| Panic (code : N)           (* 0x11 arithmetic, 0x32 array index *)
| RegistryRevert.            (* the call into ModelRegistry reverted *)

Definition result (A : Type) : Type := Failure + A.

Definition ret {A} (a : A) : result A := inr a.

Definition bind {A B} (m : result A) (k : A -> result B) : result B :=
  match m with
  | inl e => inl e
  | inr a => k a
  end.

Notation "'do' x <- m ; k" := (bind m (fun x => k))
  (at level 10, x name, m at level 100, k at level 200).
Notation "'do_' m ; k" := (bind m (fun _ => k))
  (at level 10, m at level 100, k at level 200).

Definition require (cond : bool) (reason : string) : result unit :=
  if cond then inr tt else inl (Revert reason).

Definition uint256_limit : N := 2 ^ 256.

Definition checked_add (a b : N) : result N :=
  if a + b <? uint256_limit then inr (a + b) else inl (Panic 17).

Definition checked_mul (a b : N) : result N :=
  if a * b <? uint256_limit then inr (a * b) else inl (Panic 17).

Definition checked_sub (a b : N) : result N :=
  if b <=? a then inr (a - b) else inl (Panic 17).

(** [a[i]] on a dynamic array. *)
Definition at_index {A} (a : list A) (i : nat) : result A :=
  match a !! i with
  | Some x => inr x
  | None => inl (Panic 50)
  end.

(** *** Data *)

Record PaymentSplit := mkSplit {
  recipients : list N;
  shares : list N;          (* percentage points *)
  isConfigured : bool
}.

Definition noSplit : PaymentSplit := mkSplit [] [] false.

Record Payment := mkPayment {
  modelId : N;
  payer : N;
  amount : N;
  tokenAddress : N;         (* 0 for ETH *)
  timestamp : N;
  isProcessed : bool
}.

Definition set_isProcessed (b : bool) (p : Payment) : Payment :=
  mkPayment (modelId p) (payer p) (amount p) (tokenAddress p) (timestamp p) b.

Inductive Event :=
| PaymentReceived (paymentId modelId payer amount : N)
| PaymentDistributed (paymentId modelId amount : N)
| PaymentSplitUpdated (modelId : N)
| PlatformFeeUpdated (newFeePercentage : N)
| PlatformFeeRecipientUpdated (newRecipient : N)
| TokenPaymentReceived (paymentId modelId payer amount tokenAddress : N).

(** Value that leaves the contract: ether ([token] = 0) or tokens. *)
Record Transfer := mkTransfer { token : N; to : N; value : N }.

Record State := mkState {
  paymentSplits : gmap N PaymentSplit;
  payments : list Payment;
  modelPayments : gmap N (list N);
  userPayments : gmap N (list N);
  platformFeePercentage : N;    (* basis points *)
  platformFeeRecipient : N
}.

(** What a transaction sees outside the contract's storage.  [call_ok]
    tells whether a plain ether call to an address with a value succeeds,
    [token_transfer] and [token_transferFrom] what the ERC-20 answers (a
    revert of the token is a [false] here); a callee is taken not to call
    back into the contract. *)
Record Env := mkEnv {
  msg_sender : N;
  msg_value : N;
  block_timestamp : N;
  this_balance : N;
  ownerOf : N -> option N;
  hasRole_PAYMENT_ADMIN : N -> bool;
  hasRole_DEFAULT_ADMIN : N -> bool;
  call_ok : N -> N -> bool;
  token_transfer : N -> N -> N -> bool;
  token_transferFrom : N -> N -> N -> bool
}.

Definition split_of (s : State) (model : N) : PaymentSplit :=
  default noSplit (paymentSplits s !! model).

Definition ids_of (m : gmap N (list N)) (k : N) : list N :=
  default [] (m !! k).

Definition registry_ownerOf (env : Env) (model : N) : result N :=
  match ownerOf env model with
  | Some o => inr o
  | None => inl RegistryRevert
  end.

(** *** Functions of the contract *)

Definition constructor (env : Env) (modelRegistryAddress licenseManagerAddress
    feePercentage feeRecipient : N) : result State :=
  do_ require (negb (modelRegistryAddress =? 0)) "Invalid ModelRegistry address";
  do_ require (negb (licenseManagerAddress =? 0))
              "Invalid LicenseManager address";
  do_ require (feePercentage <=? 3000) "Platform fee cannot exceed 30%";
  do_ require (negb (feeRecipient =? 0)) "Invalid platform fee recipient";
  ret (mkState ∅ [] ∅ ∅ feePercentage feeRecipient).

(** The loop of [setPaymentSplit], over [recipients[i]] and [shares[i]]
    for i below [shares.length]. *)
Fixpoint sum_shares (rs ss : list N) (total : N) : result N :=
  match ss with
  | [] => ret total
  | share :: ss' =>
      match rs with
      | [] => inl (Panic 50)
      | r :: rs' =>
          do_ require (negb (r =? 0)) "Invalid recipient address";
          do total <- checked_add total share;
          sum_shares rs' ss' total
      end
  end.

Definition setPaymentSplit (env : Env) (model : N) (rs ss : list N)
    (s : State) : result (State * list Event) :=
  do owner <- registry_ownerOf env model;
  do_ require ((owner =? msg_sender env)
               || hasRole_PAYMENT_ADMIN env (msg_sender env))
              "Not authorized to set payment split";
  do_ require (bool_decide (length rs = length ss))
              "Recipients and shares length mismatch";
  do_ require (bool_decide (0 < length rs)%nat)
              "At least one recipient required";
  do totalShares <- sum_shares rs ss 0;
  do_ require (totalShares =? 100) "Total shares must equal 100";
  ret (mkState (<[model := mkSplit rs ss true]> (paymentSplits s))
               (payments s) (modelPayments s) (userPayments s)
               (platformFeePercentage s) (platformFeeRecipient s),
       [PaymentSplitUpdated model]).

(** One transfer out of the contract; [false] fails the [require]. *)
Definition send (env : Env) (tok recipient x : N) (reason : string)
  : result Transfer :=
  do_ require (if tok =? 0 then call_ok env recipient x
               else token_transfer env tok recipient x) reason;
  ret (mkTransfer tok recipient x).

(** The loop of [_distributeEthPayment] and [_distributeTokenPayment],
    over [recipients[i]] and [shares[i]] for i below [recipients.length]. *)
Fixpoint pay_recipients (env : Env) (tok remainingAmount : N)
    (rs ss : list N) : result (list Transfer) :=
  match rs with
  | [] => ret []
  | r :: rs' =>
      match ss with
      | [] => inl (Panic 50)
      | share :: ss' =>
          do product <- checked_mul remainingAmount share;
          let recipientAmount := product / 100 in
          if 0 <? recipientAmount
          then
            do t <- send env tok r recipientAmount "Payment distribution failed";
            do rest <- pay_recipients env tok remainingAmount rs' ss';
            ret (t :: rest)
          else pay_recipients env tok remainingAmount rs' ss'
      end
  end.

Definition set_payment (i : nat) (p : Payment) (s : State) : State :=
  mkState (paymentSplits s) (<[i := p]> (payments s)) (modelPayments s)
          (userPayments s) (platformFeePercentage s) (platformFeeRecipient s).

(** [_distributeEthPayment] ([tok] = 0) and [_distributeTokenPayment]
    ([tok] = [payment.tokenAddress]).  The split is read once: the contract
    reads it again after each transfer, with the same result as long as no
    callee calls back into the contract ([setPaymentSplit] is not
    [nonReentrant]); the answers of the callees are those of [env]. *)
Definition distribute (env : Env) (tok : N) (paymentId : N) (s : State)
  : result (State * list Transfer * list Event) :=
  do payment <- at_index (payments s) (N.to_nat paymentId);
  do_ require (negb (isProcessed payment)) "Payment already processed";
  let split := split_of s (modelId payment) in
  do_ require (isConfigured split) "No payment split configured";
  do product <- checked_mul (amount payment) (platformFeePercentage s);
  let platformFee := product / 10000 in
  do remainingAmount <- checked_sub (amount payment) platformFee;
  do fee <- (if 0 <? platformFee
             then do t <- send env tok (platformFeeRecipient s) platformFee
                               "Platform fee transfer failed";
                  ret [t]
             else ret []);
  do paid <- pay_recipients env tok remainingAmount (recipients split)
                            (shares split);
  ret (set_payment (N.to_nat paymentId) (set_isProcessed true payment) s,
       fee ++ paid,
       [PaymentDistributed paymentId (modelId payment) (amount payment)]).

Definition push_payment (p : Payment) (s : State) : State :=
  let paymentId := N.of_nat (length (payments s)) in
  mkState (paymentSplits s) (payments s ++ [p])
          (<[modelId p := ids_of (modelPayments s) (modelId p) ++ [paymentId]]>
             (modelPayments s))
          (<[payer p := ids_of (userPayments s) (payer p) ++ [paymentId]]>
             (userPayments s))
          (platformFeePercentage s) (platformFeeRecipient s).

Definition processPayment (env : Env) (model : N) (s : State)
  : result (State * list Transfer * list Event) :=
  do_ require (0 <? msg_value env) "Payment amount must be greater than 0";
  let paymentId := N.of_nat (length (payments s)) in
  let p := mkPayment model (msg_sender env) (msg_value env) 0
                     (block_timestamp env) false in
  let s := push_payment p s in
  let ev := PaymentReceived paymentId model (msg_sender env) (msg_value env) in
  if isConfigured (split_of s model)
  then do r <- distribute env 0 paymentId s;
       ret (fst (fst r), snd (fst r), ev :: snd r)
  else ret (s, [], [ev]).

Definition processTokenPayment (env : Env) (model tok x : N) (s : State)
  : result (State * list Transfer * list Event) :=
  do_ require (0 <? x) "Payment amount must be greater than 0";
  do_ require (negb (tok =? 0)) "Invalid token address";
  do_ require (token_transferFrom env tok (msg_sender env) x)
              "Token transfer failed";
  let paymentId := N.of_nat (length (payments s)) in
  let p := mkPayment model (msg_sender env) x tok (block_timestamp env) false in
  let s := push_payment p s in
  let ev := TokenPaymentReceived paymentId model (msg_sender env) x tok in
  if isConfigured (split_of s model)
  then do r <- distribute env tok paymentId s;
       ret (fst (fst r), snd (fst r), ev :: snd r)
  else ret (s, [], [ev]).

Definition distributePayment (env : Env) (paymentId : N) (s : State)
  : result (State * list Transfer * list Event) :=
  do_ require (hasRole_PAYMENT_ADMIN env (msg_sender env))
              "Only admin can manually distribute payments";
  do payment <- at_index (payments s) (N.to_nat paymentId);
  do_ require (negb (isProcessed payment)) "Payment already processed";
  distribute env (tokenAddress payment) paymentId s.

Definition set_fee (pct recipient : N) (s : State) : State :=
  mkState (paymentSplits s) (payments s) (modelPayments s) (userPayments s)
          pct recipient.

(** The string OpenZeppelin's [onlyRole] reverts with is abbreviated. *)
Definition onlyRole_DEFAULT_ADMIN (env : Env) : result unit :=
  require (hasRole_DEFAULT_ADMIN env (msg_sender env))
          "AccessControl: account is missing role".

Definition updatePlatformFee (env : Env) (newFeePercentage : N) (s : State)
  : result (State * list Event) :=
  do_ onlyRole_DEFAULT_ADMIN env;
  do_ require (newFeePercentage <=? 3000) "Platform fee cannot exceed 30%";
  ret (set_fee newFeePercentage (platformFeeRecipient s) s,
       [PlatformFeeUpdated newFeePercentage]).

Definition updatePlatformFeeRecipient (env : Env) (newRecipient : N)
    (s : State) : result (State * list Event) :=
  do_ onlyRole_DEFAULT_ADMIN env;
  do_ require (negb (newRecipient =? 0)) "Invalid platform fee recipient";
  ret (set_fee (platformFeePercentage s) newRecipient s,
       [PlatformFeeRecipientUpdated newRecipient]).

Definition getPaymentSplit (model : N) (s : State) : list N * list N :=
  (recipients (split_of s model), shares (split_of s model)).

Definition getPaymentsForModel (model : N) (s : State) : list N :=
  ids_of (modelPayments s) model.

Definition getPaymentsByUser (user : N) (s : State) : list N :=
  ids_of (userPayments s) user.

Definition getPaymentDetails (paymentId : N) (s : State) : result Payment :=
  do_ require (paymentId <? N.of_nat (length (payments s)))
              "Invalid payment ID";
  at_index (payments s) (N.to_nat paymentId).

Definition emergencyWithdraw (env : Env) (x recipient : N) (s : State)
  : result (State * list Transfer) :=
  do_ onlyRole_DEFAULT_ADMIN env;
  do_ require (negb (recipient =? 0)) "Invalid recipient";
  do_ require (x <=? this_balance env) "Insufficient balance";
  do_ require (call_ok env recipient x) "Transfer failed";
  ret (s, [mkTransfer 0 recipient x]).

Definition emergencyTokenWithdraw (env : Env) (tok x recipient : N)
    (s : State) : result (State * list Transfer) :=
  do_ onlyRole_DEFAULT_ADMIN env;
  do_ require (negb (recipient =? 0)) "Invalid recipient";
  do_ require (negb (tok =? 0)) "Invalid token address";
  do_ require (token_transfer env tok recipient x) "Token transfer failed";
  ret (s, [mkTransfer tok recipient x]).

(** *** Transactions *)

Inductive Call :=
| SetPaymentSplit (model : N) (rs ss : list N)
| ProcessPayment (model : N)
| ProcessTokenPayment (model tok x : N)
| DistributePayment (paymentId : N)
| UpdatePlatformFee (newFeePercentage : N)
| UpdatePlatformFeeRecipient (newRecipient : N)
| EmergencyWithdraw (x recipient : N)
| EmergencyTokenWithdraw (tok x recipient : N).

(** The storage and the transfers of one transaction; a revert leaves the
    storage as it was and transfers nothing. *)
Definition exec (env : Env) (c : Call) (s : State) : State * list Transfer :=
  match c with
  | SetPaymentSplit model rs ss =>
      match setPaymentSplit env model rs ss s with
      | inl _ => (s, [])
      | inr (s', _) => (s', [])
      end
  | ProcessPayment model =>
      match processPayment env model s with
      | inl _ => (s, [])
      | inr (s', ts, _) => (s', ts)
      end
  | ProcessTokenPayment model tok x =>
      match processTokenPayment env model tok x s with
      | inl _ => (s, [])
      | inr (s', ts, _) => (s', ts)
      end
  | DistributePayment paymentId =>
      match distributePayment env paymentId s with
      | inl _ => (s, [])
      | inr (s', ts, _) => (s', ts)
      end
  | UpdatePlatformFee pct =>
      match updatePlatformFee env pct s with
      | inl _ => (s, [])
      | inr (s', _) => (s', [])
      end
  | UpdatePlatformFeeRecipient r =>
      match updatePlatformFeeRecipient env r s with
      | inl _ => (s, [])
      | inr (s', _) => (s', [])
      end
  | EmergencyWithdraw x r =>
      match emergencyWithdraw env x r s with
      | inl _ => (s, [])
      | inr (s', ts) => (s', ts)
      end
  | EmergencyTokenWithdraw tok x r =>
      match emergencyTokenWithdraw env tok x r s with
      | inl _ => (s, [])
      | inr (s', ts) => (s', ts)
      end
  end.

Fixpoint run (txs : list (Env * Call)) (s : State) : State :=
  match txs with
  | [] => s
  | (env, c) :: rest => run rest (fst (exec env c s))
  end.

(** *** Notions used to state the properties *)

Definition sum_list (l : list N) : N := foldr N.add 0 l.

Definition total (ts : list Transfer) : N := sum_list (value <$> ts).

(** A split as [setPaymentSplit] accepts it. *)
Definition valid_split (sp : PaymentSplit) : Prop :=
  length (recipients sp) = length (shares sp)
  /\ (0 < length (recipients sp))%nat
  /\ Forall (fun r => r <> 0) (recipients sp)
  /\ sum_list (shares sp) = 100.

(** What a transaction can do to the array of payments. *)
Definition marks (base after : list Payment) : Prop :=
  after = base
  \/ exists i p, base !! i = Some p /\ isProcessed p = false
                 /\ after = <[i := set_isProcessed true p]> base.

(** The fields of a payment that no function assigns. *)
Definition receipt (p : Payment) : N * N * N * N * N :=
  (modelId p, payer p, amount p, tokenAddress p, timestamp p).

Definition sound (s : State) : Prop :=
  platformFeePercentage s <= 3000
  /\ platformFeeRecipient s <> 0
  /\ (forall model sp, paymentSplits s !! model = Some sp ->
                       isConfigured sp = true /\ valid_split sp).

End PaymentProcessor.

(** ** backend: the update route and the GraphQL validation resolver *)
Module Routes.
Import Backend.
Local Open Scope Z_scope.

(** Body of PUT /api/licenses/:id.  [None] is a field the handler skips:
    absent, or falsy where the handler tests truthiness. *)
Record UpdateBody := mkUpdateBody {
  u_expiresAt : option Z;
  u_isActive : option bool;
  u_usageLimit : option Z;
  u_termsAndConditions : option string;
  u_customTerms : option (list (string * string))
}.

(** [{ $set: licenseFields }] on a document, with the [updatedAt] stamp. *)
Definition apply_update (now : Z) (body : UpdateBody) (l : License)
  : License :=
  mkLicense (licenseId l) (model l) (licensee l) (issuer l) (licenseType l)
            (accessLevel l) (issuedAt l)
            (default (expiresAt l) (u_expiresAt body))
            (default (isActive l) (u_isActive body))
            (default (usageLimit l) (u_usageLimit body))
            (usageCount l) (price l) (currency l) (paymentTransactionHash l)
            (match u_termsAndConditions body with
             | Some t => Some t
             | None => termsAndConditions l
             end)
            (default (customTerms l) (u_customTerms body))
            (revocationReason l) (usageHistory l) (createdAt l) now.

(** PUT /api/licenses/:id *)
Definition put_update (now : Z) (user : option User) (key : N)
    (body : UpdateBody) (db : Db) : Db * Reply :=
  match user with
  | None => (db, Message 401 "Authentication required")
  | Some u =>
    match licenses db !! key with
    | None => (db, Message 404 "License not found")
    | Some license =>
      match models db !! model license with
      | None => (db, Message 404 "Model not found")
      | Some m =>
        if negb (is_admin u) && negb (issuer license =? id u)%N
           && negb (owner m =? id u)%N
        then (db, Message 403 "Not authorized to update this license")
        else
          let updated := apply_update now body license in
          (mkDb (<[key := updated]> (licenses db)) (models db) (users db),
           LicenseJson 200 updated)
      end
    end
  end.

(** GraphQL query [validateLicense(licenseId, accessLevel)]; [None] is the
    AuthenticationError that [checkAuth] throws. *)
Definition resolve_validateLicense (now : Z) (user : option User)
    (lid required : string) (db : Db) : option bool :=
  match user with
  | None => None
  | Some u =>
    match findOne_licenseId lid db with
    | None => Some false
    | Some license =>
      if negb (isValid now license) then Some false
      else if negb (licensee license =? id u)%N then Some false
      else if indexOf (accessLevel license) accessLevels
              <? indexOf required accessLevels
      then Some false
      else Some true
    end
  end.

(** The requests of [Backend.Request] and the update route, in sequence. *)
Inductive Request :=
| Core (r : Backend.Request)
| PutUpdate (key : N) (body : UpdateBody).

Definition handle (now : Z) (user : option User) (r : Request) (db : Db)
  : Db * Reply :=
  match r with
  | Core r => Backend.handle now user r db
  | PutUpdate key body => put_update now user key body db
  end.

Fixpoint serve (reqs : list (Z * option User * Request)) (db : Db) : Db :=
  match reqs with
  | [] => db
  | (now, user, r) :: rest => serve rest (fst (handle now user r db))
  end.

(** *** Notions used to state the properties *)

(** The paths of a license that no handler assigns. *)
Definition identity (l : License)
  : string * ObjectId * ObjectId * ObjectId * string * string * Z * Z :=
  (licenseId l, model l, licensee l, issuer l, licenseType l, accessLevel l,
   issuedAt l, createdAt l).

(** The caller is related to the license: admin, licensee, issuer, or
    owner of its model. *)
Definition related (u : User) (l : License) (db : Db) : Prop :=
  role u = "admin"%string \/ licensee l = id u \/ issuer l = id u
  \/ exists m, models db !! model l = Some m /\ owner m = id u.

(** No two documents share a [licenseId] (the unique index). *)
Definition licenseIds_unique (db : Db) : Prop :=
  forall k1 k2 l1 l2,
    licenses db !! k1 = Some l1 -> licenses db !! k2 = Some l2 ->
    licenseId l1 = licenseId l2 -> k1 = k2.

(** The validate route answered [isValid: true]. *)
Definition says_valid (r : Reply) : bool :=
  match r with
  | Valid _ => true
  | _ => false
  end.

(** How a request leaves one stored document: same identity, history
    extended, the count moving with the history. *)
Definition evolves (l l' : License) : Prop :=
  identity l' = identity l
  /\ usageHistory l `prefix_of` usageHistory l'
  /\ usageCount l' - usageCount l
     = Z.of_nat (length (usageHistory l')) - Z.of_nat (length (usageHistory l)).

(** A capped license has recorded no more uses than its cap allows. *)
Definition within_cap (l : License) : Prop :=
  0 < usageLimit l -> usageCount l <= usageLimit l.

(** 2^53: up to here, in absolute value, adding 1 to a whole JavaScript
    number is exact. *)
Definition exact_limit : Z := 9007199254740992.

(** The request leaves every [usageLimit] as it is: any request but an
    update that carries a [usageLimit]. *)
Definition keeps_limit (r : Request) : Prop :=
  match r with
  | Core _ => True
  | PutUpdate _ body => u_usageLimit body = None
  end.

End Routes.



(** ** Concrete data for the further examples *)
Module MoreSamples.

(** Account 7 owns every model, account 9 holds both admin roles, every
    transfer succeeds. *)
Definition penv (sender value : N) : PaymentProcessor.Env :=
  PaymentProcessor.mkEnv sender value 1000 0 (fun _ => Some 7%N)
                         (fun a => (a =? 9)%N) (fun a => (a =? 9)%N)
                         (fun _ _ => true) (fun _ _ _ => true)
                         (fun _ _ _ => true).

(** Deployed with a fee of 2.5 percent paid to account 99. *)
Definition p0 : PaymentProcessor.State :=
  PaymentProcessor.mkState ∅ [] ∅ ∅ 250 99.

(** Model 1 pays accounts 20 and 21 in shares of 70 and 30. *)
Definition p1 : PaymentProcessor.State :=
  fst (PaymentProcessor.exec (penv 7 0)
         (PaymentProcessor.SetPaymentSplit 1 [20; 21]%N [70; 30]%N) p0).

(** A payment of 1001 wei for model 1 by account 5. *)
Definition p2 : PaymentProcessor.State :=
  fst (PaymentProcessor.exec (penv 5 1001)
         (PaymentProcessor.ProcessPayment 1) p1).

End MoreSamples.

(** ** Facts about the contract *)
Module ContractFacts.
Import Contract.
Local Open Scope N_scope.

Lemma lic_store_eq s i l : lic (store i l s) i = l.
Proof. unfold lic, store; cbn [licenses]. by rewrite lookup_insert_eq. Qed.

Lemma lic_store_ne s i j l : i ≠ j -> lic (store i l s) j = lic s j.
Proof.
  intros Hne. unfold lic, store; cbn [licenses]. by rewrite lookup_insert_ne.
Qed.

Lemma licenseCounter_store s i l : licenseCounter (store i l s) = licenseCounter s.
Proof. reflexivity. Qed.

(** Reading the monadic code of a call that is known to have returned. *)

Lemma bind_inr {A B} (m : result A) (k : A -> result B) b :
  bind m k = inr b -> exists a, m = inr a /\ k a = inr b.
Proof. destruct m as [e|a]; simpl; [done|]. eauto. Qed.

Lemma require_inr cond reason u : require cond reason = inr u -> cond = true.
Proof. by destruct cond. Qed.

Lemma checked_add_inr a b n :
  checked_add a b = inr n -> n = a + b /\ a + b < uint256_limit.
Proof.
  unfold checked_add. destruct (a + b <? uint256_limit) eqn:Hlt; [|done].
  apply N.ltb_lt in Hlt. intros [= <-]. done.
Qed.

Lemma checked_add_fits a b :
  a + b < uint256_limit -> checked_add a b = inr (a + b).
Proof. intros H. apply N.ltb_lt in H. unfold checked_add. by rewrite H. Qed.

Lemma registry_ownerOf_inr env model o :
  registry_ownerOf env model = inr o -> ownerOf env model = Some o.
Proof. unfold registry_ownerOf. destruct (ownerOf env model); naive_solver. Qed.

Ltac inv_atom H :=
  first [ apply require_inr in H
        | apply checked_add_inr in H as [-> H]
        | apply registry_ownerOf_inr in H
        | idtac ].

Ltac inv_code H :=
  cbv zeta in H;
  lazymatch type of H with
  | bind ?m ?k = inr _ =>
      let a := fresh "x" in
      let Hm := fresh "Hm" in
      apply bind_inr in H as (a & Hm & H);
      inv_atom Hm; cbv beta in H; inv_code H
  | _ => idtac
  end.

(** What a successful call of each function leaves in storage. *)

Lemma issueLicense_ok env model to lt al duration limit s licenseId s' evs :
  issueLicense env model to lt al duration limit s = inr (licenseId, s', evs) ->
  licenseId = licenseCounter s + 1
  /\ licenseCounter s' = licenseId
  /\ lic s' licenseId
     = mkLicense model to lt al (block_timestamp env)
                 (block_timestamp env + duration) true limit 0
  /\ (forall j, j ≠ licenseId -> lic s' j = lic s j).
Proof.
  unfold issueLicense. intros H. inv_code H.
  injection H as <- <- <-. unfold lic; cbn [licenses licenseCounter].
  rewrite lookup_insert_eq. split_and!; try done.
  intros j Hj. by rewrite lookup_insert_ne.
Qed.

Lemma revokeLicense_ok env licenseId s s' evs :
  revokeLicense env licenseId s = inr (s', evs) ->
  isActive (lic s licenseId) = true
  /\ s' = store licenseId (set_isActive false (lic s licenseId)) s.
Proof.
  unfold revokeLicense. intros H. inv_code H.
  by injection H as <- <-.
Qed.

Lemma recordUsage_ok env licenseId usageAmount s s' evs :
  recordUsage env licenseId usageAmount s = inr (s', evs) ->
  let l := lic s licenseId in
  let count := usageCount l + usageAmount in
  hasRole_LICENSE_ADMIN env (msg_sender env) = true
  /\ isActive l = true
  /\ block_timestamp env < expiresAt l
  /\ count < uint256_limit
  /\ s' = store licenseId
            (set_isActive (negb ((0 <? usageLimit l) && (usageLimit l <=? count)))
                          (set_usageCount count l)) s.
Proof.
  unfold recordUsage. intros H. inv_code H.
  apply N.ltb_lt in Hm1. simpl in *.
  destruct (_ && _) eqn:Hcap in H; rewrite Hcap; simpl;
    injection H as <- <-; split_and!; try done.
  f_equal. destruct (lic s licenseId); simpl in *. by subst.
Qed.

Lemma renewLicense_ok env licenseId d s s' evs :
  renewLicense env licenseId d s = inr (s', evs) ->
  let l := lic s licenseId in
  let expiry := if expiresAt l <=? block_timestamp env
                then block_timestamp env + d else expiresAt l + d in
  0 < d
  /\ expiry < uint256_limit
  /\ s' = store licenseId
            (set_isActive (isActive l || (usageCount l <? usageLimit l))
                          (set_expiresAt expiry l)) s.
Proof.
  unfold renewLicense. intros H. inv_code H.
  apply N.ltb_lt in Hm1. simpl in *.
  destruct (expiresAt _ <=? _) eqn:Hexp; inv_atom Hm2;
    injection H as <- <-; (split; [done|]); (split; [done|]); f_equal;
    destruct (lic s licenseId) as [? ? ? ? ? ? act lim cnt]; simpl in *;
    destruct act; simpl; try done; by destruct (cnt <? lim).
Qed.

(** *** Storage invariant: a slot that was never issued grants nothing *)

Lemma unissued_blank_init : unissued_blank initState.
Proof. intros i _. unfold lic; simpl. by rewrite lookup_empty. Qed.

Lemma active_issued s i :
  unissued_blank s -> isActive (lic s i) = true -> issued s i.
Proof.
  intros Hinv Hact. destruct (decide (issued s i)) as [|Hno]; [done|].
  destruct (Hinv i Hno) as [Hoff _]. congruence.
Qed.

Lemma exec_unissued_blank env c s :
  unissued_blank s -> unissued_blank (fst (exec env c s)).
Proof.
  intros Hinv. destruct c; simpl; try done.
  - destruct (issueLicense _ _ _ _ _ _ _ _) as [e|[[i' s'] evs]] eqn:Hcall;
      [done|]; simpl.
    apply issueLicense_ok in Hcall as (-> & Hctr & _ & Hframe).
    intros i Hi. unfold issued in Hi. rewrite Hctr in Hi.
    rewrite Hframe by lia. apply Hinv. unfold issued. lia.
  - destruct (revokeLicense _ _ _) as [e|[s' evs]] eqn:Hcall; [done|]; simpl.
    apply revokeLicense_ok in Hcall as [Hact ->].
    intros i Hi. apply (active_issued _ _ Hinv) in Hact.
    rewrite lic_store_ne; [by apply Hinv|]. by intros ->.
  - destruct (recordUsage _ _ _ _) as [e|[s' evs]] eqn:Hcall; [done|]; simpl.
    apply recordUsage_ok in Hcall as (_ & Hact & _ & _ & ->).
    intros i Hi. apply (active_issued _ _ Hinv) in Hact.
    rewrite lic_store_ne; [by apply Hinv|]. by intros ->.
  - destruct (renewLicense _ _ _ _) as [e|[s' evs]] eqn:Hcall; [done|]; simpl.
    apply renewLicense_ok in Hcall as (_ & _ & ->).
    intros i Hi. destruct (decide (licenseId = i)) as [->|Hne].
    + rewrite lic_store_eq. destruct (Hinv i Hi) as (Hoff & Hlim & Hcnt).
      unfold blank; simpl. rewrite Hoff, Hlim, Hcnt. done.
    + rewrite lic_store_ne by done. by apply Hinv.
Qed.

Lemma run_unissued_blank txs s :
  unissued_blank s -> unissued_blank (run txs s).
Proof.
  revert s. induction txs as [|[env c] txs IH]; intros s Hinv; simpl; [done|].
  apply IH. by apply exec_unissued_blank.
Qed.

(** *** validateLicense *)

Lemma validateLicense_true env licenseId user requiredAccess s :
  validateLicense env licenseId user requiredAccess s = true <->
  let l := lic s licenseId in
  isActive l = true
  /\ licensee l = user
  /\ block_timestamp env < expiresAt l
  /\ (usageLimit l = 0 \/ usageCount l < usageLimit l)
  /\ uint requiredAccess <= uint (accessLevel l).
Proof.
  unfold validateLicense; simpl.
  rewrite !andb_true_iff, orb_true_iff, !N.eqb_eq, !N.ltb_lt, N.leb_le.
  tauto.
Qed.

Lemma validateLicense_reachable txs env licenseId user requiredAccess :
  let s := run txs initState in
  let l := lic s licenseId in
  validateLicense env licenseId user requiredAccess s = true <->
  issued s licenseId
  /\ isActive l = true
  /\ licensee l = user
  /\ block_timestamp env < expiresAt l
  /\ (usageLimit l = 0 \/ usageCount l < usageLimit l)
  /\ uint requiredAccess <= uint (accessLevel l).
Proof.
  simpl. rewrite validateLicense_true; simpl. split; [|tauto].
  intros H. split; [|done]. destruct H as [Hact _].
  eapply active_issued; [|done].
  apply run_unissued_blank, unissued_blank_init.
Qed.

Lemma validateLicense_unissued txs env licenseId user requiredAccess :
  ~ issued (run txs initState) licenseId ->
  validateLicense env licenseId user requiredAccess (run txs initState) = false.
Proof.
  intros Hno. apply not_true_is_false. intros Hv.
  by apply validateLicense_reachable in Hv as [? _].
Qed.

Lemma validateLicense_expired env licenseId user requiredAccess s :
  expiresAt (lic s licenseId) <= block_timestamp env ->
  validateLicense env licenseId user requiredAccess s = false.
Proof.
  intros Hexp. apply not_true_is_false. intros Hv.
  apply validateLicense_true in Hv as (_ & _ & Hlt & _). simpl in Hlt. lia.
Qed.

(** Views leave the storage alone. *)
Lemma exec_view env c s :
  match c with
  | ValidateLicense _ _ _ | GetLicensesForModel _ | GetLicensesForUser _
  | HasValidLicense _ _ _ => fst (exec env c s) = s
  | _ => True
  end.
Proof. by destruct c. Qed.

(** *** usageCount only grows *)

Lemma exec_usageCount_mono env c s i :
  unissued_blank s ->
  usageCount (lic s i) <= usageCount (lic (fst (exec env c s)) i).
Proof.
  intros Hinv. destruct c; simpl; try done.
  - destruct (issueLicense _ _ _ _ _ _ _ _) as [e|[[i' s'] evs]] eqn:Hcall;
      [done|]; simpl.
    apply issueLicense_ok in Hcall as (-> & _ & Hnew & Hframe).
    destruct (decide (i = licenseCounter s + 1)) as [->|Hne].
    + rewrite Hnew; simpl.
      destruct (Hinv (licenseCounter s + 1)) as (_ & _ & ->); [|done].
      unfold issued. lia.
    + by rewrite Hframe.
  - destruct (revokeLicense _ _ _) as [e|[s' evs]] eqn:Hcall; [done|]; simpl.
    apply revokeLicense_ok in Hcall as [_ ->].
    destruct (decide (licenseId = i)) as [->|Hne];
      [by rewrite lic_store_eq | by rewrite lic_store_ne].
  - destruct (recordUsage _ _ _ _) as [e|[s' evs]] eqn:Hcall; [done|]; simpl.
    apply recordUsage_ok in Hcall as (_ & _ & _ & _ & ->).
    destruct (decide (licenseId = i)) as [->|Hne];
      [rewrite lic_store_eq; simpl; lia | by rewrite lic_store_ne].
  - destruct (renewLicense _ _ _ _) as [e|[s' evs]] eqn:Hcall; [done|]; simpl.
    apply renewLicense_ok in Hcall as (_ & _ & ->).
    destruct (decide (licenseId = i)) as [->|Hne];
      [by rewrite lic_store_eq | by rewrite lic_store_ne].
Qed.

Lemma run_usageCount_mono txs s i :
  unissued_blank s ->
  usageCount (lic s i) <= usageCount (lic (run txs s) i).
Proof.
  revert s. induction txs as [|[env c] txs IH]; intros s Hinv; simpl; [done|].
  etrans; [by apply (exec_usageCount_mono env c)|].
  apply IH. by apply exec_unissued_blank.
Qed.

Lemma run_app txs txs' s : run (txs ++ txs') s = run txs' (run txs s).
Proof.
  revert s. induction txs as [|[env c] txs IH]; intros s; simpl; [done|].
  apply IH.
Qed.

(** *** recordUsage *)

Lemma recordUsage_not_active env licenseId usageAmount s :
  hasRole_LICENSE_ADMIN env (msg_sender env) = true ->
  isActive (lic s licenseId) = false ->
  recordUsage env licenseId usageAmount s = inl NotActive.
Proof. intros Hadm Hoff. unfold recordUsage. by rewrite Hadm, Hoff. Qed.

Lemma recordUsage_expired env licenseId usageAmount s :
  hasRole_LICENSE_ADMIN env (msg_sender env) = true ->
  isActive (lic s licenseId) = true ->
  expiresAt (lic s licenseId) <= block_timestamp env ->
  recordUsage env licenseId usageAmount s = inl Expired.
Proof.
  intros Hadm Hact Hexp. unfold recordUsage. rewrite Hadm, Hact; simpl.
  apply N.ltb_ge in Hexp. by rewrite Hexp.
Qed.

(** A call that passes the three checks and does not overflow returns. *)
Lemma recordUsage_returns env licenseId usageAmount s :
  let l := lic s licenseId in
  let count := usageCount l + usageAmount in
  hasRole_LICENSE_ADMIN env (msg_sender env) = true ->
  isActive l = true ->
  block_timestamp env < expiresAt l ->
  count < uint256_limit ->
  exists evs,
    recordUsage env licenseId usageAmount s
    = inr (store licenseId
             (set_isActive (negb ((0 <? usageLimit l) && (usageLimit l <=? count)))
                           (set_usageCount count l)) s, evs).
Proof.
  simpl. intros Hadm Hact Hexp Hfit. unfold recordUsage.
  rewrite Hadm, Hact; simpl. apply N.ltb_lt in Hexp. rewrite Hexp; simpl.
  rewrite checked_add_fits by done; simpl.
  destruct (_ && _); simpl; eexists; repeat f_equal.
  destruct (lic s licenseId); simpl in *. by subst.
Qed.

(** The call that reaches a positive limit switches the license off. *)
Lemma recordUsage_cap env licenseId usageAmount s s' evs :
  recordUsage env licenseId usageAmount s = inr (s', evs) ->
  0 < usageLimit (lic s licenseId) ->
  usageLimit (lic s licenseId) <= usageCount (lic s' licenseId) ->
  isActive (lic s' licenseId) = false.
Proof.
  intros Hcall Hpos Hcap.
  apply recordUsage_ok in Hcall as (_ & _ & _ & _ & ->).
  rewrite lic_store_eq in *; simpl in *.
  apply N.ltb_lt in Hpos. apply N.leb_le in Hcap. by rewrite Hpos, Hcap.
Qed.

(** One use of a license that stays below a limit of five, or reaches it. *)
Lemma recordUsage_one env licenseId s (t0 : N) (n : N) model to lt al t1 :
  hasRole_LICENSE_ADMIN env (msg_sender env) = true ->
  block_timestamp env < t1 ->
  n < 5 ->
  lic s licenseId = mkLicense model to lt al t0 t1 true 5 n ->
  exists s' evs,
    recordUsage env licenseId 1 s = inr (s', evs)
    /\ lic s' licenseId
       = mkLicense model to lt al t0 t1 (negb (5 <=? n + 1)) 5 (n + 1).
Proof.
  intros Hadm Htime Hn Hl.
  destruct (recordUsage_returns env licenseId 1 s) as [evs Hcall];
    rewrite ?Hl; simpl; try done.
  { unfold uint256_limit. assert (2 ^ 3 <= 2 ^ 256); [|lia].
    apply N.pow_le_mono_r; lia. }
  eexists _, evs. split; [exact Hcall|].
  rewrite lic_store_eq, Hl. done.
Qed.

(** *** renewLicense *)

Lemma renewLicense_returns env licenseId d s :
  let l := lic s licenseId in
  let expiry := if expiresAt l <=? block_timestamp env
                then block_timestamp env + d else expiresAt l + d in
  may_renew env l ->
  0 < d ->
  expiry < uint256_limit ->
  exists s' evs,
    renewLicense env licenseId d s = inr (s', evs)
    /\ expiresAt (lic s' licenseId) = expiry
    /\ isActive (lic s' licenseId)
       = isActive l || (usageCount l <? usageLimit l).
Proof.
  simpl. intros (o & Hown & Hauth) Hd Hfit. unfold renewLicense.
  unfold registry_ownerOf. rewrite Hown; simpl.
  assert ((o =? msg_sender env) || (licensee (lic s licenseId) =? msg_sender env)
          || hasRole_LICENSE_ADMIN env (msg_sender env) = true) as ->.
  { rewrite !orb_true_iff, !N.eqb_eq. tauto. }
  simpl. apply N.ltb_lt in Hd. rewrite Hd; simpl.
  destruct (expiresAt _ <=? _) eqn:Hexp;
    rewrite checked_add_fits by done; simpl;
    eexists _, _; (split; [done|]); rewrite lic_store_eq;
    destruct (lic s licenseId) as [? ? ? ? ? ? act lim cnt]; simpl in *;
    destruct act; simpl; try done; by destruct (cnt <? lim).
Qed.

(** *** revokeLicense *)

Lemma revokeLicense_inactive env licenseId s :
  isActive (lic s licenseId) = false ->
  revokeLicense env licenseId s = inl AlreadyInactive.
Proof. intros Hoff. unfold revokeLicense. by rewrite Hoff. Qed.

Lemma revokeLicense_returns env licenseId s o :
  isActive (lic s licenseId) = true ->
  ownerOf env (modelId (lic s licenseId)) = Some o ->
  o = msg_sender env \/ hasRole_LICENSE_ADMIN env (msg_sender env) = true ->
  revokeLicense env licenseId s
  = inr (store licenseId (set_isActive false (lic s licenseId)) s,
         [LicenseRevoked licenseId]).
Proof.
  intros Hact Hown Hauth. unfold revokeLicense, registry_ownerOf.
  rewrite Hact, Hown; simpl.
  assert ((o =? msg_sender env) || hasRole_LICENSE_ADMIN env (msg_sender env)
          = true) as ->; [|done].
  rewrite orb_true_iff, N.eqb_eq. tauto.
Qed.

(** *** issueLicense *)

Lemma issueLicense_unauthorized env model to lt al duration limit s o :
  ownerOf env model = Some o ->
  o <> msg_sender env ->
  hasRole_LICENSE_ADMIN env (msg_sender env) = false ->
  issueLicense env model to lt al duration limit s = inl Unauthorized_issue.
Proof.
  intros Hown Hne Hadm. unfold issueLicense, registry_ownerOf.
  rewrite Hown, Hadm; simpl. apply N.eqb_neq in Hne. by rewrite Hne.
Qed.

(** Five uses of a fresh license with a limit of five. *)
Lemma record_each_five envs s licenseId model to lt al t0 t1 :
  lic s licenseId = mkLicense model to lt al t0 t1 true 5 0 ->
  length envs = 5%nat ->
  Forall (fun e => hasRole_LICENSE_ADMIN e (msg_sender e) = true
                   /\ block_timestamp e < t1) envs ->
  exists s',
    record_each envs licenseId s = inr s'
    /\ lic s' licenseId = mkLicense model to lt al t0 t1 false 5 5.
Proof.
  intros Hl Hlen Hok.
  destruct envs as [|e1 [|e2 [|e3 [|e4 [|e5 [|]]]]]]; try done.
  repeat (apply Forall_cons in Hok as [[? ?] Hok]).
  cbn [record_each].
  destruct (recordUsage_one e1 licenseId s t0 0 model to lt al t1)
    as (s1 & v1 & -> & Hl1); try done.
  destruct (recordUsage_one e2 licenseId s1 t0 1 model to lt al t1)
    as (s2 & v2 & Hc2 & Hl2); try done.
  destruct (recordUsage_one e3 licenseId s2 t0 2 model to lt al t1)
    as (s3 & v3 & Hc3 & Hl3); try done.
  destruct (recordUsage_one e4 licenseId s3 t0 3 model to lt al t1)
    as (s4 & v4 & Hc4 & Hl4); try done.
  destruct (recordUsage_one e5 licenseId s4 t0 4 model to lt al t1)
    as (s5 & v5 & Hc5 & Hl5); try done.
  exists s5. cbn [bind fst]. rewrite Hc2; cbn [bind fst].
  rewrite Hc3; cbn [bind fst]. rewrite Hc4; cbn [bind fst].
  rewrite Hc5; cbn [bind fst]. done.
Qed.

End ContractFacts.

(** ** Facts about the backend *)
Module BackendFacts.
Import Backend.
Local Open Scope Z_scope.

(** *** Methods of the model *)

Lemma isValid_true now l :
  isValid now l = true <->
  isActive l = true
  /\ now <= expiresAt l
  /\ ~ (0 < usageLimit l /\ usageLimit l <= usageCount l).
Proof.
  unfold isValid. destruct (isActive l); simpl; [|by split; [|intros [? _]]].
  destruct (expiresAt l <? now) eqn:Hexp;
    [apply Z.ltb_lt in Hexp | apply Z.ltb_ge in Hexp].
  { split; [done|]. lia. }
  destruct (0 <? usageLimit l) eqn:Hpos;
    [apply Z.ltb_lt in Hpos | apply Z.ltb_ge in Hpos]; simpl.
  - destruct (usageLimit l <=? usageCount l) eqn:Hcap;
      [apply Z.leb_le in Hcap | apply Z.leb_gt in Hcap].
    + split; [done|]. intros (_ & _ & Hno). lia.
    + split; [|done]. intros _. split_and!; [done|done|lia].
  - split; [|done]. intros _. split_and!; [done|done|lia].
Qed.

(** An active license with usage to spare is still valid at the instant
    [expiresAt] itself: the expiry test is [now > expiresAt]. *)
Lemma isValid_at_expiry l :
  isActive l = true ->
  ~ (0 < usageLimit l /\ usageLimit l <= usageCount l) ->
  isValid (expiresAt l) l = true.
Proof. intros Hact Hcap. apply isValid_true. split_and!; [done|lia|done]. Qed.

Lemma recordUsage_fields now op dt l :
  let l' := recordUsage now op dt l in
  usageCount l' = usageCount l + 1
  /\ usageHistory l' = usageHistory l ++ [mkUsage now op dt]
  /\ isActive l'
     = isActive l && negb ((0 <? usageLimit l) && (usageLimit l <=? usageCount l + 1))
  /\ usageLimit l' = usageLimit l
  /\ expiresAt l' = expiresAt l
  /\ licensee l' = licensee l.
Proof.
  destruct l as [? ? ? ? ? ? ? exp act lim cnt ? ? ? ? ? ? ? ? ?].
  unfold recordUsage; simpl.
  destruct (_ && _); simpl; split_and!; try done.
  - by rewrite andb_false_r.
  - by rewrite andb_true_r.
Qed.

Lemma renew_expiry now duration l :
  (if expiresAt l <? now then now + duration * 1000
   else expiresAt l + duration * 1000)
  = Z.max now (expiresAt l) + duration * 1000.
Proof.
  destruct (expiresAt l <? now) eqn:Hlt;
    [apply Z.ltb_lt in Hlt | apply Z.ltb_ge in Hlt]; lia.
Qed.

Lemma renew_fields now duration l l' :
  renew now duration l = Some l' ->
  expiresAt l' = (if expiresAt l <? now then now + duration * 1000
                  else expiresAt l + duration * 1000)
  /\ isActive l' = isActive l || (usageCount l <? usageLimit l)
  /\ usageCount l' = usageCount l
  /\ usageLimit l' = usageLimit l
  /\ valid_time (expiresAt l') = true.
Proof.
  destruct l as [? ? ? ? ? ? ? exp act lim cnt ? ? ? ? ? ? ? ? ?].
  unfold renew; cbn [expiresAt].
  destruct (valid_time _) eqn:Hvalid; [|done]. cbn [negb].
  intros [= <-]. revert Hvalid.
  destruct (exp <? now); simpl; destruct act; simpl; try done;
    destruct (cnt <? lim); done.
Qed.

(** A renewal is saved exactly when the new expiry is a date. *)
Lemma renew_is_Some now duration l :
  is_Some (renew now duration l) <->
  valid_time (Z.max now (expiresAt l) + duration * 1000) = true.
Proof.
  unfold renew. rewrite renew_expiry.
  destruct (valid_time _); cbn [negb]; split; done.
Qed.

(** *** The stored document after a request *)

Lemma lookup_save_eq now key doc db :
  licenses (save now key doc db) !! key = Some (set_updatedAt now doc).
Proof. unfold save; cbn [licenses]. by rewrite lookup_insert_eq. Qed.

Lemma lookup_save_ne now key doc db j :
  key <> j -> licenses (save now key doc db) !! j = licenses db !! j.
Proof. intros Hne. unfold save; cbn [licenses]. by rewrite lookup_insert_ne. Qed.

Lemma usage_save_eq now key doc db :
  usage (save now key doc db) key = usageCount doc.
Proof. unfold usage. by rewrite lookup_save_eq. Qed.

Lemma usage_save_ne now key doc db j :
  key <> j -> usage (save now key doc db) j = usage db j.
Proof. intros Hne. unfold usage. by rewrite lookup_save_ne. Qed.

Lemma is_admin_true u : is_admin u = true <-> role u = "admin"%string.
Proof. unfold is_admin. apply String.eqb_eq. Qed.

Lemma put_usage_returns now u key op dt db l :
  op <> ""%string ->
  licenses db !! key = Some l ->
  may_record u l ->
  isValid now l = true ->
  put_usage now (Some u) key op dt db
  = (save now key (recordUsage now op dt l) db,
     LicenseJson 200 (set_updatedAt now (recordUsage now op dt l))).
Proof.
  intros Hop Hl Hauth Hvalid. unfold put_usage.
  apply String.eqb_neq in Hop. rewrite Hop, Hl, Hvalid; simpl.
  assert (negb (is_admin u) && negb (licensee l =? id u)%N = false) as ->;
    [|done].
  destruct Hauth as [Hadm|Hme].
  - apply is_admin_true in Hadm. by rewrite Hadm.
  - apply N.eqb_eq in Hme. rewrite Hme. by rewrite andb_false_r.
Qed.

Lemma put_usage_invalid now u key op dt db l :
  op <> ""%string ->
  licenses db !! key = Some l ->
  may_record u l ->
  isValid now l = false ->
  put_usage now (Some u) key op dt db
  = (db, Message 400 "License is not valid").
Proof.
  intros Hop Hl Hauth Hvalid. unfold put_usage.
  apply String.eqb_neq in Hop. rewrite Hop, Hl, Hvalid; simpl.
  assert (negb (is_admin u) && negb (licensee l =? id u)%N = false) as ->;
    [|done].
  destruct Hauth as [Hadm|Hme].
  - apply is_admin_true in Hadm. by rewrite Hadm.
  - apply N.eqb_eq in Hme. rewrite Hme. by rewrite andb_false_r.
Qed.

(** One use of a license that stays below a limit of five, or reaches it. *)
Lemma put_usage_one now u key op dt db l n :
  op <> ""%string ->
  licenses db !! key = Some l ->
  may_record u l ->
  isActive l = true -> usageLimit l = 5 -> usageCount l = n -> 0 <= n < 5 ->
  now <= expiresAt l ->
  exists db' l',
    put_usage now (Some u) key op dt db = (db', LicenseJson 200 l')
    /\ licenses db' !! key = Some l'
    /\ isActive l' = negb (5 <=? n + 1) /\ usageLimit l' = 5
    /\ usageCount l' = n + 1 /\ expiresAt l' = expiresAt l
    /\ licensee l' = licensee l.
Proof.
  intros Hop Hl Hauth Hact Hlim Hcnt Hn Hexp.
  eexists _, _. split.
  { apply put_usage_returns; try done.
    apply isValid_true. split_and!; [done|done|lia]. }
  rewrite lookup_save_eq. split; [done|].
  destruct (recordUsage_fields now op dt l) as (Hc & _ & Ha & Hli & He & Hu).
  cbn [isActive usageLimit usageCount expiresAt licensee set_updatedAt assign].
  rewrite Hc, Ha, Hli, He, Hu, Hact, Hlim, Hcnt. done.
Qed.

(** *** Every handler either leaves the collections alone or saves one
    document *)

Lemma put_revoke_db now user key reason db :
  fst (put_revoke now user key reason db) = db
  \/ exists l, licenses db !! key = Some l
               /\ fst (put_revoke now user key reason db)
                  = save now key (revoke reason l) db.
Proof. unfold put_revoke. repeat case_match; simpl; eauto. Qed.

Lemma put_renew_db now user key duration db :
  fst (put_renew now user key duration db) = db
  \/ exists l l', licenses db !! key = Some l
                  /\ renew now duration l = Some l'
                  /\ fst (put_renew now user key duration db)
                     = save now key l' db.
Proof.
  unfold put_renew. repeat case_match; simpl; eauto.
  right. by eexists _, _.
Qed.

Lemma put_usage_db now user key op dt db :
  fst (put_usage now user key op dt db) = db
  \/ exists l, licenses db !! key = Some l
               /\ isValid now l = true
               /\ fst (put_usage now user key op dt db)
                  = save now key (recordUsage now op dt l) db.
Proof.
  unfold put_usage. repeat case_match; simpl; eauto.
  right. eexists. split_and!; try done. by apply negb_false_iff.
Qed.

Lemma post_license_db now fresh lid user body db :
  fst (post_license now fresh lid user body db) = db
  \/ exists l, licenses db !! fresh = None
               /\ isActive l = true /\ usageCount l = 0
               /\ usageLimit l = or_zero (b_usageLimit body)
               /\ fst (post_license now fresh lid user body db)
                  = mkDb (<[fresh := l]> (licenses db)) (models db) (users db).
Proof.
  unfold post_license. repeat case_match; simpl; eauto.
  right. eexists. split_and!; [done|..|done]; done.
Qed.

Lemma get_validate_db now user lid required db :
  fst (get_validate now user lid required db) = db.
Proof. unfold get_validate. by repeat case_match. Qed.

(** *** usageCount only grows *)

Lemma handle_usage_mono now user r db key :
  usage db key <= usage (fst (handle now user r db)) key.
Proof.
  destruct r as [fresh lid body|k reason|k duration|k op dt|lid required];
    simpl.
  - destruct (post_license_db now fresh lid user body db)
      as [->|(l & Hfree & _ & Hcnt & _ & ->)]; [done|].
    unfold usage; cbn [licenses].
    destruct (decide (fresh = key)) as [->|Hne].
    + rewrite lookup_insert_eq, Hfree; simpl. lia.
    + by rewrite lookup_insert_ne.
  - destruct (put_revoke_db now user k reason db) as [->|(l & Hl & ->)];
      [done|].
    destruct (decide (k = key)) as [->|Hne].
    + rewrite usage_save_eq. unfold usage. by rewrite Hl.
    + by rewrite usage_save_ne.
  - destruct (put_renew_db now user k duration db)
      as [->|(l & l' & Hl & Hrenew & ->)]; [done|].
    destruct (decide (k = key)) as [->|Hne].
    + rewrite usage_save_eq. unfold usage. rewrite Hl; simpl.
      by destruct (renew_fields now duration l l' Hrenew) as (_ & _ & -> & _).
    + by rewrite usage_save_ne.
  - destruct (put_usage_db now user k op dt db) as [->|(l & Hl & _ & ->)];
      [done|].
    destruct (decide (k = key)) as [->|Hne].
    + rewrite usage_save_eq. unfold usage. rewrite Hl; simpl.
      destruct (recordUsage_fields now op dt l) as (-> & _). lia.
    + by rewrite usage_save_ne.
  - by rewrite get_validate_db.
Qed.

Lemma serve_usage_mono reqs db key :
  usage db key <= usage (serve reqs db) key.
Proof.
  revert db. induction reqs as [|[[now user] r] reqs IH]; intros db; simpl;
    [done|].
  etrans; [apply (handle_usage_mono now user r)|]. apply IH.
Qed.

(** *** renew, revoke and issue through their routes *)

Lemma put_renew_returns now u key duration db l m :
  1 <= duration ->
  licenses db !! key = Some l ->
  models db !! model l = Some m ->
  may_renew u l m ->
  put_renew now (Some u) key duration db
  = match renew now duration l with
    | Some l' => (save now key l' db, LicenseJson 200 (set_updatedAt now l'))
    | None => (db, Message 500 "Server error")
    end.
Proof.
  intros Hd Hl Hm Hauth. unfold put_renew.
  apply Z.leb_le in Hd. rewrite Hd, Hl, Hm; simpl.
  assert (negb (is_admin u) && negb (licensee l =? id u)%N
          && negb (issuer l =? id u)%N && negb (owner m =? id u)%N = false)
    as ->; [|done].
  rewrite !andb_false_iff, !negb_false_iff, !N.eqb_eq, is_admin_true.
  unfold may_renew in Hauth. tauto.
Qed.

(** A renewal that would take [expiresAt] out of the range of dates is
    answered 500 and stores nothing. *)
Lemma put_renew_invalid_date now u key duration db l m :
  1 <= duration ->
  licenses db !! key = Some l ->
  models db !! model l = Some m ->
  may_renew u l m ->
  valid_time (Z.max now (expiresAt l) + duration * 1000) = false ->
  put_renew now (Some u) key duration db = (db, Message 500 "Server error").
Proof.
  intros Hd Hl Hm Hauth Hrange.
  rewrite (put_renew_returns now u key duration db l m) by done.
  destruct (renew now duration l) as [l'|] eqn:Hrenew; [|done].
  assert (is_Some (renew now duration l)) as Hsome by by eexists.
  apply renew_is_Some in Hsome. congruence.
Qed.

Lemma put_revoke_returns now u key reason db l m :
  reason <> ""%string ->
  licenses db !! key = Some l ->
  models db !! model l = Some m ->
  may_revoke u l m ->
  put_revoke now (Some u) key reason db
  = (save now key (revoke reason l) db,
     LicenseJson 200 (set_updatedAt now (revoke reason l))).
Proof.
  intros Hr Hl Hm Hauth. unfold put_revoke.
  apply String.eqb_neq in Hr. rewrite Hr, Hl, Hm; simpl.
  assert (negb (is_admin u) && negb (issuer l =? id u)%N
          && negb (owner m =? id u)%N = false) as ->; [|done].
  rewrite !andb_false_iff, !negb_false_iff, !N.eqb_eq, is_admin_true.
  unfold may_revoke in Hauth. tauto.
Qed.

Lemma post_license_unauthorized now fresh lid u body db modelId m :
  b_modelId body = Some modelId ->
  models db !! modelId = Some m ->
  owner m <> id u ->
  role u <> "admin"%string ->
  fst (post_license now fresh lid (Some u) body db) = db
  /\ (valid_issue_body body = true ->
      snd (post_license now fresh lid (Some u) body db)
      = Message 403 "Not authorized to issue license for this model").
Proof.
  intros Hbody Hm Hown Hadm. unfold post_license, valid_issue_body.
  rewrite Hbody.
  assert (negb (owner m =? id u)%N && negb (is_admin u) = true) as Hno.
  { rewrite andb_true_iff, !negb_true_iff, N.eqb_neq.
    split; [done|]. apply not_true_is_false. by rewrite is_admin_true. }
  destruct (b_licenseeId body), (b_expiresAt body),
    (isIn (b_licenseType body) licenseTypes),
    (isIn (b_accessLevel body) accessLevels);
    cbn [negb andb fst snd]; rewrite ?Hm, ?Hno, ?andb_false_r; done.
Qed.

(** Five uses of a fresh license with a limit of five, through the route. *)
Lemma usage_each_five calls key op dt db l :
  op <> ""%string ->
  licenses db !! key = Some l ->
  isActive l = true -> usageLimit l = 5 -> usageCount l = 0 ->
  length calls = 5%nat ->
  Forall (fun c => may_record (snd c) l /\ fst c <= expiresAt l) calls ->
  exists db' l',
    usage_each calls key op dt db = Some db'
    /\ licenses db' !! key = Some l'
    /\ isActive l' = false /\ usageCount l' = 5 /\ usageLimit l' = 5
    /\ licensee l' = licensee l.
Proof.
  intros Hop Hl Hact Hlim Hcnt Hlen Hok.
  destruct calls as [|[t1 u1] [|[t2 u2] [|[t3 u3] [|[t4 u4] [|[t5 u5] [|]]]]]];
    try done.
  repeat (apply Forall_cons in Hok as [[? ?] Hok]).
  cbn [fst snd] in *. cbn [usage_each].
  destruct (put_usage_one t1 u1 key op dt db l 0)
    as (db1 & l1 & Hc1 & Hl1 & Ha1 & Hli1 & Hn1 & He1 & Hu1); try done.
  destruct (put_usage_one t2 u2 key op dt db1 l1 1)
    as (db2 & l2 & Hc2 & Hl2 & Ha2 & Hli2 & Hn2 & He2 & Hu2); try done;
    try (unfold may_record in *; by rewrite ?Hu1, ?He1).
  destruct (put_usage_one t3 u3 key op dt db2 l2 2)
    as (db3 & l3 & Hc3 & Hl3 & Ha3 & Hli3 & Hn3 & He3 & Hu3); try done;
    try (unfold may_record in *; by rewrite ?Hu2, ?He2, ?Hu1, ?He1).
  destruct (put_usage_one t4 u4 key op dt db3 l3 3)
    as (db4 & l4 & Hc4 & Hl4 & Ha4 & Hli4 & Hn4 & He4 & Hu4); try done;
    try (unfold may_record in *; by rewrite ?Hu3, ?He3, ?Hu2, ?He2, ?Hu1, ?He1).
  destruct (put_usage_one t5 u5 key op dt db4 l4 4)
    as (db5 & l5 & Hc5 & Hl5 & Ha5 & Hli5 & Hn5 & He5 & Hu5); try done;
    try (unfold may_record in *;
         by rewrite ?Hu4, ?He4, ?Hu3, ?He3, ?Hu2, ?He2, ?Hu1, ?He1).
  exists db5, l5. rewrite Hc1; cbn [fst snd succeeded].
  rewrite Hc2; cbn [fst snd succeeded]. rewrite Hc3; cbn [fst snd succeeded].
  rewrite Hc4; cbn [fst snd succeeded]. rewrite Hc5; cbn [fst snd succeeded].
  split_and!; try done. by rewrite Hu5, Hu4, Hu3, Hu2, Hu1.
Qed.

(** What the validate route answers. *)
Lemma get_validate_valid now u lid required db l :
  isIn required accessLevels = true ->
  findOne_licenseId lid db = Some l ->
  snd (get_validate now (Some u) lid required db) = Valid l <->
  isActive l = true
  /\ licensee l = id u
  /\ now <= expiresAt l
  /\ ~ (0 < usageLimit l /\ usageLimit l <= usageCount l)
  /\ indexOf required accessLevels <= indexOf (accessLevel l) accessLevels.
Proof.
  intros Hreq Hl. unfold get_validate. rewrite Hreq, Hl; cbn [negb].
  destruct (isValid now l) eqn:Hv; cbn [negb snd].
  - apply isValid_true in Hv as (Hact & Hexp & Hcap).
    destruct (licensee l =? id u)%N eqn:Hme; cbn [negb snd];
      [apply N.eqb_eq in Hme | apply N.eqb_neq in Hme].
    + destruct (_ <? _) eqn:Hlvl; cbn [snd];
        [apply Z.ltb_lt in Hlvl | apply Z.ltb_ge in Hlvl].
      * split; [done|]. intros (_ & _ & _ & _ & ?). lia.
      * split; [|done]. intros _. done.
    + split; [done|]. by intros (_ & ? & _).
  - split; [done|]. intros (Hact & _ & Hexp & Hcap & _).
    assert (isValid now l = true) as Hv'; [|congruence].
    by apply isValid_true.
Qed.

Lemma get_validate_not_found now u lid required db :
  isIn required accessLevels = true ->
  findOne_licenseId lid db = None ->
  get_validate now (Some u) lid required db = (db, Invalid "License not found").
Proof. intros Hreq Hl. unfold get_validate. by rewrite Hreq, Hl. Qed.

(** The paths [revoke] assigns. *)
Lemma revoke_fields reason l :
  let l' := revoke reason l in
  isActive l' = false /\ revocationReason l' = Some reason
  /\ licenseId l' = licenseId l /\ model l' = model l
  /\ licensee l' = licensee l /\ issuer l' = issuer l
  /\ licenseType l' = licenseType l /\ accessLevel l' = accessLevel l
  /\ issuedAt l' = issuedAt l /\ expiresAt l' = expiresAt l
  /\ usageLimit l' = usageLimit l /\ usageCount l' = usageCount l
  /\ usageHistory l' = usageHistory l.
Proof. simpl. split_and!; done. Qed.

Lemma put_revoke_ok now user key reason db db' st l' :
  put_revoke now user key reason db = (db', LicenseJson st l') ->
  exists l,
    licenses db !! key = Some l
    /\ l' = set_updatedAt now (revoke reason l)
    /\ db' = save now key (revoke reason l) db.
Proof.
  unfold put_revoke. intros H. repeat case_match; simplify_eq. eauto.
Qed.

(** A license as the issue route creates it. *)
Lemma post_license_ok now fresh lid user body db db' st l :
  post_license now fresh lid user body db = (db', LicenseJson st l) ->
  licenses db !! fresh = None
  /\ licenses db' !! fresh = Some l
  /\ isActive l = true /\ usageCount l = 0
  /\ usageLimit l = or_zero (b_usageLimit body)
  /\ issuedAt l = now
  /\ b_expiresAt body = Some (expiresAt l)
  /\ b_licenseeId body = Some (licensee l).
Proof.
  unfold post_license. intros H. repeat case_match; simplify_eq.
  cbn [licenses]. rewrite lookup_insert_eq. done.
Qed.

End BackendFacts.

(** ** Facts about the reachable storages of LicenseManager *)
Module ContractInvFacts.
Import Contract ContractFacts ContractInv.
Local Open Scope N_scope.

(** A successful [issueLicense], in full. *)
Lemma issueLicense_inv env model to lt al duration limit s licenseId s' evs :
  issueLicense env model to lt al duration limit s = inr (licenseId, s', evs) ->
  licenseId = licenseCounter s + 1
  /\ to <> 0 /\ 0 < duration
  /\ block_timestamp env + duration < uint256_limit
  /\ s' = mkState
            (<[licenseId := mkLicense model to lt al (block_timestamp env)
                              (block_timestamp env + duration) true limit 0]>
               (licenses s))
            licenseId
            (<[model := getLicensesForModel model s ++ [licenseId]]>
               (modelLicenses s))
            (<[to := getLicensesForUser to s ++ [licenseId]]>
               (userLicenses s))
  /\ evs = [LicenseIssued licenseId model to].
Proof.
  unfold issueLicense. intros H. inv_code H.
  injection H as <- <- <-.
  apply negb_true_iff, N.eqb_neq in Hm1. apply N.ltb_lt in Hm2.
  split_and!; done.
Qed.

(** What a transaction can do to the storage. *)
Lemma exec_cases env c s :
  fst (exec env c s) = s
  \/ (exists model to lt al duration limit evs,
         issueLicense env model to lt al duration limit s
         = inr (licenseCounter s + 1, fst (exec env c s), evs))
  \/ (exists i l',
         fst (exec env c s) = store i l' s
         /\ terms l' = terms (lic s i)
         /\ expiresAt (lic s i) <= expiresAt l'
         /\ usageCount (lic s i) <= usageCount l'
         /\ (isActive (lic s i) = false -> usageCount (lic s i) = 0 ->
             usageLimit (lic s i) = 0 -> isActive l' = false /\ usageCount l' = 0)
         /\ ((isActive (lic s i) = true -> quota (lic s i)) ->
             isActive l' = true -> quota l')).
Proof.
  destruct c; simpl; auto.
  - destruct (issueLicense _ _ _ _ _ _ _ _) as [e|[[i' s'] evs]] eqn:Hcall;
      [by left|]. right; left. simpl.
    pose proof Hcall as Hid. apply issueLicense_ok in Hid as [-> _].
    by exists model, to, lt, al, duration, limit, evs.
  - destruct (revokeLicense _ _ _) as [e|[s' evs]] eqn:Hcall; [by left|].
    right; right. simpl. apply revokeLicense_ok in Hcall as [Hact ->].
    exists licenseId, (set_isActive false (lic s licenseId)).
    split_and!; done.
  - destruct (recordUsage _ _ _ _) as [e|[s' evs]] eqn:Hcall; [by left|].
    right; right. simpl.
    apply recordUsage_ok in Hcall as (_ & Hact & _ & _ & ->).
    eexists licenseId, _. split; [done|].
    split_and!; try done; simpl; [lia|intros ?; congruence|].
    intros _ Hon. apply negb_true_iff, andb_false_iff in Hon.
    unfold quota; simpl. destruct Hon as [Hon|Hon];
      [apply N.ltb_ge in Hon | apply N.leb_gt in Hon]; lia.
  - destruct (renewLicense _ _ _ _) as [e|[s' evs]] eqn:Hcall; [by left|].
    right; right. simpl. apply renewLicense_ok in Hcall as (Hd & _ & ->).
    eexists licenseId, _. split; [done|].
    split_and!; try done; simpl.
    + destruct (expiresAt _ <=? _) eqn:Hexp;
        [apply N.leb_le in Hexp|]; lia.
    + intros -> -> ->. done.
    + unfold quota; simpl. intros Hq Hon.
      apply orb_true_iff in Hon as [Hon|Hon]; [by apply Hq|].
      apply N.ltb_lt in Hon. lia.
Qed.

Lemma terms_eq l l' :
  terms l' = terms l ->
  modelId l' = modelId l /\ licensee l' = licensee l
  /\ licenseType l' = licenseType l /\ accessLevel l' = accessLevel l
  /\ issuedAt l' = issuedAt l /\ usageLimit l' = usageLimit l.
Proof. unfold terms. intros [= -> -> -> -> -> ->]. done. Qed.

Lemma ids_of_insert (m : gmap N (list N)) k v j :
  ids_of (<[k := v]> m) j = if decide (k = j) then v else ids_of m j.
Proof.
  unfold ids_of. rewrite lookup_insert. by destruct (decide (k = j)).
Qed.

Lemma sound_init : sound initState.
Proof.
  split_and!.
  - apply unissued_blank_init.
  - unfold indexes_agree, getLicensesForUser, getLicensesForModel, ids_of,
      issued; cbn [initState userLicenses modelLicenses licenseCounter].
    split_and!; intros; rewrite ?lookup_empty; cbn [default].
    + split; [by intros ?%elem_of_nil | lia].
    + split; [by intros ?%elem_of_nil | lia].
    + apply NoDup_nil_2.
    + apply NoDup_nil_2.
  - intros i. unfold lic; simpl. by rewrite lookup_empty.
  - intros i Hi. unfold issued in Hi; simpl in Hi. lia.
Qed.

Lemma exec_sound env c s : sound s -> sound (fst (exec env c s)).
Proof.
  intros (Hblank & (Husers & Hmodels & Hnodup_u & Hnodup_m) & Hquota & Htimed).
  split; [by apply exec_unissued_blank|].
  destruct (exec_cases env c s)
    as [->|[(model & to & lt & al & d & limit & evs & Hcall)
           |(i & l' & -> & Hterms & Hexp & _ & _ & Hq)]];
    [done| |].
  - apply issueLicense_inv in Hcall as (_ & Hto & Hd & _ & -> & _).
    set (new := licenseCounter s + 1).
    assert (forall j, issued s j -> j <> new) as Hold.
    { unfold issued, new. intros j Hj ->. lia. }
    unfold indexes_agree, quota_ok, well_timed, getLicensesForUser,
      getLicensesForModel, issued, lic; cbn [licenses licenseCounter
      userLicenses modelLicenses].
    split; [|split].
    + split_and!.
      * intros u j. rewrite ids_of_insert, lookup_insert.
        destruct (decide (new = j)) as [<-|Hne]; simpl.
        -- destruct (decide (to = u)) as [->|Hu].
           ++ rewrite elem_of_app, list_elem_of_singleton. split; [|tauto].
              intros _. split; [lia|done].
           ++ split; [|by intros [_ ?]]. intros Hin.
              apply Husers in Hin as [Hin _]. by apply Hold in Hin.
        -- fold (lic s j). destruct (decide (to = u)) as [->|Hu].
           ++ rewrite elem_of_app, list_elem_of_singleton.
              fold (getLicensesForUser u s). rewrite Husers.
              unfold issued. split; [intros [[? ?]|?]|intros [? ?]];
                try done; [split; [lia|done]|]. left. split; [lia|done].
           ++ fold (getLicensesForUser u s). rewrite Husers. unfold issued.
              split; intros [? ?]; (split; [lia|done]).
      * intros m j. rewrite ids_of_insert, lookup_insert.
        destruct (decide (new = j)) as [<-|Hne]; simpl.
        -- destruct (decide (model = m)) as [->|Hm].
           ++ rewrite elem_of_app, list_elem_of_singleton. split; [|tauto].
              intros _. split; [lia|done].
           ++ split; [|by intros [_ ?]]. intros Hin.
              apply Hmodels in Hin as [Hin _]. by apply Hold in Hin.
        -- fold (lic s j). destruct (decide (model = m)) as [->|Hm].
           ++ rewrite elem_of_app, list_elem_of_singleton.
              fold (getLicensesForModel m s). rewrite Hmodels.
              unfold issued. split; [intros [[? ?]|?]|intros [? ?]];
                try done; [split; [lia|done]|]. left. split; [lia|done].
           ++ fold (getLicensesForModel m s). rewrite Hmodels. unfold issued.
              split; intros [? ?]; (split; [lia|done]).
      * intros u. rewrite ids_of_insert.
        destruct (decide (to = u)) as [->|Hu]; [|apply Hnodup_u].
        apply NoDup_app. split_and!; [apply Hnodup_u| |apply NoDup_singleton].
        intros j Hin ->%list_elem_of_singleton.
        apply Husers in Hin as [Hin _]. by apply Hold in Hin.
      * intros m. rewrite ids_of_insert.
        destruct (decide (model = m)) as [->|Hm]; [|apply Hnodup_m].
        apply NoDup_app. split_and!; [apply Hnodup_m| |apply NoDup_singleton].
        intros j Hin ->%list_elem_of_singleton.
        apply Hmodels in Hin as [Hin _]. by apply Hold in Hin.
    + intros j. rewrite lookup_insert.
      destruct (decide (new = j)) as [<-|Hne]; simpl; [|apply Hquota].
      intros _. unfold quota; simpl. lia.
    + intros j Hj. rewrite lookup_insert.
      destruct (decide (new = j)) as [<-|Hne]; simpl; [lia|].
      apply Htimed. unfold issued. lia.
  - apply terms_eq in Hterms as (Hmodel & Hlicensee & _ & _ & Hissued & _).
    assert (forall j, licensee (lic (store i l' s) j) = licensee (lic s j)
                      /\ modelId (lic (store i l' s) j) = modelId (lic s j)
                      /\ issuedAt (lic (store i l' s) j) = issuedAt (lic s j)
                      /\ expiresAt (lic s j) <= expiresAt (lic (store i l' s) j))
      as Hsame.
    { intros j. destruct (decide (i = j)) as [<-|Hne];
        [by rewrite lic_store_eq | by rewrite lic_store_ne]. }
    split; [|split].
    + unfold indexes_agree, getLicensesForUser, getLicensesForModel, issued;
        cbn [store userLicenses modelLicenses licenseCounter].
      split_and!; try done.
      * intros u j. destruct (Hsame j) as (-> & _). apply Husers.
      * intros m j. destruct (Hsame j) as (_ & -> & _). apply Hmodels.
    + intros j. destruct (decide (i = j)) as [<-|Hne].
      * rewrite lic_store_eq. apply Hq, Hquota.
      * rewrite lic_store_ne by done. apply Hquota.
    + intros j Hj. destruct (Hsame j) as (_ & _ & -> & Hle).
      specialize (Htimed j Hj). lia.
Qed.

Lemma run_sound txs s : sound s -> sound (run txs s).
Proof.
  revert s. induction txs as [|[env c] txs IH]; intros s Hs; simpl; [done|].
  apply IH. by apply exec_sound.
Qed.

Lemma reachable_sound txs : sound (run txs initState).
Proof. apply run_sound, sound_init. Qed.

(** *** An issued license over further transactions *)

Lemma exec_issued env c s i :
  sound s -> issued s i ->
  issued (fst (exec env c s)) i
  /\ terms (lic (fst (exec env c s)) i) = terms (lic s i)
  /\ expiresAt (lic s i) <= expiresAt (lic (fst (exec env c s)) i).
Proof.
  intros Hs Hi.
  destruct (exec_cases env c s)
    as [->|[(model & to & lt & al & d & limit & evs & Hcall)
           |(j & l' & -> & Hterms & Hexp & _)]]; [done| |].
  - apply issueLicense_ok in Hcall as (_ & Hctr & _ & Hframe).
    unfold issued in *. rewrite Hctr, Hframe by lia. split_and!; try done; lia.
  - split; [done|]. destruct (decide (j = i)) as [->|Hne];
      [by rewrite lic_store_eq | by rewrite lic_store_ne].
Qed.

Lemma run_issued txs : forall s i,
  sound s -> issued s i ->
  issued (run txs s) i
  /\ terms (lic (run txs s) i) = terms (lic s i)
  /\ expiresAt (lic s i) <= expiresAt (lic (run txs s) i).
Proof.
  induction txs as [|[env c] txs IH]; intros s i Hs Hi; simpl; [done|].
  destruct (exec_issued env c s i Hs Hi) as (Hi1 & Ht1 & He1).
  destruct (IH _ i (exec_sound env c s Hs) Hi1) as (Hi2 & Ht2 & He2).
  split_and!; [done|congruence|lia].
Qed.

(** *** Who can change the storage *)

Lemma exec_authorized env c s :
  fst (exec env c s) = s \/ authorized env c s.
Proof.
  destruct c; simpl; auto.
  - destruct (issueLicense _ _ _ _ _ _ _ _) as [e|[[i' s'] evs]] eqn:Hcall;
      [by left|]. right. unfold issueLicense in Hcall. inv_code Hcall.
    exists x. split; [done|].
    apply orb_true_iff in Hm0 as [?%N.eqb_eq|?]; auto.
  - destruct (revokeLicense _ _ _) as [e|[s' evs]] eqn:Hcall; [by left|].
    right. unfold revokeLicense in Hcall. inv_code Hcall.
    exists x0. split; [done|].
    apply orb_true_iff in Hm1 as [?%N.eqb_eq|?]; auto.
  - destruct (recordUsage _ _ _ _) as [e|[s' evs]] eqn:Hcall; [by left|].
    right. by apply recordUsage_ok in Hcall as (? & _).
  - destruct (renewLicense _ _ _ _) as [e|[s' evs]] eqn:Hcall; [by left|].
    right. unfold renewLicense in Hcall. inv_code Hcall.
    exists x. split; [done|].
    apply orb_true_iff in Hm0 as [[?%N.eqb_eq|?%N.eqb_eq]%orb_true_iff|?];
      auto.
Qed.

(** *** A license right after issuance *)

Lemma issued_license_valid env model to lt al duration limit s licenseId s'
    evs env' requiredAccess :
  issueLicense env model to lt al duration limit s = inr (licenseId, s', evs) ->
  block_timestamp env' < block_timestamp env + duration ->
  validateLicense env' licenseId to requiredAccess s'
  = (uint requiredAccess <=? uint al)
  /\ (uint requiredAccess <= uint al ->
      hasValidLicense env' model to requiredAccess s' = true).
Proof.
  intros Hcall Htime.
  apply issueLicense_inv in Hcall as (-> & Hto & Hd & _ & -> & _).
  apply N.ltb_lt in Htime.
  set (new := licenseCounter s + 1).
  match goal with |- validateLicense _ _ _ _ ?st = _ /\ _ => set (s' := st) end.
  assert (lic s' new = mkLicense model to lt al (block_timestamp env)
                         (block_timestamp env + duration) true limit 0) as Hl.
  { unfold lic, s'; cbn [licenses]. by rewrite lookup_insert_eq. }
  assert (validateLicense env' new to requiredAccess s'
          = (uint requiredAccess <=? uint al)) as Hvalid.
  { unfold validateLicense. rewrite Hl; simpl. rewrite N.eqb_refl, Htime; simpl.
    destruct (limit =? 0) eqn:Hz; simpl; [done|].
    apply N.eqb_neq in Hz.
    assert ((0 <? limit) = true) as -> by (apply N.ltb_lt; lia). done. }
  split; [done|]. intros Hlevel. unfold hasValidLicense.
  apply existsb_exists. exists new. split.
  - apply list_elem_of_In. unfold s'; cbn [userLicenses].
    rewrite ids_of_insert, decide_True by done.
    apply elem_of_app. right. by apply list_elem_of_singleton.
  - rewrite Hl, Hvalid; simpl. rewrite N.eqb_refl; simpl. by apply N.leb_le.
Qed.

End ContractInvFacts.

(** ** Facts about PaymentProcessor *)
Module PaymentFacts.
Import PaymentProcessor.
Local Open Scope N_scope.

Lemma pay_bind_inr {A B} (m : result A) (k : A -> result B) b :
  bind m k = inr b -> exists a, m = inr a /\ k a = inr b.
Proof. destruct m as [e|a]; simpl; [done|]. eauto. Qed.

Lemma pay_require_inr cond reason u : require cond reason = inr u -> cond = true.
Proof. by destruct cond. Qed.

Lemma pay_checked_add_inr a b n :
  checked_add a b = inr n -> n = a + b /\ a + b < uint256_limit.
Proof.
  unfold checked_add. destruct (a + b <? uint256_limit) eqn:Hlt; [|done].
  apply N.ltb_lt in Hlt. by intros [= <-].
Qed.

Lemma checked_mul_inr a b n :
  checked_mul a b = inr n -> n = a * b /\ a * b < uint256_limit.
Proof.
  unfold checked_mul. destruct (a * b <? uint256_limit) eqn:Hlt; [|done].
  apply N.ltb_lt in Hlt. by intros [= <-].
Qed.

Lemma checked_sub_inr a b n : checked_sub a b = inr n -> n = a - b /\ b <= a.
Proof.
  unfold checked_sub. destruct (b <=? a) eqn:Hle; [|done].
  apply N.leb_le in Hle. by intros [= <-].
Qed.

Lemma at_index_inr {A} (a : list A) i x : at_index a i = inr x -> a !! i = Some x.
Proof. unfold at_index. destruct (a !! i); naive_solver. Qed.

Lemma pay_registry_ownerOf_inr env model o :
  registry_ownerOf env model = inr o -> ownerOf env model = Some o.
Proof. unfold registry_ownerOf. destruct (ownerOf env model); naive_solver. Qed.

Lemma send_inr env tok r x reason t :
  send env tok r x reason = inr t -> t = mkTransfer tok r x.
Proof.
  unfold send. intros H. apply pay_bind_inr in H as (_ & _ & H). by injection H.
Qed.

Ltac inv_atom H :=
  first [ apply pay_require_inr in H
        | apply pay_checked_add_inr in H as [-> H]
        | apply checked_mul_inr in H as [-> H]
        | apply checked_sub_inr in H as [-> H]
        | apply at_index_inr in H
        | apply pay_registry_ownerOf_inr in H
        | apply send_inr in H as ->
        | idtac ].

Ltac inv_code H :=
  cbv zeta in H;
  lazymatch type of H with
  | bind ?m ?k = inr _ =>
      let a := fresh "x" in
      let Hm := fresh "Hm" in
      apply pay_bind_inr in H as (a & Hm & H);
      inv_atom Hm; cbv beta in H; inv_code H
  | _ => idtac
  end.

(** *** setPaymentSplit *)

Lemma sum_shares_inr rs ss : forall t total,
  length rs = length ss ->
  sum_shares rs ss t = inr total ->
  Forall (fun r => r <> 0) rs /\ total = t + sum_list ss.
Proof.
  revert rs. induction ss as [|share ss IH]; intros [|r rs] t total Hlen H;
    try done.
  - injection H as <-. split; [constructor|]. simpl. lia.
  - cbn [sum_shares] in H. inv_code H.
    apply negb_true_iff, N.eqb_neq in Hm.
    apply IH in H as [Hrs ->]; [|by injection Hlen].
    split; [by constructor|]. simpl. lia.
Qed.

Lemma sum_list_le_head x l : x <= sum_list (x :: l).
Proof. simpl. lia. Qed.

Lemma sum_shares_valid rs ss : forall t,
  length rs = length ss ->
  Forall (fun r => r <> 0) rs ->
  t + sum_list ss < uint256_limit ->
  sum_shares rs ss t = inr (t + sum_list ss).
Proof.
  revert rs. induction ss as [|share ss IH]; intros [|r rs] t Hlen Hrs Hfit;
    try done.
  - simpl. by rewrite N.add_0_r.
  - apply Forall_cons in Hrs as [Hr Hrs]. cbn [sum_shares].
    apply N.eqb_neq in Hr. rewrite Hr; simpl. simpl in Hfit.
    unfold checked_add.
    assert ((t + share <? uint256_limit) = true) as -> by (apply N.ltb_lt; lia).
    simpl. rewrite IH; [f_equal; lia|by injection Hlen|done|lia].
Qed.

Lemma setPaymentSplit_inr env model rs ss s s' evs :
  setPaymentSplit env model rs ss s = inr (s', evs) ->
  valid_split (mkSplit rs ss true)
  /\ s' = mkState (<[model := mkSplit rs ss true]> (paymentSplits s))
                  (payments s) (modelPayments s) (userPayments s)
                  (platformFeePercentage s) (platformFeeRecipient s).
Proof.
  unfold setPaymentSplit. intros H. inv_code H.
  apply bool_decide_eq_true in Hm1, Hm2. apply N.eqb_eq in Hm4.
  apply sum_shares_inr in Hm3 as [Hrs Hsum]; [|done].
  injection H as <- <-. split; [|done].
  split_and!; simpl; try done. lia.
Qed.

(** *** The arithmetic of a distribution *)

Lemma pay_recipients_total env tok rem rs ss : forall paid,
  length rs = length ss ->
  pay_recipients env tok rem rs ss = inr paid ->
  Forall (fun t => 0 < value t /\ token t = tok) paid
  /\ exists dust,
      rem * sum_list ss = 100 * total paid + dust
      /\ dust <= 99 * N.of_nat (length rs).
Proof.
  revert ss. induction rs as [|r rs IH]; intros [|share ss] paid Hlen H;
    try done.
  - injection H as <-. split; [constructor|]. exists 0.
    unfold total; simpl. lia.
  - cbn [pay_recipients] in H. apply pay_bind_inr in H as (product & Hm & H).
    apply checked_mul_inr in Hm as [-> _].
    rewrite length_cons, Nat2N.inj_succ.
    pose proof (N.div_mod (rem * share) 100 ltac:(lia)) as Hdiv.
    pose proof (N.mod_lt (rem * share) 100 ltac:(lia)) as Hmod.
    destruct (0 <? rem * share / 100) eqn:Hpos.
    + apply pay_bind_inr in H as (t & Ht & H). apply send_inr in Ht as ->.
      apply pay_bind_inr in H as (rest & Hrest & H).
      injection H as <-. apply N.ltb_lt in Hpos.
      apply IH in Hrest as (Hall & dust & Hsum & Hdust); [|by injection Hlen].
      split; [by constructor|].
      exists (dust + (rem * share) mod 100).
      unfold total in *. cbn [sum_list foldr fmap list_fmap value].
      fold (sum_list ss). fold (sum_list (value <$> rest)).
      rewrite N.mul_add_distr_l. lia.
    + apply N.ltb_ge in Hpos.
      apply IH in H as (Hall & dust & Hsum & Hdust); [|by injection Hlen].
      split; [done|].
      exists (dust + (rem * share) mod 100).
      unfold total in *. cbn [sum_list foldr].
      fold (sum_list ss). rewrite N.mul_add_distr_l. lia.
Qed.

Lemma distribute_inr env tok paymentId s s' ts evs :
  distribute env tok paymentId s = inr (s', ts, evs) ->
  exists p,
    payments s !! N.to_nat paymentId = Some p
    /\ isProcessed p = false
    /\ isConfigured (split_of s (modelId p)) = true
    /\ s' = set_payment (N.to_nat paymentId) (set_isProcessed true p) s
    /\ exists paid,
        pay_recipients env tok
          (amount p - amount p * platformFeePercentage s / 10000)
          (recipients (split_of s (modelId p)))
          (shares (split_of s (modelId p))) = inr paid
        /\ amount p * platformFeePercentage s / 10000 <= amount p
        /\ total ts = amount p * platformFeePercentage s / 10000 + total paid
        /\ (Forall (fun t => 0 < value t /\ token t = tok) paid
            -> Forall (fun t => 0 < value t /\ token t = tok) ts).
Proof.
  unfold distribute. intros H.
  apply pay_bind_inr in H as (p & Hp & H). apply at_index_inr in Hp.
  apply pay_bind_inr in H as (? & Hproc & H).
  apply pay_require_inr, negb_true_iff in Hproc. cbv zeta in H.
  apply pay_bind_inr in H as (? & Hconf & H). apply pay_require_inr in Hconf.
  apply pay_bind_inr in H as (product & Hmul & H).
  apply checked_mul_inr in Hmul as [-> _]. cbv zeta in H.
  apply pay_bind_inr in H as (rem & Hsub & H).
  apply checked_sub_inr in Hsub as [-> Hle].
  apply pay_bind_inr in H as (fee & Hfee & H).
  apply pay_bind_inr in H as (paid & Hpaid & H).
  injection H as <- <- <-.
  exists p. split_and!; try done. exists paid. split; [done|].
  split; [done|].
  destruct (0 <? _) eqn:Hpos in Hfee.
  - apply pay_bind_inr in Hfee as (t & Ht & Hfee). apply send_inr in Ht as ->.
    injection Hfee as <-. split; [done|]. intros Hall.
    constructor; [|done]. split; [by apply N.ltb_lt|done].
  - injection Hfee as <-. apply N.ltb_ge in Hpos. rewrite app_nil_l.
    apply N.le_0_r in Hpos. rewrite Hpos. done.
Qed.

Lemma configured_valid s model :
  sound s -> isConfigured (split_of s model) = true ->
  valid_split (split_of s model).
Proof.
  intros (_ & _ & Hsplits). unfold split_of.
  destruct (paymentSplits s !! model) as [sp|] eqn:Hsp; simpl; [|done].
  intros _. by apply (Hsplits model).
Qed.

(** A distribution pays at most the amount, all but less than one unit per
    recipient of it, the platform fee at most 30 percent. *)
Lemma distribute_conserves env tok paymentId s s' ts evs :
  sound s ->
  distribute env tok paymentId s = inr (s', ts, evs) ->
  exists p,
    payments s !! N.to_nat paymentId = Some p
    /\ isProcessed p = false
    /\ s' = set_payment (N.to_nat paymentId) (set_isProcessed true p) s
    /\ total ts <= amount p
    /\ amount p - total ts
       < N.of_nat (length (recipients (split_of s (modelId p))))
    /\ Forall (fun t => 0 < value t /\ token t = tok) ts.
Proof.
  intros Hsound Hcall.
  apply distribute_inr in Hcall
    as (p & Hp & Hproc & Hconf & -> & paid & Hpaid & Hfee & Htotal & Hall).
  pose proof (configured_valid s (modelId p) Hsound Hconf)
    as (Hlen & Hpos & _ & Hsum).
  apply pay_recipients_total in Hpaid as (Hpaid & dust & Heq & Hdust);
    [|done].
  rewrite Hsum in Heq.
  set (fee := amount p * platformFeePercentage s / 10000) in *.
  exists p. split_and!; [done|done|done|lia|lia|by apply Hall].
Qed.

Lemma sound_constructor env a b pct r s :
  constructor env a b pct r = inr s -> sound s.
Proof.
  unfold constructor. intros H. inv_code H. injection H as <-.
  apply N.leb_le in Hm1. apply negb_true_iff, N.eqb_neq in Hm2.
  split_and!; simpl; done.
Qed.

Lemma sound_set_payment i p s : sound s -> sound (set_payment i p s).
Proof. by intros (? & ? & ?). Qed.

Lemma sound_push_payment p s : sound s -> sound (push_payment p s).
Proof. by intros (? & ? & ?). Qed.

Lemma distribute_state env tok paymentId s s' ts evs :
  distribute env tok paymentId s = inr (s', ts, evs) ->
  exists p, payments s !! N.to_nat paymentId = Some p
            /\ isProcessed p = false
            /\ s' = set_payment (N.to_nat paymentId) (set_isProcessed true p) s.
Proof.
  intros H. apply distribute_inr in H as (p & ? & ? & _ & ? & _). eauto.
Qed.

Lemma exec_payments env c s :
  let s' := fst (exec env c s) in
  marks (payments s) (payments s')
  \/ exists p, isProcessed p = false
               /\ marks (payments s ++ [p]) (payments s').
Proof.
  destruct c; simpl.
  - destruct (setPaymentSplit _ _ _ _ _) as [e|[s' evs]] eqn:Hcall;
      [by left; left|]. apply setPaymentSplit_inr in Hcall as [_ ->].
    by left; left.
  - destruct (processPayment _ _ _) as [e|[[s' ts] evs]] eqn:Hcall;
      [by left; left|]. simpl. unfold processPayment in Hcall.
    apply pay_bind_inr in Hcall as (? & _ & Hcall). cbv zeta in Hcall.
    right. match type of Hcall with
    | context [isConfigured ?x] => destruct (isConfigured x) eqn:Hconf
    end.
    + apply pay_bind_inr in Hcall as ([[s1 ts1] evs1] & Hd & Hcall).
      injection Hcall as <- <- <-.
      apply distribute_state in Hd as (p & Hp & Hproc & ->).
      match type of Hp with context [push_payment ?q _] => exists q end.
      split; [done|]. right. by eexists _, p.
    + injection Hcall as <- <- <-.
      match goal with |- context [push_payment ?q _] => exists q end.
      split; [done|]. by left.
  - destruct (processTokenPayment _ _ _ _ _) as [e|[[s' ts] evs]] eqn:Hcall;
      [by left; left|]. simpl. unfold processTokenPayment in Hcall.
    apply pay_bind_inr in Hcall as (? & _ & Hcall).
    apply pay_bind_inr in Hcall as (? & _ & Hcall).
    apply pay_bind_inr in Hcall as (? & _ & Hcall). cbv zeta in Hcall.
    right. match type of Hcall with
    | context [isConfigured ?x] => destruct (isConfigured x) eqn:Hconf
    end.
    + apply pay_bind_inr in Hcall as ([[s1 ts1] evs1] & Hd & Hcall).
      injection Hcall as <- <- <-.
      apply distribute_state in Hd as (p & Hp & Hproc & ->).
      match type of Hp with context [push_payment ?q _] => exists q end.
      split; [done|]. right. by eexists _, p.
    + injection Hcall as <- <- <-.
      match goal with |- context [push_payment ?q _] => exists q end.
      split; [done|]. by left.
  - destruct (distributePayment _ _ _) as [e|[[s' ts] evs]] eqn:Hcall;
      [by left; left|]. simpl. unfold distributePayment in Hcall.
    apply pay_bind_inr in Hcall as (? & _ & Hcall).
    apply pay_bind_inr in Hcall as (? & _ & Hcall).
    apply pay_bind_inr in Hcall as (? & _ & Hcall).
    apply distribute_state in Hcall as (p & Hp & Hproc & ->).
    left; right. by eexists _, p.
  - destruct (updatePlatformFee _ _ _) as [e|[s' evs]] eqn:Hcall;
      [by left; left|]. unfold updatePlatformFee in Hcall. inv_code Hcall.
    injection Hcall as <- <-. by left; left.
  - destruct (updatePlatformFeeRecipient _ _ _) as [e|[s' evs]] eqn:Hcall;
      [by left; left|]. unfold updatePlatformFeeRecipient in Hcall.
    inv_code Hcall. injection Hcall as <- <-. by left; left.
  - destruct (emergencyWithdraw _ _ _ _) as [e|[s' ts]] eqn:Hcall;
      [by left; left|]. unfold emergencyWithdraw in Hcall. inv_code Hcall.
    injection Hcall as <- <-. by left; left.
  - destruct (emergencyTokenWithdraw _ _ _ _ _) as [e|[s' ts]] eqn:Hcall;
      [by left; left|]. unfold emergencyTokenWithdraw in Hcall.
    inv_code Hcall. injection Hcall as <- <-. by left; left.
Qed.

Lemma pay_exec_sound env c s : sound s -> sound (fst (exec env c s)).
Proof.
  intros Hs. destruct c; simpl.
  - destruct (setPaymentSplit _ _ _ _ _) as [e|[s' evs]] eqn:Hcall; [done|].
    simpl. apply setPaymentSplit_inr in Hcall as [Hvalid ->].
    destruct Hs as (? & ? & Hsplits). split_and!; try done.
    intros m sp. cbn [paymentSplits]. rewrite lookup_insert.
    destruct (decide (model = m)); [by intros [= <-]|apply Hsplits].
  - destruct (processPayment _ _ _) as [e|[[s' ts] evs]] eqn:Hcall; [done|].
    simpl. unfold processPayment in Hcall.
    apply pay_bind_inr in Hcall as (? & _ & Hcall). cbv zeta in Hcall.
    match type of Hcall with
    | context [isConfigured ?x] => destruct (isConfigured x) eqn:Hconf
    end.
    + apply pay_bind_inr in Hcall as ([[s1 ts1] evs1] & Hd & Hcall).
      injection Hcall as <- <- <-.
      apply distribute_state in Hd as (p & Hp & Hproc & ->).
      by apply sound_set_payment, sound_push_payment.
    + injection Hcall as <- <- <-. by apply sound_push_payment.
  - destruct (processTokenPayment _ _ _ _ _) as [e|[[s' ts] evs]] eqn:Hcall;
      [done|]. simpl. unfold processTokenPayment in Hcall.
    apply pay_bind_inr in Hcall as (? & _ & Hcall).
    apply pay_bind_inr in Hcall as (? & _ & Hcall).
    apply pay_bind_inr in Hcall as (? & _ & Hcall). cbv zeta in Hcall.
    match type of Hcall with
    | context [isConfigured ?x] => destruct (isConfigured x) eqn:Hconf
    end.
    + apply pay_bind_inr in Hcall as ([[s1 ts1] evs1] & Hd & Hcall).
      injection Hcall as <- <- <-.
      apply distribute_state in Hd as (p & Hp & Hproc & ->).
      by apply sound_set_payment, sound_push_payment.
    + injection Hcall as <- <- <-. by apply sound_push_payment.
  - destruct (distributePayment _ _ _) as [e|[[s' ts] evs]] eqn:Hcall;
      [done|]. simpl. unfold distributePayment in Hcall.
    apply pay_bind_inr in Hcall as (? & _ & Hcall).
    apply pay_bind_inr in Hcall as (? & _ & Hcall).
    apply pay_bind_inr in Hcall as (? & _ & Hcall).
    apply distribute_state in Hcall as (p & Hp & Hproc & ->).
    by apply sound_set_payment.
  - destruct (updatePlatformFee _ _ _) as [e|[s' evs]] eqn:Hcall; [done|].
    simpl. unfold updatePlatformFee in Hcall.
    apply pay_bind_inr in Hcall as (? & _ & Hcall).
    apply pay_bind_inr in Hcall as (? & Hle & Hcall).
    apply pay_require_inr, N.leb_le in Hle. injection Hcall as <- <-.
    destruct Hs as (? & ? & ?). by split_and!.
  - destruct (updatePlatformFeeRecipient _ _ _) as [e|[s' evs]] eqn:Hcall;
      [done|]. simpl. unfold updatePlatformFeeRecipient in Hcall.
    apply pay_bind_inr in Hcall as (? & _ & Hcall).
    apply pay_bind_inr in Hcall as (? & Hnz & Hcall).
    apply pay_require_inr, negb_true_iff, N.eqb_neq in Hnz.
    injection Hcall as <- <-. destruct Hs as (? & ? & ?). by split_and!.
  - destruct (emergencyWithdraw _ _ _ _) as [e|[s' ts]] eqn:Hcall; [done|].
    simpl. unfold emergencyWithdraw in Hcall. inv_code Hcall.
    by injection Hcall as <- <-.
  - destruct (emergencyTokenWithdraw _ _ _ _ _) as [e|[s' ts]] eqn:Hcall;
      [done|]. simpl. unfold emergencyTokenWithdraw in Hcall. inv_code Hcall.
    by injection Hcall as <- <-.
Qed.

Lemma pay_run_sound txs s : sound s -> sound (run txs s).
Proof.
  revert s. induction txs as [|[env c] txs IH]; intros s Hs; simpl; [done|].
  apply IH. by apply pay_exec_sound.
Qed.

Lemma marks_keeps base after i p :
  marks base after -> base !! i = Some p ->
  exists p', after !! i = Some p' /\ receipt p' = receipt p
             /\ (isProcessed p = true -> isProcessed p' = true).
Proof.
  intros [->|(j & q & Hq & Hproc & ->)] Hp; [by exists p|].
  destruct (decide (j = i)) as [->|Hne].
  - assert (q = p) as -> by congruence.
    exists (set_isProcessed true p).
    rewrite list_lookup_insert_eq; [done|]. by eapply lookup_lt_Some.
  - exists p. by rewrite list_lookup_insert_ne.
Qed.

Lemma exec_keeps env c s i p :
  payments s !! i = Some p ->
  exists p', payments (fst (exec env c s)) !! i = Some p'
             /\ receipt p' = receipt p
             /\ (isProcessed p = true -> isProcessed p' = true).
Proof.
  intros Hp. destruct (exec_payments env c s) as [Hm|(q & _ & Hm)].
  - by eapply marks_keeps.
  - eapply marks_keeps; [done|]. by apply lookup_app_l_Some.
Qed.

Lemma run_keeps txs : forall s i p,
  payments s !! i = Some p ->
  exists p', payments (run txs s) !! i = Some p'
             /\ receipt p' = receipt p
             /\ (isProcessed p = true -> isProcessed p' = true).
Proof.
  induction txs as [|[env c] txs IH]; intros s i p Hp; simpl; [by exists p|].
  destruct (exec_keeps env c s i p Hp) as (p1 & Hp1 & Hr1 & Hproc1).
  destruct (IH _ i p1 Hp1) as (p2 & Hp2 & Hr2 & Hproc2).
  exists p2. split_and!; [done|congruence|auto].
Qed.

(** *** Calls that return *)

Lemma sum_list_bound ss : sum_list ss = 100 -> 0 + sum_list ss < uint256_limit.
Proof.
  intros ->. unfold uint256_limit. assert (2 ^ 7 <= 2 ^ 256); [|lia].
  apply N.pow_le_mono_r; lia.
Qed.

Lemma setPaymentSplit_returns env model rs ss s o :
  ownerOf env model = Some o ->
  o = msg_sender env \/ hasRole_PAYMENT_ADMIN env (msg_sender env) = true ->
  valid_split (mkSplit rs ss true) ->
  setPaymentSplit env model rs ss s
  = inr (mkState (<[model := mkSplit rs ss true]> (paymentSplits s))
                 (payments s) (modelPayments s) (userPayments s)
                 (platformFeePercentage s) (platformFeeRecipient s),
         [PaymentSplitUpdated model]).
Proof.
  intros Hown Hauth (Hlen & Hpos & Hrs & Hsum); simpl in *.
  unfold setPaymentSplit, registry_ownerOf. rewrite Hown; simpl.
  assert ((o =? msg_sender env) || hasRole_PAYMENT_ADMIN env (msg_sender env)
          = true) as ->.
  { rewrite orb_true_iff, N.eqb_eq. tauto. }
  simpl. rewrite !bool_decide_eq_true_2 by done. simpl.
  rewrite sum_shares_valid; [|done|done|by apply sum_list_bound].
  simpl. rewrite Hsum. done.
Qed.

Lemma setPaymentSplit_auth env model rs ss s s' evs o :
  ownerOf env model = Some o ->
  setPaymentSplit env model rs ss s = inr (s', evs) ->
  o = msg_sender env \/ hasRole_PAYMENT_ADMIN env (msg_sender env) = true.
Proof.
  intros Hown H. unfold setPaymentSplit, registry_ownerOf in H.
  rewrite Hown in H. simpl in H.
  destruct (_ || _) eqn:Hauth in H; [|done].
  apply orb_true_iff in Hauth as [?%N.eqb_eq|?]; auto.
Qed.

Lemma distributePayment_processed env paymentId s p :
  payments s !! N.to_nat paymentId = Some p ->
  isProcessed p = true ->
  exists e, distributePayment env paymentId s = inl e.
Proof.
  intros Hp Hproc. unfold distributePayment, at_index.
  destruct (hasRole_PAYMENT_ADMIN _ _); simpl; [|by eexists].
  rewrite Hp; simpl. rewrite Hproc; simpl. by eexists.
Qed.

Lemma distributePayment_processed_admin env paymentId s p :
  hasRole_PAYMENT_ADMIN env (msg_sender env) = true ->
  payments s !! N.to_nat paymentId = Some p ->
  isProcessed p = true ->
  distributePayment env paymentId s = inl (Revert "Payment already processed").
Proof.
  intros Hadm Hp Hproc. unfold distributePayment, at_index.
  rewrite Hadm; simpl. rewrite Hp; simpl. by rewrite Hproc.
Qed.

Lemma processPayment_inr env model s s' ts evs :
  processPayment env model s = inr (s', ts, evs) ->
  let p := mkPayment model (msg_sender env) (msg_value env) 0
                     (block_timestamp env) false in
  let paymentId := N.of_nat (length (payments s)) in
  0 < msg_value env
  /\ if isConfigured (split_of s model)
     then distribute env 0 paymentId (push_payment p s)
          = inr (s', ts, [PaymentDistributed paymentId model (msg_value env)])
     else s' = push_payment p s /\ ts = [].
Proof.
  unfold processPayment. intros H.
  apply pay_bind_inr in H as (? & Hpos & H). apply pay_require_inr, N.ltb_lt in Hpos.
  cbv zeta in H. split; [done|].
  change (split_of (push_payment _ s) model) with (split_of s model) in H.
  destruct (isConfigured (split_of s model)).
  - apply pay_bind_inr in H as ([[s1 ts1] evs1] & Hd & H).
    injection H as <- <- <-. rewrite Hd. repeat f_equal.
    unfold distribute in Hd. inv_code Hd.
    injection Hd as _ _ <-.
    rewrite Nat2N.id in Hm.
    unfold push_payment in Hm; cbn [payments] in Hm.
    rewrite lookup_app_r, Nat.sub_diag in Hm by done.
    by injection Hm as <-.
  - by injection H as <- <- <-.
Qed.

Lemma distribute_payments env tok paymentId s s' ts evs :
  distribute env tok paymentId s = inr (s', ts, evs) ->
  exists p, payments s !! N.to_nat paymentId = Some p
            /\ payments s'
               = <[N.to_nat paymentId := set_isProcessed true p]> (payments s)
            /\ modelPayments s' = modelPayments s
            /\ userPayments s' = userPayments s.
Proof.
  intros H. apply distribute_state in H as (p & Hp & _ & ->). by exists p.
Qed.

(** The payment that [processPayment] records. *)
Lemma processPayment_recorded env model s s' ts evs :
  processPayment env model s = inr (s', ts, evs) ->
  let paymentId := N.of_nat (length (payments s)) in
  payments s'
  = payments s ++ [mkPayment model (msg_sender env) (msg_value env) 0
                             (block_timestamp env)
                             (isConfigured (split_of s model))]
  /\ getPaymentsForModel model s' = getPaymentsForModel model s ++ [paymentId]
  /\ getPaymentsByUser (msg_sender env) s'
     = getPaymentsByUser (msg_sender env) s ++ [paymentId].
Proof.
  intros H. apply processPayment_inr in H as [_ H]. cbv zeta in H.
  unfold getPaymentsForModel, getPaymentsByUser.
  destruct (isConfigured (split_of s model)).
  - apply distribute_payments in H as (p & Hp & -> & -> & ->).
    rewrite Nat2N.id in *. unfold push_payment in *.
    cbn [payments modelPayments userPayments modelId payer] in *.
    rewrite lookup_app_r, Nat.sub_diag in Hp by done. injection Hp as <-.
    unfold ids_of. rewrite !lookup_insert_eq. split; [|done].
    rewrite insert_app_r_alt, Nat.sub_diag by done. done.
  - destruct H as [-> _]. unfold push_payment.
    cbn [payments modelPayments userPayments modelId payer].
    unfold ids_of. by rewrite !lookup_insert_eq.
Qed.

Lemma getPaymentDetails_spec paymentId s :
  getPaymentDetails paymentId s
  = match payments s !! N.to_nat paymentId with
    | Some p => inr p
    | None => inl (Revert "Invalid payment ID")
    end.
Proof.
  unfold getPaymentDetails, at_index.
  destruct (payments s !! N.to_nat paymentId) as [p|] eqn:Hp.
  - apply lookup_lt_Some in Hp.
    assert ((paymentId <? N.of_nat (length (payments s))) = true) as ->; [|done].
    apply N.ltb_lt. lia.
  - apply lookup_ge_None in Hp.
    assert ((paymentId <? N.of_nat (length (payments s))) = false) as ->; [|done].
    apply N.ltb_ge. lia.
Qed.

Lemma processTokenPayment_inr env model tok x s s' ts evs :
  processTokenPayment env model tok x s = inr (s', ts, evs) ->
  let p := mkPayment model (msg_sender env) x tok (block_timestamp env)
                     false in
  let paymentId := N.of_nat (length (payments s)) in
  0 < x /\ tok <> 0
  /\ token_transferFrom env tok (msg_sender env) x = true
  /\ if isConfigured (split_of s model)
     then exists evs',
         distribute env tok paymentId (push_payment p s) = inr (s', ts, evs')
     else s' = push_payment p s /\ ts = [].
Proof.
  unfold processTokenPayment. intros H.
  apply pay_bind_inr in H as (? & Hpos & H).
  apply pay_require_inr, N.ltb_lt in Hpos.
  apply pay_bind_inr in H as (? & Htok & H).
  apply pay_require_inr, negb_true_iff, N.eqb_neq in Htok.
  apply pay_bind_inr in H as (? & Hfrom & H). apply pay_require_inr in Hfrom.
  cbv zeta in H. split_and!; [done|done|done|].
  change (split_of (push_payment _ s) model) with (split_of s model) in H.
  destruct (isConfigured (split_of s model)).
  - apply pay_bind_inr in H as ([[s1 ts1] evs1] & Hd & H).
    injection H as <- <- _. by exists evs1.
  - by injection H as <- <- _.
Qed.

End PaymentFacts.

(** ** Facts about the update route and the resolver *)
Module RoutesFacts.
Import Backend BackendFacts Routes.
Local Open Scope Z_scope.

(** *** Looking a license up by its licenseId *)

Lemma licenseId_taken_false lid db :
  licenseId_taken lid db = false <->
  forall k l, licenses db !! k = Some l -> licenseId l <> lid.
Proof.
  unfold licenseId_taken. rewrite <- not_true_iff_false, existsb_exists.
  split.
  - intros Hno k l Hl Heq. apply Hno. exists (k, l). split.
    + apply list_elem_of_In. by apply elem_of_map_to_list.
    + by apply String.eqb_eq.
  - intros Hno ([k l] & Hin & Heq). apply String.eqb_eq in Heq.
    apply list_elem_of_In, elem_of_map_to_list in Hin. by eapply Hno.
Qed.

Lemma findOne_Some lid db l :
  findOne_licenseId lid db = Some l ->
  licenseId l = lid /\ exists k, licenses db !! k = Some l.
Proof.
  unfold findOne_licenseId. intros H.
  destruct (List.find _ _) as [[k l']|] eqn:Hfind; [|done].
  injection H as <-. apply find_some in Hfind as [Hin Heq].
  apply String.eqb_eq in Heq.
  apply list_elem_of_In, elem_of_map_to_list in Hin. eauto.
Qed.

Lemma findOne_None lid db :
  findOne_licenseId lid db = None <->
  forall k l, licenses db !! k = Some l -> licenseId l <> lid.
Proof.
  unfold findOne_licenseId. split.
  - intros H k l Hl Heq.
    destruct (List.find _ _) as [x|] eqn:Hfind; [done|].
    eapply find_none in Hfind;
      [|by apply list_elem_of_In, elem_of_map_to_list].
    simpl in Hfind. apply String.eqb_neq in Hfind. done.
  - intros Hno. destruct (List.find _ _) as [[k l]|] eqn:Hfind; [|done].
    apply find_some in Hfind as [Hin Heq]. apply String.eqb_eq in Heq.
    apply list_elem_of_In, elem_of_map_to_list in Hin. by destruct (Hno k l).
Qed.

Lemma findOne_unique db k l :
  licenseIds_unique db ->
  licenses db !! k = Some l ->
  findOne_licenseId (licenseId l) db = Some l.
Proof.
  intros Huniq Hl.
  destruct (findOne_licenseId (licenseId l) db) as [l'|] eqn:Hfind.
  - apply findOne_Some in Hfind as [Heq (k' & Hl')].
    assert (k' = k) as -> by by eapply Huniq. congruence.
  - rewrite findOne_None in Hfind. by destruct (Hfind k l).
Qed.

(** *** What a request can do to the stored documents *)

Lemma put_update_db now user key body db :
  fst (put_update now user key body db) = db
  \/ exists u l m,
      user = Some u /\ licenses db !! key = Some l
      /\ models db !! model l = Some m
      /\ (role u = "admin"%string \/ issuer l = id u \/ owner m = id u)
      /\ fst (put_update now user key body db)
         = mkDb (<[key := apply_update now body l]> (licenses db))
                (models db) (users db).
Proof.
  unfold put_update. repeat case_match; simpl; eauto.
  right. eexists _, _, _. split_and!; try done.
  match goal with H : _ && _ = false |- _ => rename H into Hauth end.
  rewrite !andb_false_iff, !negb_false_iff, !N.eqb_eq, is_admin_true in Hauth.
  tauto.
Qed.

Lemma core_cases now user r db :
  let db' := fst (Backend.handle now user r db) in
  db' = db
  \/ (exists fresh l,
         licenses db !! fresh = None
         /\ (forall k l0, licenses db !! k = Some l0 ->
                          licenseId l0 <> licenseId l)
         /\ isActive l = true /\ usageCount l = 0 /\ usageHistory l = []
         /\ db' = mkDb (<[fresh := l]> (licenses db)) (models db) (users db))
  \/ (exists u key l l',
         user = Some u /\ licenses db !! key = Some l
         /\ related u l db
         /\ db' = save now key l' db
         /\ ((exists reason, l' = revoke reason l)
             \/ (exists d, renew now d l = Some l')
             \/ (exists op dt, isValid now l = true
                               /\ l' = recordUsage now op dt l))).
Proof.
  destruct r as [fresh lid body|k reason|k duration|k op dt|lid required];
    simpl.
  - unfold post_license. repeat case_match; simpl; eauto.
    right; left. eexists fresh, _. split_and!; [done| |..|done]; try done.
    by apply licenseId_taken_false.
  - unfold put_revoke. repeat case_match; simpl; eauto.
    right; right. eexists _, k, _, _. split_and!; [done|done| |done|left; by eexists].
    match goal with H : _ && _ = false |- _ => rename H into Hauth end.
    rewrite !andb_false_iff, !negb_false_iff, !N.eqb_eq, is_admin_true
      in Hauth. unfold related. intuition eauto.
  - unfold put_renew. repeat case_match; simpl; eauto.
    right; right. eexists _, k, _, _.
    split_and!; [done|done| |done|right; left; by eexists].
    match goal with H : _ && _ = false |- _ => rename H into Hauth end.
    rewrite !andb_false_iff, !negb_false_iff, !N.eqb_eq, is_admin_true
      in Hauth. unfold related. intuition eauto.
  - unfold put_usage. repeat case_match; simpl; eauto.
    right; right. eexists _, k, _, _.
    split_and!; [done|done| |done|right; right; eexists _, _].
    + match goal with H : _ && _ = false |- _ => rename H into Hauth end.
      rewrite !andb_false_iff, !negb_false_iff, !N.eqb_eq, is_admin_true
        in Hauth. unfold related. intuition eauto.
    + split; [|done]. by apply negb_false_iff.
  - left. apply get_validate_db.
Qed.

Lemma evolves_refl l : evolves l l.
Proof. split_and!; [done|done|lia]. Qed.

Lemma evolves_trans l1 l2 l3 : evolves l1 l2 -> evolves l2 l3 -> evolves l1 l3.
Proof.
  intros (Hi1 & Hp1 & Hc1) (Hi2 & Hp2 & Hc2).
  split_and!; [congruence|by etrans|lia].
Qed.

Lemma evolves_licenseId l l' : evolves l l' -> licenseId l' = licenseId l.
Proof. unfold evolves, identity. by intros ([= ? _ _ _ _ _ _ _] & _). Qed.

Lemma evolves_updatedAt now l l' : evolves l l' -> evolves l (set_updatedAt now l').
Proof. intros (? & ? & ?). by split_and!. Qed.

Lemma evolves_revoke reason l : evolves l (revoke reason l).
Proof. split_and!; [done|done|simpl; lia]. Qed.

Lemma evolves_renew now d l l' : renew now d l = Some l' -> evolves l l'.
Proof.
  destruct l as [? ? ? ? ? ? ? exp act lim cnt ? ? ? ? ? ? ? ? ?].
  unfold renew; cbn [expiresAt]. destruct (valid_time _); [|done].
  cbn [negb]. intros [= <-]. simpl. destruct act; simpl;
    try destruct (cnt <? lim); (split_and!; [done|done|simpl; lia]).
Qed.

(** One request adds at most one entry to the history. *)
Lemma history_revoke reason l :
  usageHistory (revoke reason l) = usageHistory l.
Proof. done. Qed.

Lemma history_renew now d l l' :
  renew now d l = Some l' -> usageHistory l' = usageHistory l.
Proof.
  destruct l as [? ? ? ? ? ? ? exp act lim cnt ? ? ? ? ? ? ? ? ?].
  unfold renew; cbn [expiresAt]. destruct (valid_time _); [|done].
  cbn [negb]. intros [= <-]. simpl. destruct act; simpl;
    try destruct (cnt <? lim); done.
Qed.

Lemma history_recordUsage now op dt l :
  length (usageHistory (recordUsage now op dt l))
  = S (length (usageHistory l)).
Proof.
  destruct l as [? ? ? ? ? ? ? exp act lim cnt ? ? ? ? ? ? hist ? ?].
  unfold recordUsage; simpl. destruct (_ && _); simpl;
    rewrite length_app; simpl; lia.
Qed.

Lemma evolves_recordUsage now op dt l : evolves l (recordUsage now op dt l).
Proof.
  destruct l as [? ? ? ? ? ? ? exp act lim cnt ? ? ? ? ? ? hist ? ?].
  unfold recordUsage; simpl. destruct (_ && _); simpl;
    (split_and!; [done|by apply prefix_app_r|simpl; rewrite length_app; simpl; lia]).
Qed.

Lemma evolves_update now body l : evolves l (apply_update now body l).
Proof. split_and!; [done|done|simpl; lia]. Qed.

Lemma handle_keeps now user r db k l :
  licenses db !! k = Some l ->
  let db' := fst (handle now user r db) in
  models db' = models db /\ users db' = users db
  /\ exists l', licenses db' !! k = Some l' /\ evolves l l'
                /\ (l' = l \/ exists u, user = Some u /\ related u l db)
                /\ (length (usageHistory l')
                    <= S (length (usageHistory l)))%nat.
Proof.
  intros Hl. destruct r as [r|key body]; simpl.
  - destruct (core_cases now user r db)
      as [->|[(fresh & l0 & Hfree & _ & _ & _ & _ & ->)
             |(u & key & l1 & l' & -> & Hl1 & Hrel & -> & Hhow)]].
    + split_and!; try done. exists l.
      split_and!; [done|apply evolves_refl|by left|lia].
    + split_and!; try done. exists l. cbn [licenses].
      rewrite lookup_insert_ne by congruence.
      split_and!; [done|apply evolves_refl|by left|lia].
    + split_and!; try done. destruct (decide (key = k)) as [->|Hne].
      * rewrite lookup_save_eq. assert (l1 = l) as -> by congruence.
        eexists. split; [done|]. split; [|split; [by eauto|]].
        -- apply evolves_updatedAt.
           destruct Hhow as [[reason ->]|[[d Hd]|(op & dt & _ & ->)]];
             [apply evolves_revoke|by eapply evolves_renew
             |apply evolves_recordUsage].
        -- cbn [usageHistory set_updatedAt assign].
           destruct Hhow as [[reason ->]|[[d Hd]|(op & dt & _ & ->)]].
           ++ rewrite history_revoke. lia.
           ++ rewrite (history_renew _ _ _ _ Hd). lia.
           ++ rewrite history_recordUsage. lia.
      * rewrite lookup_save_ne by done. exists l.
        split_and!; [done|apply evolves_refl|by left|lia].
  - destruct (put_update_db now user key body db)
      as [->|(u & l1 & m & -> & Hl1 & Hm & Hauth & ->)].
    + split_and!; try done. exists l.
      split_and!; [done|apply evolves_refl|by left|lia].
    + split_and!; try done. cbn [licenses].
      destruct (decide (key = k)) as [->|Hne].
      * rewrite lookup_insert_eq. assert (l1 = l) as -> by congruence.
        eexists. split; [done|]. split; [apply evolves_update|].
        split; [|simpl; lia].
        right. exists u. split; [done|]. unfold related.
        destruct Hauth as [?|[?|?]]; eauto 6.
      * rewrite lookup_insert_ne by done. exists l.
        split_and!; [done|apply evolves_refl|by left|lia].
Qed.

Lemma related_stable u l l' db db' :
  identity l' = identity l -> models db' = models db ->
  related u l' db' <-> related u l db.
Proof.
  unfold identity, related. intros [= ? Hm Hl Hi ? ? ? ?] ->.
  by rewrite Hm, Hl, Hi.
Qed.

Lemma serve_keeps reqs : forall db k l,
  licenses db !! k = Some l ->
  models (serve reqs db) = models db
  /\ exists l', licenses (serve reqs db) !! k = Some l' /\ evolves l l'
                /\ (length (usageHistory l')
                    <= length (usageHistory l) + length reqs)%nat.
Proof.
  induction reqs as [|[[now user] r] reqs IH]; intros db k l Hl; simpl.
  - split; [done|]. exists l. split_and!; [done|apply evolves_refl|lia].
  - destruct (handle_keeps now user r db k l Hl)
      as (Hm & _ & l1 & Hl1 & Hev1 & _ & Hlen1).
    destruct (IH _ k l1 Hl1) as (Hm2 & l2 & Hl2 & Hev2 & Hlen2).
    split; [congruence|]. exists l2.
    split_and!; [done|by eapply evolves_trans|lia].
Qed.

Lemma serve_strangers reqs : forall db k l,
  licenses db !! k = Some l ->
  Forall (fun q => forall u, snd (fst q) = Some u -> ~ related u l db) reqs ->
  licenses (serve reqs db) !! k = Some l.
Proof.
  induction reqs as [|[[now user] r] reqs IH]; intros db k l Hl Hall; simpl;
    [done|].
  apply Forall_cons in Hall as [Hhead Hall]. simpl in Hhead.
  destruct (handle_keeps now user r db k l Hl)
    as (Hm & _ & l1 & Hl1 & _ & Hwho & _).
  destruct Hwho as [->|(u & Hu & Hrel)].
  - apply IH; [done|]. eapply Forall_impl; [exact Hall|].
    intros q Hq u Hu. rewrite related_stable; [by apply Hq|done|done].
  - by destruct (Hhead u Hu).
Qed.

(** *** The unique index on licenseId *)

Lemma handle_unique now user r db :
  licenseIds_unique db -> licenseIds_unique (fst (handle now user r db)).
Proof.
  intros Huniq. destruct r as [r|key body]; simpl.
  - destruct (core_cases now user r db)
      as [->|[(k0 & l0 & Hfree & Hnew & _ & _ & _ & ->)
             |(u & key & l1 & l' & -> & Hl1 & Hrel & -> & Hhow)]]; [done| |].
    + intros k1 k2 l1 l2. cbn [licenses].
      destruct (decide (k0 = k1)) as [<-|?],
        (decide (k0 = k2)) as [<-|?]; try done;
        rewrite ?lookup_insert_eq, ?lookup_insert_ne by done.
      * intros [= <-] Hl2 Heq. by destruct (Hnew k2 l2).
      * intros Hl1 [= <-] Heq. by destruct (Hnew k1 l1).
      * apply Huniq.
    + assert (licenseId (set_updatedAt now l') = licenseId l1) as Hsame.
      { apply evolves_licenseId, evolves_updatedAt.
        destruct Hhow as [[reason ->]|[[d Hd]|(op & dt & _ & ->)]];
          [apply evolves_revoke|by eapply evolves_renew
          |apply evolves_recordUsage]. }
      intros k1 k2 d1 d2.
      destruct (decide (key = k1)) as [<-|?],
        (decide (key = k2)) as [<-|?]; try done;
        rewrite ?lookup_save_eq, ?lookup_save_ne by done.
      * intros [= <-] Hd2 Heq. rewrite Hsame in Heq. by eapply Huniq.
      * intros Hd1 [= <-] Heq. rewrite Hsame in Heq. by eapply Huniq.
      * apply Huniq.
  - destruct (put_update_db now user key body db)
      as [->|(u & l1 & m & -> & Hl1 & Hm & Hauth & ->)]; [done|].
    intros k1 k2 d1 d2. cbn [licenses].
    destruct (decide (key = k1)) as [<-|?],
      (decide (key = k2)) as [<-|?]; try done;
      rewrite ?lookup_insert_eq, ?lookup_insert_ne by done.
    + intros [= <-] Hd2 Heq. by eapply Huniq.
    + intros Hd1 [= <-] Heq. by eapply Huniq.
    + apply Huniq.
Qed.

(** *** The usage cap *)

Lemma handle_within_cap now user r db :
  (forall k l, licenses db !! k = Some l -> within_cap l) ->
  forall k l, licenses (fst (Backend.handle now user r db)) !! k = Some l ->
              within_cap l.
Proof.
  intros Hcap.
  destruct (core_cases now user r db)
    as [->|[(fresh & l0 & Hfree & _ & _ & Hzero & _ & ->)
           |(u & key & l1 & l' & -> & Hl1 & Hrel & -> & Hhow)]]; [done| |].
  - intros k l. cbn [licenses].
    destruct (decide (fresh = k)) as [->|?];
      rewrite ?lookup_insert_eq, ?lookup_insert_ne by done; [|apply Hcap].
    intros [= <-]. unfold within_cap. lia.
  - intros k l. destruct (decide (key = k)) as [->|?];
      rewrite ?lookup_save_eq, ?lookup_save_ne by done; [|apply Hcap].
    intros [= <-]. specialize (Hcap _ _ Hl1). unfold within_cap in *.
    cbn [usageLimit usageCount set_updatedAt assign].
    destruct Hhow as [[reason ->]|[[d Hd]|(op & dt & Hvalid & ->)]].
    + done.
    + by destruct (renew_fields now d l1 l' Hd) as (_ & _ & -> & -> & _).
    + destruct (recordUsage_fields now op dt l1) as (-> & _ & _ & -> & _).
      apply isValid_true in Hvalid as (_ & _ & Hroom). lia.
Qed.

Lemma serve_within_cap reqs : forall db,
  (forall k l, licenses db !! k = Some l -> within_cap l) ->
  forall k l, licenses (Backend.serve reqs db) !! k = Some l -> within_cap l.
Proof.
  induction reqs as [|[[now user] r] reqs IH]; intros db Hcap; simpl; [done|].
  apply IH. by apply handle_within_cap.
Qed.

Lemma routes_handle_within_cap now user r db :
  keeps_limit r ->
  (forall k l, licenses db !! k = Some l -> within_cap l) ->
  forall k l, licenses (fst (handle now user r db)) !! k = Some l ->
              within_cap l.
Proof.
  intros Hkeeps Hcap. destruct r as [r|key body]; simpl in *.
  - by apply handle_within_cap.
  - destruct (put_update_db now user key body db)
      as [->|(u & l1 & m & -> & Hl1 & Hm & Hauth & ->)]; [done|].
    intros k l. cbn [licenses].
    destruct (decide (key = k)) as [->|?];
      rewrite ?lookup_insert_eq, ?lookup_insert_ne by done; [|apply Hcap].
    intros [= <-]. specialize (Hcap _ _ Hl1). unfold within_cap in *.
    cbn [usageLimit usageCount apply_update]. by rewrite Hkeeps.
Qed.

Lemma routes_serve_within_cap reqs : forall db,
  Forall (fun q => keeps_limit (snd q)) reqs ->
  (forall k l, licenses db !! k = Some l -> within_cap l) ->
  forall k l, licenses (serve reqs db) !! k = Some l -> within_cap l.
Proof.
  induction reqs as [|[[now user] r] reqs IH]; intros db Hall Hcap; simpl;
    [done|].
  apply Forall_cons in Hall as [Hhead Hall].
  apply IH; [done|]. by apply routes_handle_within_cap.
Qed.

(** *** Issuing, then validating *)

Lemma post_license_issued now fresh lid user body db db' st l :
  post_license now fresh lid user body db = (db', LicenseJson st l) ->
  licenseId l = lid
  /\ isIn (accessLevel l) accessLevels = true
  /\ db' = fst (handle now user (Core (PostLicense fresh lid body)) db).
Proof.
  intros H. split_and!; [| |by simpl; rewrite H].
  - unfold post_license in H. by repeat case_match; simplify_eq.
  - unfold post_license in H. repeat case_match; simplify_eq.
    match goal with H : negb (_ && _) = false |- _ =>
      apply negb_false_iff, andb_true_iff in H as [_ H] end.
    done.
Qed.

(** *** The GraphQL resolver against the REST route *)

Lemma resolver_agrees now u lid required db :
  isIn required accessLevels = true ->
  resolve_validateLicense now (Some u) lid required db
  = Some (says_valid (snd (get_validate now (Some u) lid required db))).
Proof.
  intros Hreq. unfold resolve_validateLicense, get_validate. rewrite Hreq.
  simpl. by repeat case_match.
Qed.

Lemma indexOf_from_unknown x l : forall i,
  isIn x l = false -> indexOf_from i x l = -1.
Proof.
  induction l as [|y l IH]; intros i Hno; simpl in *; [done|].
  apply orb_false_iff in Hno as [Hy Hl].
  rewrite String.eqb_sym in Hy. rewrite Hy. by apply IH.
Qed.

Lemma indexOf_from_known x l : forall i,
  0 <= i -> isIn x l = true -> 0 <= indexOf_from i x l.
Proof.
  induction l as [|y l IH]; intros i Hi Hin; simpl in *; [done|].
  destruct (String.eqb y x) eqn:E; [done|]. apply IH; [lia|].
  rewrite String.eqb_sym, E in Hin. done.
Qed.

Lemma resolver_unknown_level now u lid required db l :
  isIn required accessLevels = false ->
  isIn (accessLevel l) accessLevels = true ->
  findOne_licenseId lid db = Some l ->
  resolve_validateLicense now (Some u) lid required db
  = Some (isValid now l && (licensee l =? id u)%N).
Proof.
  intros Hreq Hlevel Hl. unfold resolve_validateLicense. rewrite Hl.
  destruct (isValid now l); simpl; [|done].
  destruct (licensee l =? id u)%N; simpl; [|done].
  unfold indexOf. rewrite (indexOf_from_unknown required) by done.
  pose proof (indexOf_from_known (accessLevel l) accessLevels 0 ltac:(lia)
                Hlevel) as Hge.
  fold (indexOf (accessLevel l) accessLevels) in *.
  destruct (_ <? -1) eqn:Hlt; [apply Z.ltb_lt in Hlt; lia|done].
Qed.

End RoutesFacts.


(** ** The properties of the design, one theorem each *)

(** C1 (backend). For the licensee, with every other condition met, the
    validate route answers [isValid: true] at the very instant [expiresAt]
    (clock 1000 for [license1]): the current time is then not strictly
    before [expiresAt], so ValidateLicense has to answer false.  The
    contract's [validateLicense] does answer false there
    ([ContractFacts.validateLicense_expired]). *)
Theorem C1_validate_route_at_expiry :
  Backend.expiresAt Samples.license1 = 1000%Z
  /\ Backend.get_validate 1000 (Some Samples.alice) "LIC-1" "ReadOnly"
                          Samples.db1
     = (Samples.db1, Backend.Valid Samples.license1).
Proof. split; [reflexivity | vm_compute; reflexivity]. Qed.

(** C5 (backend). [isValid] holds of an active license with usage to spare
    at the boundary instant now = expiresAt, where every license has to be
    invalid. *)
Theorem C5_isValid_at_expiry :
  Backend.isValid (Backend.expiresAt Samples.license1) Samples.license1 = true.
Proof. reflexivity. Qed.

(** C8 (backend). The usage route records a use at the instant
    now = expiresAt instead of rejecting the call as expired. *)
Theorem C8_usage_route_at_expiry :
  let r := Backend.put_usage 1000 (Some Samples.alice) 11 "inference" "{}"
                             Samples.db1 in
  Backend.expiresAt Samples.license1 = 1000%Z
  /\ Backend.succeeded (snd r) = true
  /\ Backend.usage Samples.db1 11 = 0%Z
  /\ Backend.usage (fst r) 11 = 1%Z.
Proof. vm_compute. done. Qed.

(** C6 (backend). Revoking a license that is already inactive succeeds
    through the revoke route and replaces the recorded reason, where the
    second revocation has to be rejected as AlreadyInactive. *)
Theorem C6_revoke_route_twice :
  let r1 := Backend.put_revoke 10 (Some Samples.bob) 11 "policy violation"
                               Samples.db1 in
  let r2 := Backend.put_revoke 20 (Some Samples.root) 11 "cleanup" (fst r1) in
  Backend.isActive <$> Backend.licenses (fst r1) !! 11%N = Some false
  /\ Backend.revocationReason <$> Backend.licenses (fst r1) !! 11%N
     = Some (Some "policy violation"%string)
  /\ Backend.succeeded (snd r2) = true
  /\ Backend.revocationReason <$> Backend.licenses (fst r2) !! 11%N
     = Some (Some "cleanup"%string).
Proof. vm_compute. done. Qed.

(** C2. A fresh license with usageLimit = 5 takes five uses of one each and
    is then inactive, and a sixth use is rejected because the license is not
    active; whenever a recorded use takes usageCount to a positive
    usageLimit, that same operation switches isActive off.  In the contract
    the uses are [recordUsage(licenseId, 1)] by a license admin before
    expiry and the sixth fails with [NotActive]; in the backend they are
    requests to the usage route by the licensee or an admin, and the sixth
    is answered 400 "License is not valid". *)
Theorem C2_usage_limit_five :
  (forall env0 model to lt al duration s licenseId s1 evs envs env6,
      Contract.issueLicense env0 model to lt al duration 5 s
      = inr (licenseId, s1, evs) ->
      length envs = 5%nat ->
      Forall (fun e =>
                Contract.hasRole_LICENSE_ADMIN e (Contract.msg_sender e) = true
                /\ (Contract.block_timestamp e
                    < Contract.block_timestamp env0 + duration)%N) envs ->
      Contract.hasRole_LICENSE_ADMIN env6 (Contract.msg_sender env6) = true ->
      exists s6,
        Contract.record_each envs licenseId s1 = inr s6
        /\ Contract.isActive (Contract.lic s6 licenseId) = false
        /\ Contract.recordUsage env6 licenseId 1 s6 = inl Contract.NotActive)
  /\ (forall env licenseId usageAmount s s' evs,
         Contract.recordUsage env licenseId usageAmount s = inr (s', evs) ->
         (0 < Contract.usageLimit (Contract.lic s licenseId))%N ->
         (Contract.usageLimit (Contract.lic s licenseId)
          <= Contract.usageCount (Contract.lic s' licenseId))%N ->
         Contract.isActive (Contract.lic s' licenseId) = false)
  /\ (forall now0 fresh lid user0 body db db1 st l calls op dt now6 u6,
         Backend.post_license now0 fresh lid user0 body db
         = (db1, Backend.LicenseJson st l) ->
         Backend.b_usageLimit body = Some 5%Z ->
         op <> ""%string ->
         length calls = 5%nat ->
         Forall (fun c => Backend.may_record (snd c) l
                          /\ (fst c <= Backend.expiresAt l)%Z) calls ->
         Backend.may_record u6 l ->
         exists db6 l6,
           Backend.usage_each calls fresh op dt db1 = Some db6
           /\ Backend.licenses db6 !! fresh = Some l6
           /\ Backend.isActive l6 = false
           /\ Backend.put_usage now6 (Some u6) fresh op dt db6
              = (db6, Backend.Message 400 "License is not valid"))
  /\ (forall now op dt l,
         (0 < Backend.usageLimit l)%Z ->
         (Backend.usageLimit l
          <= Backend.usageCount (Backend.recordUsage now op dt l))%Z ->
         Backend.isActive (Backend.recordUsage now op dt l) = false).
Proof.
  split_and!.
  - intros env0 model to lt al duration s licenseId s1 evs envs env6
      Hissue Hlen Hok Hadm.
    apply ContractFacts.issueLicense_ok in Hissue as (_ & _ & Hl & _).
    destruct (ContractFacts.record_each_five envs s1 licenseId _ _ _ _ _ _
                Hl Hlen Hok) as (s6 & Hrun & Hl6).
    exists s6. split; [done|]. rewrite Hl6. split; [done|].
    apply ContractFacts.recordUsage_not_active; [done|]. by rewrite Hl6.
  - intros. by eapply ContractFacts.recordUsage_cap.
  - intros now0 fresh lid user0 body db db1 st l calls op dt now6 u6
      Hissue Hlim Hop Hlen Hok Hauth.
    apply BackendFacts.post_license_ok in Hissue
      as (_ & Hl & Hact & Hcnt & Hlimit & _).
    rewrite Hlim in Hlimit.
    destruct (BackendFacts.usage_each_five calls fresh op dt db1 l)
      as (db6 & l6 & Hrun & Hl6 & Hoff & _ & _ & Hsame); try done.
    exists db6, l6. split_and!; try done.
    apply (BackendFacts.put_usage_invalid _ _ _ _ _ _ l6); try done.
    + unfold Backend.may_record in *. by rewrite Hsame.
    + unfold Backend.isValid. by rewrite Hoff.
  - intros now op dt l Hpos Hcap.
    destruct (BackendFacts.recordUsage_fields now op dt l)
      as (Hc & _ & -> & _).
    rewrite Hc in Hcap. apply Z.ltb_lt in Hpos. apply Z.leb_le in Hcap.
    rewrite Hpos, Hcap. by rewrite andb_false_r.
Qed.

Lemma C2_usage_limit_five_witness :
  (exists s6,
      Contract.record_each
        [Samples.env 9 200; Samples.env 9 300; Samples.env 9 400;
         Samples.env 9 500; Samples.env 9 600] 1 Samples.s1 = inr s6
      /\ Contract.isActive (Contract.lic s6 1) = false
      /\ Contract.recordUsage (Samples.env 9 700) 1 1 s6
         = inl Contract.NotActive)
  /\ Contract.isActive
       (Contract.lic
          (Contract.store 1
             (Contract.set_isActive false
                (Contract.set_usageCount 5 (Contract.lic Samples.s1 1)))
             Samples.s1) 1) = false
  /\ (exists db6 l6,
        Backend.usage_each
          [(100%Z, Samples.alice); (200%Z, Samples.alice);
           (300%Z, Samples.root); (400%Z, Samples.alice);
           (1000%Z, Samples.alice)] 11 "inference" "{}" Samples.db1
        = Some db6
        /\ Backend.licenses db6 !! 11%N = Some l6
        /\ Backend.isActive l6 = false
        /\ Backend.put_usage 500 (Some Samples.alice) 11 "inference" "{}" db6
           = (db6, Backend.Message 400 "License is not valid"))
  /\ Backend.isActive
       (Backend.recordUsage 7 "inference" "{}"
          (Backend.set_usageCount 4 Samples.license1)) = false.
Proof.
  destruct C2_usage_limit_five as (Hscenario & Hcap & Hroute & Hmethod).
  split_and!.
  - apply (Hscenario (Samples.env 7 100) 1%N 5%N Contract.Commercial
             Contract.InferenceOnly 3600%N Contract.initState 1%N Samples.s1
             [Contract.LicenseIssued 1 1 5]).
    + reflexivity.
    + reflexivity.
    + repeat constructor.
    + reflexivity.
  - apply (Hcap (Samples.env 9 200) 1%N 5%N Samples.s1 _
             [Contract.LicenseUsed 1 5; Contract.LicenseExpired 1]).
    + reflexivity.
    + reflexivity.
    + vm_compute. discriminate.
  - apply (Hroute 0%Z 11%N "LIC-1"%string (Some Samples.bob) Samples.body1
             (Backend.mkDb ∅ (Backend.models Samples.db1)
                           (Backend.users Samples.db1))
             Samples.db1 201%N Samples.license1).
    + vm_compute. reflexivity.
    + reflexivity.
    + discriminate.
    + reflexivity.
    + repeat (constructor;
              [split; [first [by right | by left] | cbn; lia]|]).
      constructor.
    + by right.
  - apply Hmethod; [reflexivity | vm_compute; discriminate].
Defined.

(** C3. A renewal with additionalDuration > 0 sets expiresAt to
    now + additionalDuration when now >= expiresAt, and to the old
    expiresAt + additionalDuration when now < expiresAt.  The call returns
    for every authorized caller whenever the new expiry can be stored:
    below 2^256 in the contract, a date (within 8.64e15 ms of the epoch)
    in the backend, where the clock runs in milliseconds and the route
    takes the duration in seconds, hence the factor 1000.  Outside these
    bounds the contract reverts and the route answers 500
    ([BackendFacts.put_renew_invalid_date]), expiresAt staying as it was. *)
Theorem C3_renew_expiry :
  (forall env licenseId d s,
      let l := Contract.lic s licenseId in
      let now := Contract.block_timestamp env in
      Contract.may_renew env l ->
      (0 < d)%N ->
      (N.max now (Contract.expiresAt l) + d < Contract.uint256_limit)%N ->
      exists s' evs,
        Contract.renewLicense env licenseId d s = inr (s', evs)
        /\ ((Contract.expiresAt l <= now)%N ->
            Contract.expiresAt (Contract.lic s' licenseId) = (now + d)%N)
        /\ ((now < Contract.expiresAt l)%N ->
            Contract.expiresAt (Contract.lic s' licenseId)
            = (Contract.expiresAt l + d)%N))
  /\ (forall now u key duration db l m,
         (1 <= duration)%Z ->
         Backend.licenses db !! key = Some l ->
         Backend.models db !! Backend.model l = Some m ->
         Backend.may_renew u l m ->
         Backend.valid_time
           (Z.max now (Backend.expiresAt l) + duration * 1000) = true ->
         exists db' l',
           Backend.put_renew now (Some u) key duration db
           = (db', Backend.LicenseJson 200 l')
           /\ Backend.licenses db' !! key = Some l'
           /\ ((Backend.expiresAt l <= now)%Z ->
               Backend.expiresAt l' = (now + duration * 1000)%Z)
           /\ ((now < Backend.expiresAt l)%Z ->
               Backend.expiresAt l'
               = (Backend.expiresAt l + duration * 1000)%Z)).
Proof.
  split.
  - intros env licenseId d s l now Hauth Hd Hfit.
    destruct (ContractFacts.renewLicense_returns env licenseId d s)
      as (s' & evs & Hcall & Hexp & _); try done.
    { fold l now. destruct (Contract.expiresAt l <=? now)%N; lia. }
    exists s', evs. split; [done|]. rewrite Hexp. fold l now.
    split; intros Hcmp.
    + apply N.leb_le in Hcmp. by rewrite Hcmp.
    + apply N.leb_gt in Hcmp. by rewrite Hcmp.
  - intros now u key duration db l m Hd Hl Hm Hauth Hrange.
    apply BackendFacts.renew_is_Some in Hrange as [l0 Hrenew].
    eexists _, _. split.
    { rewrite (BackendFacts.put_renew_returns now u key duration db l m)
        by done. by rewrite Hrenew. }
    rewrite BackendFacts.lookup_save_eq. split; [done|].
    destruct (BackendFacts.renew_fields now duration l l0 Hrenew)
      as (Hexp & _).
    cbn [Backend.expiresAt Backend.set_updatedAt Backend.assign].
    rewrite Hexp. split; intros Hcmp.
    + destruct (Backend.expiresAt l <? now)%Z eqn:Hlt; [done|].
      apply Z.ltb_ge in Hlt. assert (now = Backend.expiresAt l) as -> by lia.
      done.
    + apply Z.lt_le_incl, Z.ltb_ge in Hcmp. by rewrite Hcmp.
Qed.

Lemma C3_renew_expiry_witness :
  (exists s' evs,
      Contract.renewLicense (Samples.env 5 4000) 1 60 Samples.s1
      = inr (s', evs)
      /\ Contract.expiresAt (Contract.lic Samples.s1 1) = 3700%N
      /\ Contract.expiresAt (Contract.lic s' 1) = 4060%N)
  /\ (exists s' evs,
         Contract.renewLicense (Samples.env 5 200) 1 60 Samples.s1
         = inr (s', evs)
         /\ Contract.expiresAt (Contract.lic s' 1) = 3760%N)
  /\ (exists db' l',
         Backend.put_renew 2000 (Some Samples.alice) 11 60 Samples.db1
         = (db', Backend.LicenseJson 200 l')
         /\ Backend.expiresAt Samples.license1 = 1000%Z
         /\ Backend.expiresAt l' = 62000%Z)
  /\ (exists db' l',
         Backend.put_renew 400 (Some Samples.alice) 11 60 Samples.db1
         = (db', Backend.LicenseJson 200 l')
         /\ Backend.expiresAt l' = 61000%Z).
Proof.
  destruct C3_renew_expiry as [Hcontract Hbackend].
  assert (Contract.may_renew (Samples.env 5 4000)
            (Contract.lic Samples.s1 1)) as Hmay1.
  { exists 7%N. split; [reflexivity|]. right. left. reflexivity. }
  assert (Contract.may_renew (Samples.env 5 200)
            (Contract.lic Samples.s1 1)) as Hmay2.
  { exists 7%N. split; [reflexivity|]. right. left. reflexivity. }
  assert (Backend.may_renew Samples.alice Samples.license1
            (Backend.mkModel 7%N)) as Hmay3.
  { right. left. reflexivity. }
  split_and!.
  - destruct (Hcontract (Samples.env 5 4000) 1%N 60%N Samples.s1 Hmay1)
      as (s' & evs & Hcall & Hlate & _); [reflexivity|reflexivity|].
    exists s', evs. split; [exact Hcall|]. split; [reflexivity|].
    apply Hlate. vm_compute. discriminate.
  - destruct (Hcontract (Samples.env 5 200) 1%N 60%N Samples.s1 Hmay2)
      as (s' & evs & Hcall & _ & Hearly); [reflexivity|reflexivity|].
    exists s', evs. split; [exact Hcall|]. apply Hearly. reflexivity.
  - destruct (Hbackend 2000%Z Samples.alice 11%N 60%Z Samples.db1
                Samples.license1 (Backend.mkModel 7%N))
      as (db' & l' & Hcall & _ & Hlate & _);
      [vm_compute; discriminate|reflexivity|reflexivity|exact Hmay3
      |reflexivity|].
    exists db', l'. split; [exact Hcall|]. split; [reflexivity|].
    apply Hlate. vm_compute. discriminate.
  - destruct (Hbackend 400%Z Samples.alice 11%N 60%Z Samples.db1
                Samples.license1 (Backend.mkModel 7%N))
      as (db' & l' & Hcall & _ & _ & Hearly);
      [vm_compute; discriminate|reflexivity|reflexivity|exact Hmay3
      |reflexivity|].
    exists db', l'. split; [exact Hcall|]. apply Hearly. reflexivity.
Defined.

(** C4 (both implementations).  The guard of the reactivation in
    [renewLicense] and in [renew] is [!isActive && usageCount < usageLimit],
    under the comment "Reactivate license if it was inactive due to
    expiration".  It fails the rule in both directions.  A license switched
    off by revocation alone, with usage to spare under its limit of five,
    is active again after a renewal.  An inactive license without a limit
    (usageLimit = 0, which [validateLicense] and [isValid] read as
    unlimited) stays inactive through a renewal, although the rule names
    usageLimit == 0 as a case for reactivation.  In general the flag after
    a renewal is [isActive || usageCount < usageLimit]
    ([ContractFacts.renewLicense_ok], [BackendFacts.renew_fields]). *)
Theorem C4_renew_reactivation_guard :
  (let s2 := fst (Contract.exec (Samples.env 7 200)
                    (Contract.RevokeLicense 1) Samples.s1) in
   let s3 := fst (Contract.exec (Samples.env 5 300)
                    (Contract.RenewLicense 1 60) s2) in
   Contract.isActive (Contract.lic Samples.s1 1) = true
   /\ Contract.isActive (Contract.lic s2 1) = false
   /\ Contract.usageCount (Contract.lic s2 1) = 0%N
   /\ Contract.usageLimit (Contract.lic s2 1) = 5%N
   /\ Contract.isActive (Contract.lic s3 1) = true)
  /\ (let d2 := fst (Backend.put_revoke 200 (Some Samples.bob) 11
                       "policy violation" Samples.db1) in
      let d3 := fst (Backend.put_renew 300 (Some Samples.alice) 11 60 d2) in
      Backend.isActive <$> Backend.licenses d2 !! 11%N = Some false
      /\ Backend.usageCount <$> Backend.licenses d2 !! 11%N = Some 0%Z
      /\ Backend.usageLimit <$> Backend.licenses d2 !! 11%N = Some 5%Z
      /\ Backend.isActive <$> Backend.licenses d3 !! 11%N = Some true)
  /\ (let u1 := fst (Contract.exec (Samples.env 7 100)
                       (Contract.IssueLicense 1 5 Contract.Commercial
                                              Contract.InferenceOnly 3600 0)
                       Contract.initState) in
      let u2 := fst (Contract.exec (Samples.env 7 200)
                       (Contract.RevokeLicense 1) u1) in
      let u3 := fst (Contract.exec (Samples.env 5 300)
                       (Contract.RenewLicense 1 60) u2) in
      Contract.usageLimit (Contract.lic u1 1) = 0%N
      /\ Contract.validateLicense (Samples.env 5 150) 1 5
                                  Contract.InferenceOnly u1 = true
      /\ Contract.isActive (Contract.lic u2 1) = false
      /\ Contract.expiresAt (Contract.lic u3 1) = 3760%N
      /\ Contract.isActive (Contract.lic u3 1) = false)
  /\ (let body0 :=
        Backend.mkIssueBody (Some 1%N) (Some 5%N) "Commercial"
                            "InferenceOnly" (Some 1000%Z) None None None
                            None [] in
      let e1 := fst (Backend.post_license 10 12 "LIC-2" (Some Samples.bob)
                                           body0 Samples.db1) in
      let e2 := fst (Backend.put_revoke 200 (Some Samples.bob) 12
                                         "policy violation" e1) in
      let e3 := fst (Backend.put_renew 300 (Some Samples.alice) 12 60 e2) in
      Backend.usageLimit <$> Backend.licenses e1 !! 12%N = Some 0%Z
      /\ Backend.isValid 500 <$> Backend.licenses e1 !! 12%N = Some true
      /\ Backend.isActive <$> Backend.licenses e2 !! 12%N = Some false
      /\ Backend.expiresAt <$> Backend.licenses e3 !! 12%N = Some 61000%Z
      /\ Backend.isActive <$> Backend.licenses e3 !! 12%N = Some false).
Proof. vm_compute. done. Qed.

(** C7. An issue request by an identity that is neither the owner of the
    model nor an admin is refused as unauthorized and changes nothing: the
    contract call reverts with "Caller is not the model owner or admin",
    leaving the licenses, the counter and both indexes as they were; the
    backend route leaves every collection as it was and, for a body that
    passes validation, answers 403. *)
Theorem C7_issue_unauthorized :
  (forall env model to lt al duration limit s o,
      Contract.ownerOf env model = Some o ->
      o <> Contract.msg_sender env ->
      Contract.hasRole_LICENSE_ADMIN env (Contract.msg_sender env) = false ->
      Contract.exec env (Contract.IssueLicense model to lt al duration limit) s
      = (s, Contract.Reverted Contract.Unauthorized_issue))
  /\ (forall now fresh lid u body db modelId m,
         Backend.b_modelId body = Some modelId ->
         Backend.models db !! modelId = Some m ->
         Backend.owner m <> Backend.id u ->
         Backend.role u <> "admin"%string ->
         fst (Backend.post_license now fresh lid (Some u) body db) = db
         /\ (Backend.valid_issue_body body = true ->
             snd (Backend.post_license now fresh lid (Some u) body db)
             = Backend.Message 403
                 "Not authorized to issue license for this model")).
Proof.
  split.
  - intros env model to lt al duration limit s o Hown Hne Hadm.
    cbn [Contract.exec].
    by rewrite (ContractFacts.issueLicense_unauthorized _ _ _ _ _ _ _ _ o).
  - intros. by eapply BackendFacts.post_license_unauthorized.
Qed.

Lemma C7_issue_unauthorized_witness :
  Contract.exec (Samples.env 8 100)
                (Contract.IssueLicense 1 8 Contract.Enterprise
                                       Contract.FullAccess 3600 0)
                Samples.s1
  = (Samples.s1, Contract.Reverted Contract.Unauthorized_issue)
  /\ Backend.post_license 50 12 "LIC-2" (Some Samples.mallory) Samples.body1
                          Samples.db1
     = (Samples.db1,
        Backend.Message 403 "Not authorized to issue license for this model").
Proof.
  destruct C7_issue_unauthorized as [Hcontract Hbackend]. split.
  - apply (Hcontract (Samples.env 8 100) 1%N 8%N Contract.Enterprise
             Contract.FullAccess 3600%N 0%N Samples.s1 7%N);
      [reflexivity | discriminate | reflexivity].
  - destruct (Hbackend 50%Z 12%N "LIC-2"%string Samples.mallory Samples.body1
                Samples.db1 1%N (Backend.mkModel 7%N))
      as [Hdb Hreply]; [reflexivity|reflexivity|discriminate|discriminate|].
    rewrite (surjective_pairing (Backend.post_license _ _ _ _ _ _)).
    rewrite Hdb, Hreply; reflexivity.
Defined.

(** C9. The usageCount of a license never decreases.  Contract: whatever
    transactions ran since deployment and whatever transactions follow,
    the count read at an id afterwards is at least the count read before
    (an id not issued yet reads 0).  Backend: from any state of the
    collections and for any requests, the count of the document under a
    key afterwards is at least the count before. *)
Theorem C9_usageCount_monotone :
  (forall txs txs' licenseId,
      (Contract.usageCount
         (Contract.lic (Contract.run txs Contract.initState) licenseId)
       <= Contract.usageCount
            (Contract.lic (Contract.run (txs ++ txs') Contract.initState)
                          licenseId))%N)
  /\ (forall reqs db key,
         (Backend.usage db key <= Backend.usage (Backend.serve reqs db) key)%Z).
Proof.
  split.
  - intros txs txs' licenseId. rewrite ContractFacts.run_app.
    apply ContractFacts.run_usageCount_mono,
      ContractFacts.run_unissued_blank, ContractFacts.unissued_blank_init.
  - intros. apply BackendFacts.serve_usage_mono.
Qed.

(** C10. A successful revocation changes, in the license it targets, only
    isActive (and, in the backend, revocationReason): modelId, licensee,
    issuer, licenseType, accessLevel, issuedAt, expiresAt, usageLimit,
    usageCount and usageHistory keep their values, and the record of every
    other license is untouched, as are the counter and the indexes of the
    contract and the other collections of the backend. *)
Theorem C10_revoke_frame :
  (forall env licenseId s s' evs,
      Contract.revokeLicense env licenseId s = inr (s', evs) ->
      let l := Contract.lic s licenseId in
      let l' := Contract.lic s' licenseId in
      Contract.isActive l' = false
      /\ Contract.modelId l' = Contract.modelId l
      /\ Contract.licensee l' = Contract.licensee l
      /\ Contract.licenseType l' = Contract.licenseType l
      /\ Contract.accessLevel l' = Contract.accessLevel l
      /\ Contract.issuedAt l' = Contract.issuedAt l
      /\ Contract.expiresAt l' = Contract.expiresAt l
      /\ Contract.usageLimit l' = Contract.usageLimit l
      /\ Contract.usageCount l' = Contract.usageCount l
      /\ (forall j, j <> licenseId ->
                    Contract.licenses s' !! j = Contract.licenses s !! j)
      /\ Contract.licenseCounter s' = Contract.licenseCounter s
      /\ Contract.modelLicenses s' = Contract.modelLicenses s
      /\ Contract.userLicenses s' = Contract.userLicenses s)
  /\ (forall now user key reason db db' st l',
         Backend.put_revoke now user key reason db
         = (db', Backend.LicenseJson st l') ->
         exists l,
           Backend.licenses db !! key = Some l
           /\ Backend.licenses db' !! key = Some l'
           /\ Backend.isActive l' = false
           /\ Backend.revocationReason l' = Some reason
           /\ Backend.licenseId l' = Backend.licenseId l
           /\ Backend.model l' = Backend.model l
           /\ Backend.licensee l' = Backend.licensee l
           /\ Backend.issuer l' = Backend.issuer l
           /\ Backend.licenseType l' = Backend.licenseType l
           /\ Backend.accessLevel l' = Backend.accessLevel l
           /\ Backend.issuedAt l' = Backend.issuedAt l
           /\ Backend.expiresAt l' = Backend.expiresAt l
           /\ Backend.usageLimit l' = Backend.usageLimit l
           /\ Backend.usageCount l' = Backend.usageCount l
           /\ Backend.usageHistory l' = Backend.usageHistory l
           /\ (forall j, j <> key ->
                         Backend.licenses db' !! j = Backend.licenses db !! j)
           /\ Backend.models db' = Backend.models db
           /\ Backend.users db' = Backend.users db).
Proof.
  split.
  - intros env licenseId s s' evs Hcall l l'.
    apply ContractFacts.revokeLicense_ok in Hcall as [_ ->].
    subst l l'. rewrite ContractFacts.lic_store_eq.
    split_and!; try done.
    intros j Hj. unfold Contract.store; cbn [Contract.licenses].
    by rewrite lookup_insert_ne.
  - intros now user key reason db db' st l' Hcall.
    apply BackendFacts.put_revoke_ok in Hcall as (l & Hl & -> & ->).
    exists l. rewrite BackendFacts.lookup_save_eq.
    split_and!; try done.
    intros j Hj. by rewrite BackendFacts.lookup_save_ne.
Qed.

Lemma C10_revoke_frame_witness :
  (let s2 := fst (Contract.exec (Samples.env 7 200)
                    (Contract.RevokeLicense 1) Samples.s1) in
   Contract.isActive (Contract.lic s2 1) = false
   /\ Contract.expiresAt (Contract.lic s2 1)
      = Contract.expiresAt (Contract.lic Samples.s1 1))
  /\ (let d2 := fst (Backend.put_revoke 200 (Some Samples.bob) 11
                       "policy violation" Samples.db1) in
      exists l', Backend.licenses d2 !! 11%N = Some l'
                 /\ Backend.revocationReason l' = Some "policy violation"%string
                 /\ Backend.usageHistory l'
                    = Backend.usageHistory Samples.license1).
Proof.
  destruct C10_revoke_frame as [Hcontract Hbackend]. split.
  - destruct (Hcontract (Samples.env 7 200) 1%N Samples.s1
                (fst (Contract.exec (Samples.env 7 200)
                        (Contract.RevokeLicense 1) Samples.s1))
                [Contract.LicenseRevoked 1])
      as (Hoff & _ & _ & _ & _ & _ & Hexp & _); [reflexivity|].
    split; [exact Hoff | exact Hexp].
  - destruct (Hbackend 200%Z (Some Samples.bob) 11%N
                "policy violation"%string Samples.db1
                (fst (Backend.put_revoke 200 (Some Samples.bob) 11
                        "policy violation" Samples.db1))
                200%N
                (Backend.set_updatedAt 200
                   (Backend.revoke "policy violation" Samples.license1)))
      as (l & Hl & Hl' & _ & Hreason & Hrest); [reflexivity|].
    exists (Backend.set_updatedAt 200
              (Backend.revoke "policy violation" Samples.license1)).
    split; [exact Hl'|]. split; [exact Hreason|]. reflexivity.
Defined.

(** ** Further properties of the code *)

(** X1. After any transactions since deployment, [getLicensesForUser]
    returns exactly the issued licenses whose licensee is that user and
    [getLicensesForModel] exactly those of that model, each id once. *)
Theorem X1_indexes_list_issued_licenses :
  forall txs,
    let s := Contract.run txs Contract.initState in
    (forall u i, i ∈ Contract.getLicensesForUser u s
                 <-> Contract.issued s i
                     /\ Contract.licensee (Contract.lic s i) = u)
    /\ (forall m i, i ∈ Contract.getLicensesForModel m s
                    <-> Contract.issued s i
                        /\ Contract.modelId (Contract.lic s i) = m)
    /\ (forall u, NoDup (Contract.getLicensesForUser u s))
    /\ (forall m, NoDup (Contract.getLicensesForModel m s)).
Proof.
  intros txs. destruct (ContractInvFacts.reachable_sound txs) as (_ & H & _).
  exact H.
Qed.

(** X2. After any transactions since deployment, [hasValidLicense] is true
    exactly when some issued license of that model passes [validateLicense]
    for the user: scanning the user's index misses none. *)
Theorem X2_hasValidLicense_finds_any :
  forall txs env model user requiredAccess,
    let s := Contract.run txs Contract.initState in
    Contract.hasValidLicense env model user requiredAccess s = true
    <-> exists i, Contract.issued s i
                  /\ Contract.modelId (Contract.lic s i) = model
                  /\ Contract.validateLicense env i user requiredAccess s
                     = true.
Proof.
  intros txs env model user requiredAccess s.
  destruct (ContractInvFacts.reachable_sound txs) as (_ & (Husers & _) & _).
  unfold Contract.hasValidLicense. rewrite existsb_exists. split.
  - intros (i & Hin & Hok). apply andb_true_iff in Hok as [Hm Hv].
    apply N.eqb_eq in Hm. apply list_elem_of_In, Husers in Hin as [Hi _].
    by exists i.
  - intros (i & Hi & Hm & Hv). exists i. split.
    + apply list_elem_of_In, Husers. split; [done|].
      by apply ContractFacts.validateLicense_true in Hv as (_ & ? & _).
    + rewrite Hv. apply N.eqb_eq in Hm. fold s. by rewrite Hm.
Qed.

(** X3. Once a license is issued, no later transaction changes its
    modelId, licensee, licenseType, accessLevel, issuedAt or usageLimit,
    its expiresAt never decreases, and it always lies after issuedAt. *)
Theorem X3_issued_terms_are_fixed :
  forall txs txs' i,
    let s := Contract.run txs Contract.initState in
    let s' := Contract.run (txs ++ txs') Contract.initState in
    Contract.issued s i ->
    Contract.issued s' i
    /\ Contract.modelId (Contract.lic s' i) = Contract.modelId (Contract.lic s i)
    /\ Contract.licensee (Contract.lic s' i)
       = Contract.licensee (Contract.lic s i)
    /\ Contract.licenseType (Contract.lic s' i)
       = Contract.licenseType (Contract.lic s i)
    /\ Contract.accessLevel (Contract.lic s' i)
       = Contract.accessLevel (Contract.lic s i)
    /\ Contract.issuedAt (Contract.lic s' i)
       = Contract.issuedAt (Contract.lic s i)
    /\ Contract.usageLimit (Contract.lic s' i)
       = Contract.usageLimit (Contract.lic s i)
    /\ (Contract.expiresAt (Contract.lic s i)
        <= Contract.expiresAt (Contract.lic s' i))%N
    /\ (Contract.issuedAt (Contract.lic s' i)
        < Contract.expiresAt (Contract.lic s' i))%N.
Proof.
  intros txs txs' i s s' Hi. subst s s'. rewrite ContractFacts.run_app.
  pose proof (ContractInvFacts.reachable_sound txs) as Hs.
  destruct (ContractInvFacts.run_issued txs' _ i Hs Hi) as (Hi' & Ht & He).
  apply ContractInvFacts.terms_eq in Ht as (? & ? & ? & ? & ? & ?).
  split_and!; try done.
  destruct (ContractInvFacts.run_sound txs' _ Hs) as (_ & _ & _ & Htimed).
  by apply Htimed.
Qed.

Lemma X3_issued_terms_are_fixed_witness :
  let s' := Contract.run [(Samples.env 7 200, Contract.RevokeLicense 1);
                          (Samples.env 5 300, Contract.RenewLicense 1 60)]
                         Samples.s1 in
  Contract.usageLimit (Contract.lic s' 1) = 5%N
  /\ (3700 <= Contract.expiresAt (Contract.lic s' 1))%N.
Proof.
  destruct (X3_issued_terms_are_fixed
              [(Samples.env 7 100,
                Contract.IssueLicense 1 5 Contract.Commercial
                                      Contract.InferenceOnly 3600 5)]
              [(Samples.env 7 200, Contract.RevokeLicense 1);
               (Samples.env 5 300, Contract.RenewLicense 1 60)] 1%N)
    as (_ & _ & _ & _ & _ & _ & Hlimit & Hexp & _).
  - vm_compute. split; [reflexivity|discriminate].
  - split; [exact Hlimit | exact Hexp].
Defined.

(** X4. After any transactions since deployment an active license has
    usage to spare (no limit, or a count below it), so for [validateLicense]
    the usage test never decides: the answer is that of the other four. *)
Theorem X4_active_license_has_quota :
  forall txs env i user requiredAccess,
    let s := Contract.run txs Contract.initState in
    let l := Contract.lic s i in
    (Contract.isActive l = true ->
     Contract.usageLimit l = 0%N
     \/ (Contract.usageCount l < Contract.usageLimit l)%N)
    /\ Contract.validateLicense env i user requiredAccess s
       = Contract.isActive l
         && (Contract.licensee l =? user)%N
         && (Contract.block_timestamp env <? Contract.expiresAt l)%N
         && (Contract.uint requiredAccess
             <=? Contract.uint (Contract.accessLevel l))%N.
Proof.
  intros txs env i user requiredAccess s l.
  destruct (ContractInvFacts.reachable_sound txs) as (_ & _ & Hquota & _).
  specialize (Hquota i). fold s l in Hquota. split; [exact Hquota|].
  unfold Contract.validateLicense. fold l.
  destruct (Contract.isActive l); simpl; [|done].
  assert ((Contract.usageLimit l =? 0)%N
          || (Contract.usageCount l <? Contract.usageLimit l)%N = true) as ->.
  { rewrite orb_true_iff, N.eqb_eq, N.ltb_lt. by apply Hquota. }
  by rewrite andb_true_r.
Qed.

Lemma X4_active_license_has_quota_witness :
  (Contract.usageCount (Contract.lic Samples.s1 1)
   < Contract.usageLimit (Contract.lic Samples.s1 1))%N.
Proof.
  destruct (X4_active_license_has_quota
              [(Samples.env 7 100,
                Contract.IssueLicense 1 5 Contract.Commercial
                                      Contract.InferenceOnly 3600 5)]
              (Samples.env 5 200) 1%N 5%N Contract.ReadOnly) as [H _].
  destruct H as [H|H]; [reflexivity|discriminate H|exact H].
Defined.

(** X5. A license whose usageCount has reached its positive usageLimit
    never passes [validateLicense] again, whatever transactions follow:
    the limit is fixed and the count only grows. *)
Theorem X5_exhausted_license_stays_invalid :
  forall txs txs' i env user requiredAccess,
    let s := Contract.run txs Contract.initState in
    Contract.issued s i ->
    (0 < Contract.usageLimit (Contract.lic s i))%N ->
    (Contract.usageLimit (Contract.lic s i)
     <= Contract.usageCount (Contract.lic s i))%N ->
    Contract.validateLicense env i user requiredAccess
      (Contract.run (txs ++ txs') Contract.initState) = false.
Proof.
  intros txs txs' i env user requiredAccess s Hi Hpos Hfull. subst s.
  rewrite ContractFacts.run_app.
  pose proof (ContractInvFacts.reachable_sound txs) as Hs.
  destruct (ContractInvFacts.run_issued txs' _ i Hs Hi) as (_ & Ht & _).
  apply ContractInvFacts.terms_eq in Ht as (_ & _ & _ & _ & _ & Hlim).
  pose proof (ContractFacts.run_usageCount_mono txs' _ i (proj1 Hs)) as Hcnt.
  apply not_true_is_false. intros Hv.
  apply ContractFacts.validateLicense_true in Hv as (_ & _ & _ & Hq & _).
  simpl in Hq. rewrite Hlim in Hq. lia.
Qed.

Lemma X5_exhausted_license_stays_invalid_witness :
  Contract.validateLicense (Samples.env 5 900) 1 5 Contract.ReadOnly
    (Contract.run
       ([(Samples.env 7 100,
          Contract.IssueLicense 1 5 Contract.Commercial
                                Contract.InferenceOnly 3600 5);
         (Samples.env 9 200, Contract.RecordUsage 1 5)]
        ++ [(Samples.env 5 300, Contract.RenewLicense 1 60)])
       Contract.initState) = false.
Proof.
  apply X5_exhausted_license_stays_invalid.
  - vm_compute. split; [reflexivity|discriminate].
  - reflexivity.
  - vm_compute. discriminate.
Defined.

(** X6. For a license id that was never issued (0, or above the counter),
    after any transactions since deployment: [revokeLicense] reverts with
    "License already inactive", [recordUsage] by an admin with "License not
    active", [validateLicense] is false, and no index lists the id. *)
Theorem X6_unissued_id_is_rejected :
  forall txs i env usageAmount user requiredAccess,
    let s := Contract.run txs Contract.initState in
    ~ Contract.issued s i ->
    Contract.revokeLicense env i s = inl Contract.AlreadyInactive
    /\ (Contract.hasRole_LICENSE_ADMIN env (Contract.msg_sender env) = true ->
        Contract.recordUsage env i usageAmount s = inl Contract.NotActive)
    /\ Contract.validateLicense env i user requiredAccess s = false
    /\ i ∉ Contract.getLicensesForUser user s.
Proof.
  intros txs i env usageAmount user requiredAccess s Hno.
  destruct (ContractInvFacts.reachable_sound txs)
    as (Hblank & (Husers & _) & _).
  destruct (Hblank i Hno) as (Hoff & _).
  split_and!.
  - by apply ContractFacts.revokeLicense_inactive.
  - intros Hadm. by apply ContractFacts.recordUsage_not_active.
  - by apply ContractFacts.validateLicense_unissued.
  - intros Hin. by apply Husers in Hin as [? _].
Qed.

Lemma X6_unissued_id_is_rejected_witness :
  Contract.revokeLicense (Samples.env 7 200) 2 Samples.s1
  = inl Contract.AlreadyInactive
  /\ Contract.recordUsage (Samples.env 9 200) 2 1 Samples.s1
     = inl Contract.NotActive.
Proof.
  destruct (X6_unissued_id_is_rejected
              [(Samples.env 7 100,
                Contract.IssueLicense 1 5 Contract.Commercial
                                      Contract.InferenceOnly 3600 5)]
              2%N (Samples.env 7 200) 1%N 5%N Contract.ReadOnly)
    as (Hrevoke & _).
  { vm_compute. intros [_ H]. by apply H. }
  split; [exact Hrevoke|].
  destruct (X6_unissued_id_is_rejected
              [(Samples.env 7 100,
                Contract.IssueLicense 1 5 Contract.Commercial
                                      Contract.InferenceOnly 3600 5)]
              2%N (Samples.env 9 200) 1%N 5%N Contract.ReadOnly)
    as (_ & Hrecord & _).
  { vm_compute. intros [_ H]. by apply H. }
  apply Hrecord. reflexivity.
Defined.

(** X7. A license is valid from the moment it is issued: the new id is the
    old counter plus one, and until [expiresAt] the licensee passes
    [validateLicense] exactly for the levels up to the one granted, and
    [hasValidLicense] for the model at those levels. *)
Theorem X7_issued_license_is_valid :
  forall env model to lt al duration limit s licenseId s' evs env'
         requiredAccess,
    Contract.issueLicense env model to lt al duration limit s
    = inr (licenseId, s', evs) ->
    (Contract.block_timestamp env'
     < Contract.block_timestamp env + duration)%N ->
    licenseId = (Contract.licenseCounter s + 1)%N
    /\ Contract.validateLicense env' licenseId to requiredAccess s'
       = (Contract.uint requiredAccess <=? Contract.uint al)%N
    /\ ((Contract.uint requiredAccess <= Contract.uint al)%N ->
        Contract.hasValidLicense env' model to requiredAccess s' = true).
Proof.
  intros env model to lt al duration limit s licenseId s' evs env'
    requiredAccess Hcall Htime.
  split; [by apply ContractFacts.issueLicense_ok in Hcall as [? _]|].
  by eapply ContractInvFacts.issued_license_valid.
Qed.

Lemma X7_issued_license_is_valid_witness :
  Contract.validateLicense (Samples.env 5 100) 1 5 Contract.ReadOnly Samples.s1
  = true
  /\ Contract.validateLicense (Samples.env 5 100) 1 5 Contract.FullAccess
                              Samples.s1 = false.
Proof.
  split.
  - destruct (X7_issued_license_is_valid (Samples.env 7 100) 1%N 5%N
                Contract.Commercial Contract.InferenceOnly 3600%N 5%N
                Contract.initState 1%N Samples.s1
                [Contract.LicenseIssued 1 1 5] (Samples.env 5 100)
                Contract.ReadOnly) as (_ & Hv & _);
      [reflexivity|reflexivity|exact Hv].
  - destruct (X7_issued_license_is_valid (Samples.env 7 100) 1%N 5%N
                Contract.Commercial Contract.InferenceOnly 3600%N 5%N
                Contract.initState 1%N Samples.s1
                [Contract.LicenseIssued 1 1 5] (Samples.env 5 100)
                Contract.FullAccess) as (_ & Hv & _);
      [reflexivity|reflexivity|exact Hv].
Defined.

(** X8. [issueLicense] by the owner or an admin still reverts, leaving the
    storage as it was, for the zero licensee address ("Invalid licensee
    address") and, for another licensee, for a zero duration ("License
    duration must be greater than 0"). *)
Theorem X8_issue_rejects_bad_arguments :
  forall env model to lt al duration limit s o,
    Contract.ownerOf env model = Some o ->
    o = Contract.msg_sender env
    \/ Contract.hasRole_LICENSE_ADMIN env (Contract.msg_sender env) = true ->
    (to = 0%N ->
     Contract.exec env (Contract.IssueLicense model to lt al duration limit) s
     = (s, Contract.Reverted (Contract.Revert "Invalid licensee address")))
    /\ (to <> 0%N -> duration = 0%N ->
        Contract.exec env
          (Contract.IssueLicense model to lt al duration limit) s
        = (s, Contract.Reverted
                (Contract.Revert "License duration must be greater than 0"))).
Proof.
  intros env model to lt al duration limit s o Hown Hauth.
  assert ((o =? Contract.msg_sender env)%N
          || Contract.hasRole_LICENSE_ADMIN env (Contract.msg_sender env)
          = true) as Hok.
  { rewrite orb_true_iff, N.eqb_eq. tauto. }
  split.
  - intros ->. cbn [Contract.exec].
    unfold Contract.issueLicense, Contract.registry_ownerOf.
    rewrite Hown; simpl. by rewrite Hok.
  - intros Hto ->. cbn [Contract.exec].
    unfold Contract.issueLicense, Contract.registry_ownerOf.
    rewrite Hown; simpl. rewrite Hok; simpl.
    apply N.eqb_neq in Hto. by rewrite Hto.
Qed.

Lemma X8_issue_rejects_bad_arguments_witness :
  Contract.exec (Samples.env 7 100)
    (Contract.IssueLicense 1 0 Contract.Research Contract.ReadOnly 10 0)
    Samples.s1
  = (Samples.s1,
     Contract.Reverted (Contract.Revert "Invalid licensee address"))
  /\ Contract.exec (Samples.env 9 100)
       (Contract.IssueLicense 1 5 Contract.Research Contract.ReadOnly 0 0)
       Samples.s1
     = (Samples.s1,
        Contract.Reverted
          (Contract.Revert "License duration must be greater than 0")).
Proof.
  split.
  - apply (X8_issue_rejects_bad_arguments (Samples.env 7 100) 1%N 0%N
             Contract.Research Contract.ReadOnly 10%N 0%N Samples.s1 7%N);
      [reflexivity|left; reflexivity|reflexivity].
  - apply (X8_issue_rejects_bad_arguments (Samples.env 9 100) 1%N 5%N
             Contract.Research Contract.ReadOnly 0%N 0%N Samples.s1 7%N);
      [reflexivity|right; reflexivity|discriminate|reflexivity].
Defined.

(** X9. After a successful [revokeLicense] the license fails
    [validateLicense] for every user, level and time, a use by an admin
    reverts with "License not active", and a second revocation reverts with
    "License already inactive". *)
Theorem X9_revoked_license_is_dead :
  forall env licenseId s s' evs env' user requiredAccess usageAmount,
    Contract.revokeLicense env licenseId s = inr (s', evs) ->
    Contract.validateLicense env' licenseId user requiredAccess s' = false
    /\ (Contract.hasRole_LICENSE_ADMIN env' (Contract.msg_sender env') = true ->
        Contract.recordUsage env' licenseId usageAmount s'
        = inl Contract.NotActive)
    /\ Contract.revokeLicense env' licenseId s' = inl Contract.AlreadyInactive.
Proof.
  intros env licenseId s s' evs env' user requiredAccess usageAmount Hcall.
  apply ContractFacts.revokeLicense_ok in Hcall as [_ ->].
  assert (Contract.isActive
            (Contract.lic
               (Contract.store licenseId
                  (Contract.set_isActive false (Contract.lic s licenseId)) s)
               licenseId) = false) as Hoff.
  { by rewrite ContractFacts.lic_store_eq. }
  split_and!.
  - unfold Contract.validateLicense. by rewrite Hoff.
  - intros Hadm. by apply ContractFacts.recordUsage_not_active.
  - by apply ContractFacts.revokeLicense_inactive.
Qed.

Lemma X9_revoked_license_is_dead_witness :
  let s2 := Contract.store 1
              (Contract.set_isActive false (Contract.lic Samples.s1 1))
              Samples.s1 in
  Contract.validateLicense (Samples.env 5 300) 1 5 Contract.ReadOnly s2 = false
  /\ Contract.revokeLicense (Samples.env 9 300) 1 s2
     = inl Contract.AlreadyInactive.
Proof.
  destruct (X9_revoked_license_is_dead (Samples.env 7 200) 1%N Samples.s1
              (Contract.store 1
                 (Contract.set_isActive false (Contract.lic Samples.s1 1))
                 Samples.s1)
              [Contract.LicenseRevoked 1] (Samples.env 5 300) 5%N
              Contract.ReadOnly 1%N) as (Hv & _ & _); [reflexivity|].
  destruct (X9_revoked_license_is_dead (Samples.env 7 200) 1%N Samples.s1
              (Contract.store 1
                 (Contract.set_isActive false (Contract.lic Samples.s1 1))
                 Samples.s1)
              [Contract.LicenseRevoked 1] (Samples.env 9 300) 5%N
              Contract.ReadOnly 1%N) as (_ & _ & Hr); [reflexivity|].
  split; [exact Hv | exact Hr].
Defined.

(** X10. A successful [recordUsage] changes only usageCount and isActive
    of the license it names, and a successful [renewLicense] only expiresAt
    and isActive: every other field, every other license, the counter and
    both indexes are as before. *)
Theorem X10_usage_and_renewal_frames :
  (forall env licenseId usageAmount s s' evs,
      Contract.recordUsage env licenseId usageAmount s = inr (s', evs) ->
      ContractInv.terms (Contract.lic s' licenseId)
      = ContractInv.terms (Contract.lic s licenseId)
      /\ Contract.expiresAt (Contract.lic s' licenseId)
         = Contract.expiresAt (Contract.lic s licenseId)
      /\ Contract.usageCount (Contract.lic s' licenseId)
         = (Contract.usageCount (Contract.lic s licenseId) + usageAmount)%N
      /\ (forall j, j <> licenseId ->
                    Contract.licenses s' !! j = Contract.licenses s !! j)
      /\ Contract.licenseCounter s' = Contract.licenseCounter s
      /\ Contract.modelLicenses s' = Contract.modelLicenses s
      /\ Contract.userLicenses s' = Contract.userLicenses s)
  /\ (forall env licenseId d s s' evs,
         Contract.renewLicense env licenseId d s = inr (s', evs) ->
         ContractInv.terms (Contract.lic s' licenseId)
         = ContractInv.terms (Contract.lic s licenseId)
         /\ Contract.usageCount (Contract.lic s' licenseId)
            = Contract.usageCount (Contract.lic s licenseId)
         /\ (forall j, j <> licenseId ->
                       Contract.licenses s' !! j = Contract.licenses s !! j)
         /\ Contract.licenseCounter s' = Contract.licenseCounter s
         /\ Contract.modelLicenses s' = Contract.modelLicenses s
         /\ Contract.userLicenses s' = Contract.userLicenses s).
Proof.
  split.
  - intros env licenseId usageAmount s s' evs Hcall.
    apply ContractFacts.recordUsage_ok in Hcall as (_ & _ & _ & _ & ->).
    rewrite ContractFacts.lic_store_eq. split_and!; try done.
    intros j Hj. unfold Contract.store; cbn [Contract.licenses].
    by rewrite lookup_insert_ne.
  - intros env licenseId d s s' evs Hcall.
    apply ContractFacts.renewLicense_ok in Hcall as (_ & _ & ->).
    rewrite ContractFacts.lic_store_eq. split_and!; try done.
    intros j Hj. unfold Contract.store; cbn [Contract.licenses].
    by rewrite lookup_insert_ne.
Qed.

Lemma X10_usage_and_renewal_frames_witness :
  (exists s', Contract.recordUsage (Samples.env 9 200) 1 2 Samples.s1
              = inr (s', [Contract.LicenseUsed 1 2])
              /\ Contract.usageCount (Contract.lic s' 1) = 2%N)
  /\ (exists s', Contract.renewLicense (Samples.env 5 200) 1 60 Samples.s1
                 = inr (s', [Contract.LicenseRenewed 1 3760])
                 /\ Contract.usageCount (Contract.lic s' 1) = 0%N).
Proof.
  destruct X10_usage_and_renewal_frames as [Husage Hrenew]. split.
  - eexists. split; [reflexivity|].
    eapply (Husage (Samples.env 9 200) 1%N 2%N Samples.s1). reflexivity.
  - eexists. split; [reflexivity|].
    eapply (Hrenew (Samples.env 5 200) 1%N 60%N Samples.s1). reflexivity.
Defined.

(** X11. A transaction changes the storage only if the caller holds the
    right its function asks for: the model owner or a license admin to
    issue and to revoke, a license admin to record usage, the model owner,
    the licensee or a license admin to renew; the view functions never
    change it. *)
Theorem X11_changes_need_authority :
  forall env c s,
    fst (Contract.exec env c s) = s \/ ContractInv.authorized env c s.
Proof. apply ContractInvFacts.exec_authorized. Qed.

(** X12. For a model with a registered owner, [setPaymentSplit] returns
    exactly when the caller is that owner or a payment admin and the split
    is well formed: as many recipients as shares, at least one, no zero
    address, shares adding up to 100; the split read back is then the one
    given. *)
Theorem X12_split_accepted_iff_well_formed :
  forall env model rs ss s o,
    PaymentProcessor.ownerOf env model = Some o ->
    (exists s' evs,
        PaymentProcessor.setPaymentSplit env model rs ss s = inr (s', evs)
        /\ PaymentProcessor.getPaymentSplit model s' = (rs, ss))
    <-> (o = PaymentProcessor.msg_sender env
         \/ PaymentProcessor.hasRole_PAYMENT_ADMIN
              env (PaymentProcessor.msg_sender env) = true)
        /\ length rs = length ss
        /\ (0 < length rs)%nat
        /\ Forall (fun r => r <> 0%N) rs
        /\ PaymentProcessor.sum_list ss = 100%N.
Proof.
  intros env model rs ss s o Hown. split.
  - intros (s' & evs & Hcall & _). split.
    + by eapply PaymentFacts.setPaymentSplit_auth.
    + by apply PaymentFacts.setPaymentSplit_inr in Hcall as [Hvalid _].
  - intros (Hauth & Hvalid). eexists _, _. split.
    + by apply (PaymentFacts.setPaymentSplit_returns _ _ _ _ _ o).
    + unfold PaymentProcessor.getPaymentSplit, PaymentProcessor.split_of.
      cbn [PaymentProcessor.paymentSplits]. by rewrite lookup_insert_eq.
Qed.

Lemma X12_split_accepted_iff_well_formed_witness :
  (exists s' evs,
      PaymentProcessor.setPaymentSplit (MoreSamples.penv 7 0) 1
        [20; 21]%N [70; 30]%N MoreSamples.p0 = inr (s', evs)
      /\ PaymentProcessor.getPaymentSplit 1 s' = ([20; 21]%N, [70; 30]%N))
  /\ ~ (exists s' evs,
           PaymentProcessor.setPaymentSplit (MoreSamples.penv 7 0) 1
             [20; 21]%N [70; 20]%N MoreSamples.p0 = inr (s', evs)
           /\ PaymentProcessor.getPaymentSplit 1 s' = ([20; 21]%N, [70; 20]%N)).
Proof.
  split.
  - apply (X12_split_accepted_iff_well_formed (MoreSamples.penv 7 0) 1%N
             [20; 21]%N [70; 30]%N MoreSamples.p0 7%N); [reflexivity|].
    split_and!; [left; reflexivity|reflexivity|cbn; lia| |reflexivity].
    repeat constructor; discriminate.
  - intros H.
    apply (X12_split_accepted_iff_well_formed (MoreSamples.penv 7 0) 1%N
             [20; 21]%N [70; 20]%N MoreSamples.p0 7%N) in H; [|reflexivity].
    destruct H as (_ & _ & _ & _ & H). discriminate H.
Defined.

(** X13. In every storage reached from a successful deployment, a payment
    never pays out more than it brought in.  [processPayment] transfers
    ether only, each transfer positive, in total at most [msg.value]; with
    a split configured it keeps back fewer wei than the split has
    recipients, without one it transfers nothing.  A [distributePayment]
    that returns found the payment unprocessed, pays at most its amount,
    again keeping back fewer units than recipients, and marks it
    processed. *)
Theorem X13_payouts_never_exceed_payment :
  forall env0 registry manager pct feeRecipient s0 txs,
    PaymentProcessor.constructor env0 registry manager pct feeRecipient
    = inr s0 ->
    let s := PaymentProcessor.run txs s0 in
    (forall env model s' ts evs,
        PaymentProcessor.processPayment env model s = inr (s', ts, evs) ->
        let split := PaymentProcessor.split_of s model in
        (PaymentProcessor.total ts <= PaymentProcessor.msg_value env)%N
        /\ Forall (fun t => (0 < PaymentProcessor.value t)%N
                            /\ PaymentProcessor.token t = 0%N) ts
        /\ (PaymentProcessor.isConfigured split = true ->
            (PaymentProcessor.msg_value env - PaymentProcessor.total ts
             < N.of_nat (length (PaymentProcessor.recipients split)))%N)
        /\ (PaymentProcessor.isConfigured split = false -> ts = []))
    /\ (forall env paymentId s' ts evs,
           PaymentProcessor.distributePayment env paymentId s
           = inr (s', ts, evs) ->
           exists p,
             PaymentProcessor.payments s !! N.to_nat paymentId = Some p
             /\ PaymentProcessor.isProcessed p = false
             /\ (PaymentProcessor.total ts <= PaymentProcessor.amount p)%N
             /\ (PaymentProcessor.amount p - PaymentProcessor.total ts
                 < N.of_nat
                     (length (PaymentProcessor.recipients
                                (PaymentProcessor.split_of
                                   s (PaymentProcessor.modelId p)))))%N
             /\ PaymentProcessor.payments s' !! N.to_nat paymentId
                = Some (PaymentProcessor.set_isProcessed true p)).
Proof.
  intros env0 registry manager pct feeRecipient s0 txs Hdeploy s.
  assert (PaymentProcessor.sound s) as Hs.
  { apply PaymentFacts.pay_run_sound. by eapply PaymentFacts.sound_constructor. }
  split.
  - intros env model s' ts evs Hcall split.
    apply PaymentFacts.processPayment_inr in Hcall as [Hpos Hcall].
    cbv zeta in Hcall. fold split in Hcall.
    destruct (PaymentProcessor.isConfigured split) eqn:Hconf.
    + apply PaymentFacts.distribute_conserves in Hcall
        as (p & Hp & _ & _ & Hle & Hdust & Hall);
        [|by apply PaymentFacts.sound_push_payment].
      rewrite Nat2N.id in Hp. unfold PaymentProcessor.push_payment in Hp.
      cbn [PaymentProcessor.payments] in Hp.
      rewrite lookup_app_r, Nat.sub_diag in Hp by done.
      injection Hp as <-. simpl in Hle, Hdust.
      split_and!; try done.
    + destruct Hcall as [_ ->]. split_and!; try done.
      unfold PaymentProcessor.total; simpl. lia.
  - intros env paymentId s' ts evs Hcall.
    unfold PaymentProcessor.distributePayment in Hcall.
    apply PaymentFacts.pay_bind_inr in Hcall as (? & _ & Hcall).
    apply PaymentFacts.pay_bind_inr in Hcall as (p0 & _ & Hcall).
    apply PaymentFacts.pay_bind_inr in Hcall as (? & _ & Hcall).
    apply PaymentFacts.distribute_conserves in Hcall
      as (p & Hp & Hproc & -> & Hle & Hdust & _); [|done].
    exists p. split_and!; try done.
    cbn [PaymentProcessor.set_payment PaymentProcessor.payments].
    apply list_lookup_insert_eq. by eapply lookup_lt_Some.
Qed.

Lemma X13_payouts_never_exceed_payment_witness :
  exists s' ts evs,
    PaymentProcessor.processPayment (MoreSamples.penv 5 1001) 1 MoreSamples.p1
    = inr (s', ts, evs)
    /\ (PaymentProcessor.total ts <= 1001)%N
    /\ (1001 - PaymentProcessor.total ts < 2)%N.
Proof.
  destruct (PaymentProcessor.processPayment (MoreSamples.penv 5 1001) 1
              MoreSamples.p1) as [e|[[s' ts] evs]] eqn:Hcall;
    [vm_compute in Hcall; discriminate Hcall|].
  exists s', ts, evs. split; [reflexivity|].
  destruct (X13_payouts_never_exceed_payment (MoreSamples.penv 9 0) 1%N 2%N
              250%N 99%N MoreSamples.p0
              [(MoreSamples.penv 7 0,
                PaymentProcessor.SetPaymentSplit 1 [20; 21]%N [70; 30]%N)]
              eq_refl) as [Hpay _].
  destruct (Hpay (MoreSamples.penv 5 1001) 1%N s' ts evs Hcall)
    as (Hle & _ & Hdust & _).
  split; [exact Hle | apply Hdust; reflexivity].
Defined.

(** X14. A payment that is marked processed stays recorded and processed
    with the same model, payer, amount, token and timestamp through any
    later transactions, and no later [distributePayment] for it transfers
    anything or changes the storage. *)
Theorem X14_processed_payment_is_final :
  forall s txs i p env,
    PaymentProcessor.payments s !! i = Some p ->
    PaymentProcessor.isProcessed p = true ->
    let s' := PaymentProcessor.run txs s in
    (exists p',
        PaymentProcessor.payments s' !! i = Some p'
        /\ PaymentProcessor.isProcessed p' = true
        /\ PaymentProcessor.modelId p' = PaymentProcessor.modelId p
        /\ PaymentProcessor.payer p' = PaymentProcessor.payer p
        /\ PaymentProcessor.amount p' = PaymentProcessor.amount p
        /\ PaymentProcessor.tokenAddress p' = PaymentProcessor.tokenAddress p
        /\ PaymentProcessor.timestamp p' = PaymentProcessor.timestamp p)
    /\ PaymentProcessor.exec env
         (PaymentProcessor.DistributePayment (N.of_nat i)) s' = (s', []).
Proof.
  intros s txs i p env Hp Hproc s'.
  destruct (PaymentFacts.run_keeps txs s i p Hp) as (p' & Hp' & Hr & Hkeep).
  fold s' in Hp'. specialize (Hkeep Hproc).
  unfold PaymentProcessor.receipt in Hr. injection Hr as ? ? ? ? ?.
  split; [by exists p'|]. cbn [PaymentProcessor.exec].
  destruct (PaymentFacts.distributePayment_processed env (N.of_nat i) s' p')
    as [e ->]; [by rewrite Nat2N.id|done|done].
Qed.

Lemma X14_processed_payment_is_final_witness :
  PaymentProcessor.exec (MoreSamples.penv 9 0)
    (PaymentProcessor.DistributePayment 0) MoreSamples.p2
  = (MoreSamples.p2, []).
Proof.
  destruct (X14_processed_payment_is_final MoreSamples.p2 [] 0%nat
              (PaymentProcessor.mkPayment 1 5 1001 0 1000 true)
              (MoreSamples.penv 9 0)) as [_ H];
    [reflexivity|reflexivity|exact H].
Defined.

(** X15. From a successful deployment on, whatever transactions run, the
    platform fee stays at most 3000 basis points, the fee recipient is
    never the zero address, the fee of an amount is at most the amount, and
    every configured split is well formed. *)
Theorem X15_fee_and_splits_stay_well_formed :
  forall env0 registry manager pct feeRecipient s0 txs model x,
    PaymentProcessor.constructor env0 registry manager pct feeRecipient
    = inr s0 ->
    let s := PaymentProcessor.run txs s0 in
    let split := PaymentProcessor.split_of s model in
    (PaymentProcessor.platformFeePercentage s <= 3000)%N
    /\ PaymentProcessor.platformFeeRecipient s <> 0%N
    /\ (x * PaymentProcessor.platformFeePercentage s / 10000 <= x)%N
    /\ (PaymentProcessor.isConfigured split = true ->
        length (PaymentProcessor.recipients split)
        = length (PaymentProcessor.shares split)
        /\ (0 < length (PaymentProcessor.recipients split))%nat
        /\ Forall (fun r => r <> 0%N) (PaymentProcessor.recipients split)
        /\ PaymentProcessor.sum_list (PaymentProcessor.shares split) = 100%N).
Proof.
  intros env0 registry manager pct feeRecipient s0 txs model x Hdeploy s split.
  assert (PaymentProcessor.sound s) as Hs.
  { apply PaymentFacts.pay_run_sound. by eapply PaymentFacts.sound_constructor. }
  pose proof Hs as (Hfee & Hrec & _). split_and!; try done.
  - apply N.Div0.div_le_upper_bound.
    transitivity (x * 3000)%N; [by apply N.mul_le_mono_l|lia].
  - intros Hconf. by apply PaymentFacts.configured_valid.
Qed.

Lemma X15_fee_and_splits_stay_well_formed_witness :
  (PaymentProcessor.platformFeePercentage MoreSamples.p2 <= 3000)%N
  /\ PaymentProcessor.sum_list
       (PaymentProcessor.shares (PaymentProcessor.split_of MoreSamples.p2 1))
     = 100%N.
Proof.
  destruct (X15_fee_and_splits_stay_well_formed (MoreSamples.penv 9 0) 1%N
              2%N 250%N 99%N MoreSamples.p0
              [(MoreSamples.penv 7 0,
                PaymentProcessor.SetPaymentSplit 1 [20; 21]%N [70; 30]%N);
               (MoreSamples.penv 5 1001, PaymentProcessor.ProcessPayment 1)]
              1%N 1001%N eq_refl) as (Hfee & _ & _ & Hsplit).
  split; [exact Hfee|]. by destruct Hsplit as (_ & _ & _ & ?).
Defined.

(** X16. A payment that [processPayment] accepts gets the next array
    index as its id, is appended to the lists of its model and of its
    payer, and [getPaymentDetails] of that id returns what was paid; for an
    id at or beyond the array length [getPaymentDetails] reverts with
    "Invalid payment ID". *)
Theorem X16_payment_is_recorded :
  forall env model s s' ts evs,
    PaymentProcessor.processPayment env model s = inr (s', ts, evs) ->
    let paymentId := N.of_nat (length (PaymentProcessor.payments s)) in
    PaymentProcessor.getPaymentDetails paymentId s'
    = inr (PaymentProcessor.mkPayment
             model (PaymentProcessor.msg_sender env)
             (PaymentProcessor.msg_value env) 0
             (PaymentProcessor.block_timestamp env)
             (PaymentProcessor.isConfigured
                (PaymentProcessor.split_of s model)))
    /\ PaymentProcessor.getPaymentsForModel model s'
       = PaymentProcessor.getPaymentsForModel model s ++ [paymentId]
    /\ PaymentProcessor.getPaymentsByUser (PaymentProcessor.msg_sender env) s'
       = PaymentProcessor.getPaymentsByUser (PaymentProcessor.msg_sender env) s
         ++ [paymentId]
    /\ (forall other,
           (N.of_nat (length (PaymentProcessor.payments s')) <= other)%N ->
           PaymentProcessor.getPaymentDetails other s'
           = inl (PaymentProcessor.Revert "Invalid payment ID")).
Proof.
  intros env model s s' ts evs Hcall paymentId.
  apply PaymentFacts.processPayment_recorded in Hcall as (Hp & Hm & Hu).
  split_and!; try done.
  - rewrite PaymentFacts.getPaymentDetails_spec, Hp. unfold paymentId.
    rewrite Nat2N.id, lookup_app_r, Nat.sub_diag by done. done.
  - intros other Hother. rewrite PaymentFacts.getPaymentDetails_spec.
    rewrite lookup_ge_None_2; [done|lia].
Qed.

Lemma X16_payment_is_recorded_witness :
  PaymentProcessor.getPaymentDetails 0 MoreSamples.p2
  = inr (PaymentProcessor.mkPayment 1 5 1001 0 1000 true)
  /\ PaymentProcessor.getPaymentDetails 1 MoreSamples.p2
     = inl (PaymentProcessor.Revert "Invalid payment ID").
Proof.
  destruct (PaymentProcessor.processPayment (MoreSamples.penv 5 1001) 1
              MoreSamples.p1) as [e|[[s' ts] evs]] eqn:Hcall;
    [vm_compute in Hcall; discriminate Hcall|].
  assert (s' = MoreSamples.p2) as Hs'.
  { unfold MoreSamples.p2. cbn [PaymentProcessor.exec]. by rewrite Hcall. }
  destruct (X16_payment_is_recorded _ _ _ _ _ _ Hcall) as (Hd & _ & _ & Hno).
  rewrite Hs' in Hd, Hno. split; [exact Hd|].
  apply Hno. vm_compute. discriminate.
Defined.

(** X17. In every storage reached from a successful deployment, a
    [processTokenPayment] that returns was called with a positive amount
    and a token other than the zero address, and the pull of the tokens
    from the payer succeeded; what it sends on is in that same token, each
    transfer positive, in total at most the amount pulled; and the payment
    is recorded under the next id with that token, processed exactly when
    the model has a split.  As for every transfer here, the token and the
    recipients are taken not to call back into the contract: the token is
    of the caller's choice and [setPaymentSplit] is not guarded against
    re-entrancy, so a token that calls it while being paid is outside this
    statement. *)
Theorem X17_token_payment_stays_in_its_token :
  forall env0 registry manager pct feeRecipient s0 txs env model tok x
         s' ts evs,
    PaymentProcessor.constructor env0 registry manager pct feeRecipient
    = inr s0 ->
    let s := PaymentProcessor.run txs s0 in
    PaymentProcessor.processTokenPayment env model tok x s
    = inr (s', ts, evs) ->
    (0 < x)%N /\ tok <> 0%N
    /\ PaymentProcessor.token_transferFrom
         env tok (PaymentProcessor.msg_sender env) x = true
    /\ Forall (fun t => (0 < PaymentProcessor.value t)%N
                        /\ PaymentProcessor.token t = tok) ts
    /\ (PaymentProcessor.total ts <= x)%N
    /\ PaymentProcessor.getPaymentDetails
         (N.of_nat (length (PaymentProcessor.payments s))) s'
       = inr (PaymentProcessor.mkPayment
                model (PaymentProcessor.msg_sender env) x tok
                (PaymentProcessor.block_timestamp env)
                (PaymentProcessor.isConfigured
                   (PaymentProcessor.split_of s model))).
Proof.
  intros env0 registry manager pct feeRecipient s0 txs env model tok x
         s' ts evs Hdeploy s Hcall.
  assert (PaymentProcessor.sound s) as Hs.
  { apply PaymentFacts.pay_run_sound.
    by eapply PaymentFacts.sound_constructor. }
  apply PaymentFacts.processTokenPayment_inr in Hcall
    as (Hpos & Htok & Hfrom & Hcall).
  cbv zeta in Hcall. rewrite PaymentFacts.getPaymentDetails_spec.
  rewrite Nat2N.id.
  destruct (PaymentProcessor.isConfigured (PaymentProcessor.split_of s model)).
  - destruct Hcall as [evs' Hcall].
    apply PaymentFacts.distribute_conserves in Hcall
      as (p & Hp & _ & -> & Hle & _ & Hall);
      [|by apply PaymentFacts.sound_push_payment].
    rewrite Nat2N.id in *. unfold PaymentProcessor.push_payment in *.
    cbn [PaymentProcessor.payments PaymentProcessor.set_payment] in *.
    rewrite lookup_app_r, Nat.sub_diag in Hp by done. injection Hp as <-.
    rewrite list_lookup_insert_eq by (rewrite length_app; simpl; lia).
    split_and!; done.
  - destruct Hcall as [-> ->]. unfold PaymentProcessor.push_payment.
    cbn [PaymentProcessor.payments].
    rewrite lookup_app_r, Nat.sub_diag by done.
    split_and!; try done. unfold PaymentProcessor.total; simpl. lia.
Qed.

Lemma X17_token_payment_stays_in_its_token_witness :
  exists s' ts evs,
    PaymentProcessor.processTokenPayment (MoreSamples.penv 5 0) 1 50 1001
                                         MoreSamples.p1
    = inr (s', ts, evs)
    /\ Forall (fun t => (0 < PaymentProcessor.value t)%N
                        /\ PaymentProcessor.token t = 50%N) ts
    /\ (PaymentProcessor.total ts <= 1001)%N.
Proof.
  destruct (PaymentProcessor.processTokenPayment (MoreSamples.penv 5 0) 1 50
              1001 MoreSamples.p1) as [e|[[s' ts] evs]] eqn:Hcall;
    [vm_compute in Hcall; discriminate Hcall|].
  exists s', ts, evs. split; [reflexivity|].
  destruct (X17_token_payment_stays_in_its_token (MoreSamples.penv 9 0) 1%N
              2%N 250%N 99%N MoreSamples.p0
              [(MoreSamples.penv 7 0,
                PaymentProcessor.SetPaymentSplit 1 [20; 21]%N [70; 30]%N)]
              (MoreSamples.penv 5 0) 1%N 50%N 1001%N s' ts evs
              eq_refl Hcall) as (_ & _ & _ & Hall & Hle & _).
  split; [exact Hall | exact Hle].
Defined.

(** X18. A stored license is left exactly as it is by every sequence of
    requests (issue, revoke, renew, usage, validate, update) whose
    authenticated callers are all strangers to it: not admin, not its
    licensee, not its issuer, not the owner of its model.  Requests
    without a user change nothing either. *)
Theorem X18_strangers_cannot_alter_a_license :
  forall reqs db k l,
    Backend.licenses db !! k = Some l ->
    Forall (fun q => forall u, snd (fst q) = Some u -> ~ Routes.related u l db)
           reqs ->
    Backend.licenses (Routes.serve reqs db) !! k = Some l.
Proof. intros reqs db k l. apply RoutesFacts.serve_strangers. Qed.

Lemma X18_strangers_cannot_alter_a_license_witness :
  Backend.licenses
    (Routes.serve
       [(10%Z, Some Samples.mallory,
         Routes.Core (Backend.PutRevoke 11 "mine now"));
        (20%Z, Some Samples.mallory,
         Routes.PutUpdate 11
           (Routes.mkUpdateBody None (Some false) (Some 1%Z) None None));
        (30%Z, None, Routes.Core (Backend.PutUsage 11 "inference" ""))]
       Samples.db1) !! 11%N
  = Some Samples.license1.
Proof.
  apply X18_strangers_cannot_alter_a_license; [reflexivity|].
  assert (~ Routes.related Samples.mallory Samples.license1 Samples.db1)
    as Hno.
  { intros [H|[H|[H|(m & Hm & H)]]]; try discriminate H.
    vm_compute in Hm. injection Hm as <-. discriminate H. }
  repeat constructor; simpl; intros u Hu; try discriminate Hu;
    by injection Hu as <-.
Defined.

(** X19. Requests handled one after another never remove or replace a
    stored license: after any sequence of them the document is still
    stored under the same _id with the same licenseId, model, licensee,
    issuer, licenseType, accessLevel, issuedAt and createdAt; its
    usageHistory has only been appended to, by at most one entry a
    request.  For a whole usageCount that the requests cannot take beyond
    2^53, the range where [this.usageCount += 1] is exact, the count stays
    in that range and has moved by exactly the number of entries appended.
    (The deletion of expired documents by MongoDB's TTL index is no
    request.) *)
Theorem X19_documents_persist_and_history_only_grows :
  forall reqs db k l,
    Backend.licenses db !! k = Some l ->
    (- Routes.exact_limit <= Backend.usageCount l)%Z ->
    (Backend.usageCount l + Z.of_nat (length reqs) <= Routes.exact_limit)%Z ->
    exists l',
      Backend.licenses (Routes.serve reqs db) !! k = Some l'
      /\ (Backend.licenseId l', Backend.model l', Backend.licensee l',
          Backend.issuer l', Backend.licenseType l', Backend.accessLevel l',
          Backend.issuedAt l', Backend.createdAt l')
         = (Backend.licenseId l, Backend.model l, Backend.licensee l,
            Backend.issuer l, Backend.licenseType l, Backend.accessLevel l,
            Backend.issuedAt l, Backend.createdAt l)
      /\ Backend.usageHistory l `prefix_of` Backend.usageHistory l'
      /\ (length (Backend.usageHistory l')
          <= length (Backend.usageHistory l) + length reqs)%nat
      /\ (Backend.usageCount l' - Backend.usageCount l
          = Z.of_nat (length (Backend.usageHistory l'))
            - Z.of_nat (length (Backend.usageHistory l)))%Z
      /\ (- Routes.exact_limit <= Backend.usageCount l'
          <= Routes.exact_limit)%Z.
Proof.
  intros reqs db k l Hl Hlow Hhigh.
  destruct (RoutesFacts.serve_keeps reqs db k l Hl)
    as (_ & l' & Hl' & (Hid & Hpre & Hcount) & Hlen).
  exists l'. split_and!; try done.
  - apply prefix_length in Hpre. lia.
  - lia.
Qed.

Lemma X19_documents_persist_and_history_only_grows_witness :
  exists l',
    Backend.licenses
      (Routes.serve
         [(10%Z, Some Samples.alice,
           Routes.Core (Backend.PutUsage 11 "inference" ""));
          (20%Z, Some Samples.bob,
           Routes.PutUpdate 11
             (Routes.mkUpdateBody None (Some false) None None None));
          (30%Z, Some Samples.bob, Routes.Core (Backend.PutRenew 11 60))]
         Samples.db1) !! 11%N = Some l'
    /\ Backend.licenseId l' = "LIC-1"%string
    /\ Backend.usageCount l' = 1%Z
    /\ length (Backend.usageHistory l') = 1%nat.
Proof.
  destruct (X19_documents_persist_and_history_only_grows
              [(10%Z, Some Samples.alice,
                Routes.Core (Backend.PutUsage 11 "inference" ""));
               (20%Z, Some Samples.bob,
                Routes.PutUpdate 11
                  (Routes.mkUpdateBody None (Some false) None None None));
               (30%Z, Some Samples.bob, Routes.Core (Backend.PutRenew 11 60))]
              Samples.db1 11%N Samples.license1 eq_refl)
    as (l' & Hl' & Hid & _ & _);
    [vm_compute; discriminate|vm_compute; discriminate|].
  exists l'. split; [exact Hl'|].
  vm_compute in Hl'. injection Hl' as <-. split_and!; reflexivity.
Defined.

(** X21. Issue, then validate: when POST /api/licenses answers 201 with a
    license in a collection with unique licenseIds, a validate request for
    that licenseId by the licensee, at the license's own access level and
    at any clock up to expiresAt, answers [isValid: true] with that
    license, and changes nothing. *)
Theorem X21_issued_license_validates :
  forall now fresh lid u body db db' l now' who,
    Routes.licenseIds_unique db ->
    Backend.post_license now fresh lid (Some u) body db
    = (db', Backend.LicenseJson 201 l) ->
    (now' <= Backend.expiresAt l)%Z ->
    Backend.id who = Backend.licensee l ->
    Backend.get_validate now' (Some who) lid (Backend.accessLevel l) db'
    = (db', Backend.Valid l).
Proof.
  intros now fresh lid u body db db' l now' who Huniq Hpost Hnow Hwho.
  pose proof (RoutesFacts.post_license_issued _ _ _ _ _ _ _ _ _ Hpost)
    as (Hlid & Hlevel & Hdb').
  pose proof (BackendFacts.post_license_ok _ _ _ _ _ _ _ _ _ Hpost)
    as (_ & Hl & Hact & Hcount & _).
  assert (Backend.findOne_licenseId lid db' = Some l) as Hfind.
  { rewrite <- Hlid. apply (RoutesFacts.findOne_unique db' fresh); [|done].
    rewrite Hdb'. by apply RoutesFacts.handle_unique. }
  assert (Backend.isValid now' l = true) as Hvalid.
  { apply BackendFacts.isValid_true. split_and!; [done|done|lia]. }
  unfold Backend.get_validate. rewrite Hlevel, Hfind, Hvalid, <- Hwho.
  rewrite N.eqb_refl, Z.ltb_irrefl. done.
Qed.

Lemma X21_issued_license_validates_witness :
  exists db' l,
    Backend.post_license 10 12 "LIC-2" (Some Samples.bob) Samples.body1
                         Samples.db1
    = (db', Backend.LicenseJson 201 l)
    /\ Backend.get_validate 1000 (Some Samples.alice) "LIC-2" "InferenceOnly"
                            db'
       = (db', Backend.Valid l).
Proof.
  destruct (Backend.post_license 10 12 "LIC-2" (Some Samples.bob)
              Samples.body1 Samples.db1) as [db' r] eqn:Hpost.
  assert (exists l, r = Backend.LicenseJson 201 l
                    /\ Backend.expiresAt l = 1000%Z
                    /\ Backend.licensee l = 5%N
                    /\ Backend.accessLevel l = "InferenceOnly"%string)
    as (l & -> & Hexp & Hwho & Hlevel).
  { vm_compute in Hpost. injection Hpost as _ <-. eexists.
    split_and!; reflexivity. }
  exists db', l. split; [reflexivity|]. rewrite <- Hlevel.
  apply (X21_issued_license_validates 10%Z 12%N "LIC-2" Samples.bob
           Samples.body1 Samples.db1 db' l 1000%Z Samples.alice).
  - intros k1 k2 l1 l2 H1 H2 _.
    unfold Samples.db1 in H1, H2. cbn [Backend.licenses] in H1, H2.
    apply lookup_singleton_Some in H1 as [<- _].
    by apply lookup_singleton_Some in H2 as [<- _].
  - exact Hpost.
  - rewrite Hexp. lia.
  - rewrite Hwho. reflexivity.
Defined.

(** X22. The usage cap is an invariant of the handlers, for limits and
    counts that are whole numbers: if every stored license with a positive
    usageLimit has usageCount < usageLimit + 1, that is
    usageCount <= usageLimit, this still holds after any sequence of
    requests none of which is an update carrying a usageLimit (the one
    request that can move the cap under the count). *)
Theorem X22_usage_stays_within_the_cap :
  forall reqs db,
    Forall (fun q => Routes.keeps_limit (snd q)) reqs ->
    (forall k l, Backend.licenses db !! k = Some l ->
                 (0 < Backend.usageLimit l)%Z ->
                 (Backend.usageCount l < Backend.usageLimit l + 1)%Z) ->
    forall k l,
      Backend.licenses (Routes.serve reqs db) !! k = Some l ->
      (0 < Backend.usageLimit l)%Z ->
      (Backend.usageCount l < Backend.usageLimit l + 1)%Z.
Proof.
  intros reqs db Hkeeps Hcap k l Hl Hpos.
  assert (Routes.within_cap l) as Hin.
  { apply (RoutesFacts.routes_serve_within_cap reqs db Hkeeps) with k;
      [|done].
    intros k0 l0 Hl0 Hpos0. specialize (Hcap k0 l0 Hl0 Hpos0). lia. }
  unfold Routes.within_cap in Hin. lia.
Qed.

Lemma X22_usage_stays_within_the_cap_witness :
  exists l,
    Backend.licenses
      (Routes.serve
         (replicate 7 (10%Z, Some Samples.alice,
                       Routes.Core (Backend.PutUsage 11 "inference" "")))
         Samples.db1) !! 11%N = Some l
    /\ Backend.usageLimit l = 5%Z
    /\ (Backend.usageCount l < Backend.usageLimit l + 1)%Z.
Proof.
  destruct (Backend.licenses
              (Routes.serve
                 (replicate 7 (10%Z, Some Samples.alice,
                               Routes.Core
                                 (Backend.PutUsage 11 "inference" "")))
                 Samples.db1) !! 11%N) as [l|] eqn:Hl;
    [|vm_compute in Hl; discriminate Hl].
  exists l. split; [reflexivity|].
  pose proof (X22_usage_stays_within_the_cap
                (replicate 7 (10%Z, Some Samples.alice,
                              Routes.Core
                                (Backend.PutUsage 11 "inference" "")))
                Samples.db1) as Hcap.
  assert (Backend.usageLimit l = 5%Z) as Hlimit.
  { vm_compute in Hl. by injection Hl as <-. }
  split; [exact Hlimit|]. apply (Hcap ltac:(repeat constructor)) with 11%N.
  - intros k l0 Hl0 _. unfold Samples.db1 in Hl0.
    cbn [Backend.licenses] in Hl0.
    apply lookup_singleton_Some in Hl0 as [_ <-].
    reflexivity.
  - exact Hl.
  - rewrite Hlimit. reflexivity.
Defined.

(** X23. PUT /api/licenses/:id on a stored license whose model exists.
    A caller who is neither admin nor the issuer nor the owner of the
    model (the licensee included) gets 403 and nothing changes.  For the
    others the reply is the updated document, stored under the same _id:
    isActive, expiresAt and usageLimit are the ones sent, or the old ones
    where the body has none; identity, usageCount, usageHistory,
    revocationReason, price, currency and payment hash are untouched, and
    so is every other document.  So the route sets a revoked license
    active again when asked to, keeping its revocationReason. *)
Theorem X23_update_route_authority_and_frame :
  forall now u key body db l m,
    Backend.licenses db !! key = Some l ->
    Backend.models db !! Backend.model l = Some m ->
    let r := Routes.put_update now (Some u) key body db in
    (~ Backend.may_revoke u l m ->
     r = (db, Backend.Message 403 "Not authorized to update this license"))
    /\ (Backend.may_revoke u l m ->
        exists l',
          snd r = Backend.LicenseJson 200 l'
          /\ Backend.licenses (fst r) !! key = Some l'
          /\ (forall k, k <> key ->
                        Backend.licenses (fst r) !! k
                        = Backend.licenses db !! k)
          /\ Backend.models (fst r) = Backend.models db
          /\ Backend.users (fst r) = Backend.users db
          /\ Routes.identity l' = Routes.identity l
          /\ Backend.usageCount l' = Backend.usageCount l
          /\ Backend.usageHistory l' = Backend.usageHistory l
          /\ Backend.revocationReason l' = Backend.revocationReason l
          /\ Backend.price l' = Backend.price l
          /\ Backend.currency l' = Backend.currency l
          /\ Backend.paymentTransactionHash l'
             = Backend.paymentTransactionHash l
          /\ Backend.isActive l'
             = default (Backend.isActive l) (Routes.u_isActive body)
          /\ Backend.expiresAt l'
             = default (Backend.expiresAt l) (Routes.u_expiresAt body)
          /\ Backend.usageLimit l'
             = default (Backend.usageLimit l) (Routes.u_usageLimit body)).
Proof.
  intros now u key body db l m Hl Hm r. subst r.
  unfold Routes.put_update. rewrite Hl, Hm.
  destruct (negb (Backend.is_admin u)
            && negb (Backend.issuer l =? Backend.id u)%N
            && negb (Backend.owner m =? Backend.id u)%N) eqn:Hauth.
  - split; [done|]. intros Hmay.
    rewrite !andb_true_iff, !negb_true_iff, !N.eqb_neq in Hauth.
    destruct Hauth as [[Hadmin Hissuer] Howner].
    destruct Hmay as [Hrole|[?|?]]; [|done|done].
    apply BackendFacts.is_admin_true in Hrole. congruence.
  - split.
    + intros Hno. destruct Hno.
      rewrite !andb_false_iff, !negb_false_iff, !N.eqb_eq,
        BackendFacts.is_admin_true in Hauth.
      unfold Backend.may_revoke. tauto.
    + intros _. eexists. split; [done|]. cbn [fst Backend.licenses].
      rewrite lookup_insert_eq. split; [done|]. split.
      { intros k Hk. by rewrite lookup_insert_ne. }
      split_and!; done.
Qed.

Lemma X23_update_route_authority_and_frame_witness :
  Routes.put_update 20 (Some Samples.alice) 11
    (Routes.mkUpdateBody None (Some true) None None None)
    (fst (Backend.put_revoke 10 (Some Samples.bob) 11 "policy" Samples.db1))
  = (fst (Backend.put_revoke 10 (Some Samples.bob) 11 "policy" Samples.db1),
     Backend.Message 403 "Not authorized to update this license")
  /\ exists l',
      snd (Routes.put_update 20 (Some Samples.bob) 11
             (Routes.mkUpdateBody None (Some true) None None None)
             (fst (Backend.put_revoke 10 (Some Samples.bob) 11 "policy"
                     Samples.db1)))
      = Backend.LicenseJson 200 l'
      /\ Backend.isActive l' = true
      /\ Backend.revocationReason l' = Some "policy"%string.
Proof.
  set (db := fst (Backend.put_revoke 10 (Some Samples.bob) 11 "policy"
                    Samples.db1)).
  set (l := Backend.set_updatedAt 10
              (Backend.revoke "policy" Samples.license1)).
  assert (Backend.licenses db !! 11%N = Some l) as Hl by reflexivity.
  assert (Backend.models db !! Backend.model l = Some (Backend.mkModel 7%N))
    as Hm by reflexivity.
  split.
  - apply (X23_update_route_authority_and_frame 20%Z Samples.alice 11%N
             (Routes.mkUpdateBody None (Some true) None None None) db l
             (Backend.mkModel 7%N) Hl Hm).
    intros [H|[H|H]]; discriminate H.
  - destruct (X23_update_route_authority_and_frame 20%Z Samples.bob 11%N
                (Routes.mkUpdateBody None (Some true) None None None) db l
                (Backend.mkModel 7%N) Hl Hm) as [_ Hyes].
    destruct Hyes as (l' & Hreply & _ & _ & _ & _ & _ & _ & _ & Hreason
                      & _ & _ & _ & Hactive & _);
      [right; left; reflexivity|].
    exists l'. split; [exact Hreply|]. split; [exact Hactive|exact Hreason].
Defined.

(** X24. The GraphQL query validateLicense and the REST route
    GET /api/licenses/validate/:licenseId decide alike: for an
    authenticated user and any of the four access level names, the
    resolver returns true exactly when the route answers
    [isValid: true]. *)
Theorem X24_graphql_validate_agrees_with_rest :
  forall now u lid required db,
    Backend.isIn required Backend.accessLevels = true ->
    Routes.resolve_validateLicense now (Some u) lid required db
    = Some (Routes.says_valid
              (snd (Backend.get_validate now (Some u) lid required db))).
Proof. intros now u lid required db. apply RoutesFacts.resolver_agrees. Qed.

Lemma X24_graphql_validate_agrees_with_rest_witness :
  Routes.resolve_validateLicense 1000 (Some Samples.alice) "LIC-1"
                                 "ReadOnly" Samples.db1
  = Some true
  /\ Routes.resolve_validateLicense 1000 (Some Samples.alice) "LIC-1"
                                    "FullAccess" Samples.db1
     = Some false.
Proof.
  split.
  - rewrite (X24_graphql_validate_agrees_with_rest 1000%Z Samples.alice
               "LIC-1" "ReadOnly" Samples.db1); reflexivity.
  - rewrite (X24_graphql_validate_agrees_with_rest 1000%Z Samples.alice
               "LIC-1" "FullAccess" Samples.db1); reflexivity.
Defined.

(** X25. Called with a required level that is none of the four names,
    the resolver finds it at index -1, below every level a license can
    have: it returns true for the licensee of any valid license, where
    the REST route answers 400 without looking the license up. *)
Theorem X25_resolver_accepts_unknown_level :
  forall now u lid required db l,
    Backend.isIn required Backend.accessLevels = false ->
    Backend.isIn (Backend.accessLevel l) Backend.accessLevels = true ->
    Backend.findOne_licenseId lid db = Some l ->
    Routes.resolve_validateLicense now (Some u) lid required db
    = Some (Backend.isValid now l
            && (Backend.licensee l =? Backend.id u)%N)
    /\ Backend.get_validate now (Some u) lid required db
       = (db, Backend.ValidationErrors).
Proof.
  intros now u lid required db l Hreq Hlevel Hl. split.
  - by apply RoutesFacts.resolver_unknown_level.
  - unfold Backend.get_validate. by rewrite Hreq.
Qed.

Lemma X25_resolver_accepts_unknown_level_witness :
  Routes.resolve_validateLicense 10 (Some Samples.alice) "LIC-1" "Root"
                                 Samples.db1
  = Some true.
Proof.
  destruct (X25_resolver_accepts_unknown_level 10%Z Samples.alice "LIC-1"
              "Root" Samples.db1 Samples.license1) as [H _];
    [reflexivity|reflexivity|reflexivity|exact H].
Defined.
